(** * fuzzypanda: the match pipeline, embedded and verified

    A shallow embedding of [fuzzypanda/preprocess.py] and
    [fuzzypanda/fuzzypanda.py].

    Conventions of the embedding:
    - a Python [str] is a [string]; its characters are the code points
      0..255, with Python's [str.lower], [str.isspace] and code-point order
      on that range;
    - a dict is a [gmap]; a DataFrame is an association list of named
      columns, in column order;
    - functions that raise, log or touch files run in the monad [M], which
      threads the world (file system, log, left table) and returns either a
      value or the raised exception. *)

From Stdlib Require Import Ascii String NArith ZArith DecimalString.
From stdpp Require Import base option list strings sorting gmap.


(** ** Python's [str] primitives *)

Module Py.

(** [str.isspace] on one character: TAB..CR, FS..US and SPACE, NEL, NBSP. *)
Definition isspace (c : ascii) : bool :=
  let n := N_of_ascii c in
  ((9 <=? n) && (n <=? 13) || (28 <=? n) && (n <=? 32)
   || (n =? 133) || (n =? 160))%N.

(** [str.lower] on one character: A..Z and the Latin-1 capitals. *)
Definition lower_char (c : ascii) : ascii :=
  let n := N_of_ascii c in
  if ((65 <=? n) && (n <=? 90)
      || (192 <=? n) && (n <=? 222) && negb (n =? 215))%N
  then ascii_of_N (n + 32) else c.

Fixpoint lower (s : string) : string :=
  match s with
  | "" => ""
  | String c s' => String (lower_char c) (lower s')
  end.

(** [t.replace(c, r)] for a one-character pattern [c]. *)
Fixpoint replace (c : ascii) (r : string) (t : string) : string :=
  match t with
  | "" => ""
  | String x t' =>
      if Ascii.eqb x c then r +:+ replace c r t'
      else String x (replace c r t')
  end.

(** Closes the word read so far. *)
Definition push (w : string) (ws : list string) : list string :=
  match w with "" => ws | _ => w :: ws end.

(** One character of [split], read right to left: the pair is the word that
    is still open on the left and the words already closed. *)
Definition split_step (c : ascii) (p : string * list string)
  : string * list string :=
  if isspace c then ("", push p.1 p.2) else (String c p.1, p.2).

Fixpoint feed (u : string) (p : string * list string) : string * list string :=
  match u with
  | "" => p
  | String c u' => split_step c (feed u' p)
  end.

(** [t.split()]: the maximal whitespace-free runs, in order. *)
Definition split (t : string) : list string :=
  let p := feed t ("", []) in push p.1 p.2.

(** [''.join(tl)]. *)
Definition join (tl : list string) : string := foldr String.app "" tl.

(** [tl.sort()] on a list of [str]: code-point lexicographic order. *)
Definition sort (tl : list string) : list string := merge_sort String.le tl.

Fixpoint lstrip (s : string) : string :=
  match s with
  | "" => ""
  | String c s' => if isspace c then lstrip s' else s
  end.

Fixpoint rstrip (s : string) : string :=
  match s with
  | "" => ""
  | String c s' =>
      match rstrip s' with
      | "" => if isspace c then "" else String c ""
      | r => String c r
      end
  end.

(** [s.strip()]. *)
Definition strip (s : string) : string := rstrip (lstrip s).

(** The characters of a string. *)
Fixpoint chars (s : string) : list ascii :=
  match s with
  | "" => []
  | String c s' => c :: chars s'
  end.

End Py.

(** ** preprocess.py *)

(** [PreProcessor]: its one attribute. *)
Record PreProcessor := { screened_chars : string }.

(** The double quote, written by code so that literals stay quote-free. *)
Definition dquote : ascii := ascii_of_nat 34.

(** [PreProcessor.__init__]. *)
Definition PreProcessor_init : PreProcessor :=
  {| screened_chars := "!@#$%^&*()-_=+{}[]:;'" +:+ String dquote "/|\?><.,~`" |}.

(** The body of the loop [for c in self.screened_chars]. *)
Definition screen_step (t : string) (c : ascii) : string :=
  if Ascii.eqb c "&" then Py.replace c " and " t else Py.replace c "" t.

Definition screen (cs : list ascii) (t : string) : string :=
  foldl screen_step t cs.

(** [PreProcessor.preprocess]. *)
Definition preprocess (self : PreProcessor) (s : string) : string :=
  let t := Py.lower s in
  let t := screen (Py.chars (screened_chars self)) t in
  let tl := Py.split t in
  let tl := Py.sort tl in
  Py.join tl.

(** The text before the split, as one function of the input. *)
Definition screened (self : PreProcessor) (s : string) : string :=
  screen (Py.chars (screened_chars self)) (Py.lower s).

(** ** Values, exceptions, tables *)

(** A cell, an argument or a column label: a [str], or another object, which
    carries the name of its class and what [str()] makes of it. Another
    object stands for a value such as a number or [None]: it is hashable,
    it is the same label as an object of the same class and representation,
    and its class defines no addition with a [str] and no concatenation of
    its own, so that adding it to a [str], on either side, raises the
    [TypeError] of the interpreter. *)
Inductive value :=
  | VStr (s : string)
  | VObj (cls : string) (repr : string).

Global Instance value_eq_dec : EqDecision value.
Proof. solve_decision. Defined.

(** [str(v)]. *)
Definition py_str (v : value) : string :=
  match v with VStr s => s | VObj _ r => r end.

(** [type(v)], as an f-string prints it. *)
Definition type_repr (v : value) : string :=
  "<class '" +:+ match v with VStr _ => "str" | VObj cls _ => cls end +:+ "'>".

Definition str_type : string := "<class 'str'>".

Inductive exn_class :=
  | ValueError | LookupError | KeyError | IndexError
  | FileNotFoundError | TypeError.

(** A raised exception: its class and its [args]. *)
Record exn := Exception { exn_cls : exn_class; exn_args : list string }.

(** [isinstance(e, LookupError)]: KeyError and IndexError derive from it. *)
Definition is_lookup_error (e : exn) : bool :=
  match exn_cls e with
  | LookupError | KeyError | IndexError => true
  | _ => false
  end.

Inductive result (A : Type) :=
  | Ok (a : A)
  | Raise (e : exn).
Arguments Ok {A} a.
Arguments Raise {A} e.

(** A DataFrame: its columns, in order, each with its label and its cells in
    row order. A label is any value, not only a [str]. *)
Definition DataFrame := list (value * list value).

(** [df.columns]. *)
Definition columns (df : DataFrame) : list value := df.*1.

(** [col in df]. *)
Definition has_column (df : DataFrame) (col : value) : bool :=
  bool_decide (col ∈ columns df).

(** [df[col]], when the column is there. *)
Fixpoint get_column (df : DataFrame) (col : value) : option (list value) :=
  match df with
  | [] => None
  | (c, cells) :: df' => if decide (c = col) then Some cells else get_column df' col
  end.

(** [df[col] = cells]: replaces the column in place, or appends it. *)
Fixpoint set_column (df : DataFrame) (col : value) (cells : list value)
  : DataFrame :=
  match df with
  | [] => [(col, cells)]
  | (c, old) :: df' =>
      if decide (c = col) then (c, cells) :: df'
      else (c, old) :: set_column df' col cells
  end.

(** ** The world: files, the module logger, the caller's left table *)

Inductive level := DEBUG | WARNING | ERROR.

(** A call [logger.<level>(msg, *args)]; the message is kept unformatted. *)
Record log_record := LogRecord {
  levelno : level;
  msg : string;
  args : list string
}.

Record world := World {
  files : gmap string string;
  log : list log_record;
  left_dataframe : DataFrame
}.

Definition M (A : Type) : Type := world → result A * world.

Definition ret {A} (a : A) : M A := λ w, (Ok a, w).

Definition bind {A B} (m : M A) (k : A → M B) : M B :=
  λ w, match m w with
       | (Ok a, w') => k a w'
       | (Raise e, w') => (Raise e, w')
       end.

Definition raise {A} (cls : exn_class) (args : list string) : M A :=
  λ w, (Raise (Exception cls args), w).

Definition reraise {A} (e : exn) : M A := λ w, (Raise e, w).

Notation "x <- m ;; k" := (bind m (λ x, k))
  (at level 100, m at next level, right associativity,
   format "'[v' x  <-  m  ;;  '/' k ']'").
Notation "m ;;; k" := (bind m (λ _, k))
  (at level 100, right associativity,
   format "'[v' m  ;;;  '/' k ']'").

(** [for x in xs: body(x)]. *)
Fixpoint for_each {A} (xs : list A) (body : A → M unit) : M unit :=
  match xs with
  | [] => ret ()
  | x :: xs' => body x ;;; for_each xs' body
  end.

(** [for x in xs: acc = body(acc, x)], the loop variable threaded along. *)
Fixpoint for_fold {A S} (xs : list A) (acc : S) (body : S → A → M S) : M S :=
  match xs with
  | [] => ret acc
  | x :: xs' => acc' <- body acc x ;; for_fold xs' acc' body
  end.

(** [series.apply(f)]: one call per cell, in row order. *)
Fixpoint series_apply {A B} (f : A → M B) (cells : list A) : M (list B) :=
  match cells with
  | [] => ret []
  | x :: cells' => y <- f x ;; ys <- series_apply f cells' ;; ret (y :: ys)
  end.

(** The world with more records in its log. *)
Definition add_log (w : world) (recs : list log_record) : world :=
  World (files w) (log w ++ recs) (left_dataframe w).

Definition logger (lvl : level) (m : string) (a : list string) : M unit :=
  λ w, (Ok (), add_log w [LogRecord lvl m a]).

Definition get_left : M DataFrame := λ w, (Ok (left_dataframe w), w).

Definition set_left (df : DataFrame) : M unit :=
  λ w, (Ok (), World (files w) (log w) df).

(** [%s] of an attribute that may be [None]. *)
Definition fmt_opt (o : option string) : string := default "None" o.

(** [s + v] for a [str] [s]: only a [str] can be appended to it. *)
Definition str_concat (s : string) (v : value) : M string :=
  match v with
  | VStr t => ret (s +:+ t)
  | VObj cls _ =>
      raise TypeError
        ["can only concatenate str (not " +:+ String dquote cls
         +:+ String dquote ") to str"]
  end.

(** [v + s] for a [str] [s]: for another object, the error of an operator no
    operand supports. *)
Definition concat_str (v : value) (s : string) : M string :=
  match v with
  | VStr t => ret (t +:+ s)
  | VObj cls _ =>
      raise TypeError
        ["unsupported operand type(s) for +: '" +:+ cls +:+ "' and 'str'"]
  end.

(** *** Text files *)

Definition LF : ascii := ascii_of_nat 10.
Definition CR : ascii := ascii_of_nat 13.
Definition nl : string := String LF "".

(** The lines a text file yields when iterated: universal newlines, so CR, LF
    and CR LF each end a line and read as one LF; a last line may lack it. *)
Fixpoint readlines (s : string) : list string :=
  match s with
  | "" => []
  | String c s' =>
      if Ascii.eqb c LF then nl :: readlines s'
      else if Ascii.eqb c CR then
        match s' with
        | String c' _ => if Ascii.eqb c' LF then readlines s' else nl :: readlines s'
        | "" => [nl]
        end
      else match readlines s' with
           | [] => [String c ""]
           | l :: ls => String c l :: ls
           end
  end.

(** [os.path.exists(path)]. *)
Definition path_exists (path : string) : M bool :=
  λ w, (Ok (bool_decide (is_Some (files w !! path))), w).

(** [open(path, 'w')]: creates or truncates. The files of a world are files
    of directories that are there, and a world has no directory without a
    file: [open] raises for a path into a directory that does not exist,
    which is no state of this model. The paths the program opens for writing
    are the processed corpus, next to a corpus that was found, and the
    staging file of a right column, named after its label: what is stated
    about a staging file is stated for a label with no slash, a file of the
    working directory. *)
Definition open_w (path : string) : M unit :=
  λ w, (Ok (), World (<[path := ""]> (files w)) (log w) (left_dataframe w)).

(** [f.write(s)] on the file opened at [path]. *)
Definition file_write (path : string) (s : string) : M unit :=
  λ w, (Ok (), World (<[path := default "" (files w !! path) +:+ s]> (files w))
                     (log w) (left_dataframe w)).

(** [open(path, 'r')], then all it holds. *)
Definition open_r (path : string) : M string :=
  λ w, match files w !! path with
       | Some s => (Ok s, w)
       | None => (Raise (Exception FileNotFoundError
                   ["No such file or directory: '" +:+ path +:+ "'"]), w)
       end.

(** [os.remove(path)]. *)
Definition os_remove (path : string) : M unit :=
  λ w, match files w !! path with
       | Some _ => (Ok (), World (delete path (files w)) (log w) (left_dataframe w))
       | None => (Raise (Exception FileNotFoundError
                   ["No such file or directory: '" +:+ path +:+ "'"]), w)
       end.

Module os_path.

Definition is_slash (c : ascii) : bool := Ascii.eqb c "/".

(** The path cut after its last slash: (head with the slash, tail). *)
Fixpoint rsplit (p : string) : string * string :=
  match p with
  | "" => ("", "")
  | String c p' =>
      match rsplit p' with
      | ("", t) => if is_slash c then ("/", t) else ("", String c t)
      | (h, t) => (String c h, t)
      end
  end.

Fixpoint all_slashes (p : string) : bool :=
  match p with
  | "" => true
  | String c p' => is_slash c && all_slashes p'
  end.

Fixpoint rstrip_slashes (p : string) : string :=
  match p with
  | "" => ""
  | String c p' =>
      match rstrip_slashes p' with
      | "" => if is_slash c then "" else String c ""
      | r => String c r
      end
  end.

Definition basename (p : string) : string := (rsplit p).2.

Definition dirname (p : string) : string :=
  let head := (rsplit p).1 in
  if all_slashes head then head else rstrip_slashes head.

Fixpoint ends_with_slash (p : string) : bool :=
  match p with
  | "" => false
  | String c "" => is_slash c
  | String _ p' => ends_with_slash p'
  end.

Definition join (a b : string) : string :=
  match b with
  | String "/" _ => b
  | _ => match a with
         | "" => b
         | _ => if ends_with_slash a then a +:+ b else a +:+ "/" +:+ b
         end
  end.

End os_path.

(** ** The approximate matcher (symspellpy), an external collaborator *)

(** [SuggestItem]. *)
Record SuggestItem := Suggest { term : string; distance : Z; count : Z }.

(** What the pipeline needs of the engine: the constructor
    [SymSpell(max_dictionary_edit_distance, prefix_length)], which may raise;
    [create_dictionary], given the text of the corpus file when that file is
    there; and the search behind [lookup] at [Verbosity.TOP], which yields
    the closest dictionary term it finds, if any. *)
Class SymSpellEngine := {
  SymSpell : Type;
  SymSpell_init : Z → Z → exn + SymSpell;
  create_dictionary : SymSpell → option string → SymSpell;
  suggestions_top : SymSpell → string → list SuggestItem
}.

Section Pipeline.
Context `{Engine : SymSpellEngine}.

(** [sym_spell.lookup(phrase, Verbosity.TOP, include_unknown=...)], on an
    engine built with [max_edit_distance]: when the search finds nothing and
    [include_unknown] is set, the answer is the phrase itself, one step
    beyond the maximum distance. *)
Definition lookup (sym : SymSpell) (max_edit_distance : Z) (phrase : string)
    (include_unknown : bool) : list SuggestItem :=
  match suggestions_top sym phrase with
  | [] => if include_unknown then [Suggest phrase (max_edit_distance + 1) 0] else []
  | suggestions => suggestions
  end.

(** ** fuzzypanda.py: class [Fuzzy] *)

Record Fuzzy := {
  _preprocess_flag : bool;
  unprocessed_corpus : option string;
  sym_spell : option SymSpell;
  index_dictionary : option (gmap string string);
  corpus : option string;
  max_edit_distance_dictionary : Z;
  prefix_length : Z;
  preprocesser : PreProcessor
}.

(** [Fuzzy.check_corpus]. *)
Definition check_corpus (self : Fuzzy) : M unit :=
  logger DEBUG "Checking corpus file %s" [fmt_opt (corpus self)] ;;;
  match corpus self with
  | None => logger WARNING "Corpus file not defined" []
  | Some c =>
      found <- path_exists c ;;
      if negb found then
        logger ERROR "Corpus file %s not found" [c] ;;;
        raise FileNotFoundError ["Corpus file " +:+ c +:+ " not found"]
      else logger DEBUG "Corpus file found" []
  end.

(** [Fuzzy.preprocess_corpus]. *)
Definition preprocess_corpus (self : Fuzzy) : M Fuzzy :=
  logger DEBUG "Preprocessing corpus file %s" [fmt_opt (corpus self)] ;;;
  if _preprocess_flag self then
    logger WARNING "Corpus already preprocessed! Skipping" [] ;;;
    ret self
  else
    match corpus self with
    | None =>
        logger ERROR "Attempted to pre-process undefined corpus file" [] ;;;
        raise FileNotFoundError
          ["self.corpus must be specified before pre-processing"]
    | Some c =>
        check_corpus self ;;;
        let corpus_directory := os_path.dirname c in
        let corpus_name := os_path.basename c in
        let processed_corpus :=
          os_path.join corpus_directory ("preprocessed_" +:+ corpus_name) in
        cf <- open_r c ;;
        open_w processed_corpus ;;;
        for_each (readlines cf) (λ line,
          file_write processed_corpus
            (preprocess (preprocesser self) line +:+ nl)) ;;;
        logger DEBUG "Corpus processed to %s" [processed_corpus] ;;;
        ret {| _preprocess_flag := true;
               unprocessed_corpus := Some c;
               sym_spell := sym_spell self;
               index_dictionary := index_dictionary self;
               corpus := Some processed_corpus;
               max_edit_distance_dictionary := max_edit_distance_dictionary self;
               prefix_length := prefix_length self;
               preprocesser := preprocesser self |}
    end.

(** [Fuzzy.create_symspell_dict]. *)
Definition create_symspell_dict (self : Fuzzy) : M Fuzzy :=
  logger DEBUG "Creating SymSpell dictionary" [] ;;;
  check_corpus self ;;;
  match SymSpell_init (max_edit_distance_dictionary self) (prefix_length self) with
  | inl ex =>
      logger ERROR "Failure to create SymSpell object!" [] ;;;
      reraise ex
  | inr sym =>
      λ w,
        let text := corpus self ≫= λ c, files w !! c in
        (Ok {| _preprocess_flag := _preprocess_flag self;
               unprocessed_corpus := unprocessed_corpus self;
               sym_spell := Some (create_dictionary sym text);
               index_dictionary := index_dictionary self;
               corpus := corpus self;
               max_edit_distance_dictionary := max_edit_distance_dictionary self;
               prefix_length := prefix_length self;
               preprocesser := preprocesser self |}, w)
  end.

(** The format of the conflict warning of [create_index]. *)
Definition conflict_msg : string :=
  "index_dictionary conflict: %s conflicts with %s for key %s. Keeping index_dictionary[%s] = %s".

(** The body of the loop of [create_index], on the dictionary built so far. *)
Definition index_line (pp : PreProcessor) (index : gmap string string)
    (line : string) : M (gmap string string) :=
  let original_string := Py.strip line in
  let processed_string := preprocess pp original_string in
  match index !! processed_string with
  | Some conflict_string =>
      if bool_decide (conflict_string ≠ original_string) then
        logger WARNING conflict_msg
          [original_string; conflict_string; processed_string;
           processed_string; conflict_string] ;;;
        ret index
      else ret (<[processed_string := original_string]> index)
  | None => ret (<[processed_string := original_string]> index)
  end.

(** [Fuzzy.create_index]. *)
Definition create_index (self : Fuzzy) : M Fuzzy :=
  logger DEBUG "Creating corpus index" [] ;;;
  check_corpus self ;;;
  (if bool_decide (is_Some (index_dictionary self)) then
     logger WARNING "index_dictionary already created. Overwritting." []
   else ret ()) ;;;
  if negb (_preprocess_flag self) then
    logger ERROR "Corpus %s not processed. Cannot create index dictionary"
      [fmt_opt (corpus self)] ;;;
    raise FileNotFoundError
      ["Corpus not processed. Cannot create index dictionary";
       fmt_opt (corpus self)]
  else
    match unprocessed_corpus self with
    | None => raise TypeError ["stat: path should be string, bytes, os.PathLike or integer, not NoneType"]
    | Some u =>
        found <- path_exists u ;;
        if negb found then
          logger ERROR "Unprocessed Corpus file %snot found" [u] ;;;
          raise FileNotFoundError ["Unprocessed Corpus file" +:+ u +:+ " not found"]
        else
          ucf <- open_r u ;;
          index <- for_fold (readlines ucf) ∅ (index_line (preprocesser self)) ;;
          logger DEBUG "Corpus index created" [] ;;;
          ret {| _preprocess_flag := _preprocess_flag self;
                 unprocessed_corpus := unprocessed_corpus self;
                 sym_spell := sym_spell self;
                 index_dictionary := Some index;
                 corpus := corpus self;
                 max_edit_distance_dictionary := max_edit_distance_dictionary self;
                 prefix_length := prefix_length self;
                 preprocesser := preprocesser self |}
    end.

(** [Fuzzy.__init__]. The test [if preprocess:] is on the imported module,
    which is always true. *)
Definition Fuzzy_init (input_corpus : option string)
    (preprocesser_arg : option PreProcessor)
    (max_edit_distance_dictionary_arg prefix_length_arg : Z) : M Fuzzy :=
  let self :=
    {| _preprocess_flag := false;
       unprocessed_corpus := None;
       sym_spell := None;
       index_dictionary := None;
       corpus := input_corpus;
       max_edit_distance_dictionary := max_edit_distance_dictionary_arg;
       prefix_length := prefix_length_arg;
       preprocesser := default PreProcessor_init preprocesser_arg |} in
  check_corpus self ;;;
  self <- preprocess_corpus self ;;
  if _preprocess_flag self then
    self <- create_symspell_dict self ;;
    create_index self
  else ret self.

(** [Fuzzy.query]. *)
Definition query (self : Fuzzy) (qstring : value) : M (string * bool) :=
  match qstring with
  | VObj _ _ =>
      let m := py_str qstring +:+ " is type " +:+ type_repr qstring +:+ " not string" in
      logger ERROR m [] ;;;
      raise ValueError [m]
  | VStr q =>
      match index_dictionary self with
      | None =>
          logger ERROR "index_dictionary not created" [] ;;;
          raise ValueError ["index_dictionary not created"]
      | Some index =>
          match sym_spell self with
          | None =>
              logger ERROR "sym_spell SymSpell object not created" [] ;;;
              raise ValueError ["sym_spell SymSpell object not created"]
          | Some sym =>
              let processed_string := preprocess (preprocesser self) q in
              logger DEBUG "Querying string: '%s', preprocessed to '%s' "
                [q; processed_string] ;;;
              let suggest :=
                lookup sym (max_edit_distance_dictionary self)
                  processed_string true in
              match suggest with
              | [] => raise IndexError ["list index out of range"]
              | top :: _ =>
                  let found_term := term top in
                  let found_edit_distance := distance top in
                  if (max_edit_distance_dictionary self <? found_edit_distance)%Z
                  then
                    logger DEBUG "String '%s' not found!" [q] ;;;
                    ret (q, false)
                  else
                    match index !! found_term with
                    | None => raise KeyError [found_term]
                    | Some backprocessed_string =>
                        logger DEBUG
                          "String '%s' found! Backprocessed '%s' to '%s'"
                          [q; found_term; backprocessed_string] ;;;
                        ret (backprocessed_string, true)
                    end
              end
          end
      end
  end.

(** No vocabulary term within the threshold: the search found nothing, or
    what it found lies beyond the maximum distance. *)
Definition misses (self : Fuzzy) (sym : SymSpell) (q : string) : Prop :=
  match suggestions_top sym (preprocess (preprocesser self) q) with
  | [] => True
  | top :: _ => (max_edit_distance_dictionary self < distance top)%Z
  end.

(** The closure [apply_query] of [get_fuzzy_column]; [null_return] has
    passed the type check, so it is [None] or a [str]. *)
Definition apply_query (self : Fuzzy) (null_return : option string)
    (v : value) : M string :=
  r <- query self v ;;
  let '(out, found) := r in
  if found : bool then ret out
  else match null_return with
       | None => ret out
       | Some s => ret s
       end.

(** The check of [null_return], shared by the column method and the entry
    point. *)
Definition check_null_return (null_return : option value)
  : M (option string) :=
  match null_return with
  | None => ret None
  | Some (VStr s) => ret (Some s)
  | Some (VObj _ _ as v) =>
      let m := "null_return is type " +:+ type_repr v +:+ " not " +:+ str_type in
      logger ERROR m [] ;;;
      raise ValueError [m]
  end.

(** [str(n)] for the few numbers an error message prints. *)
Definition Z_repr (n : Z) : string :=
  match n with
  | Z0 => "0"
  | Zpos p => NilEmpty.string_of_uint (Pos.to_uint p)
  | Zneg p => "-" +:+ NilEmpty.string_of_uint (Pos.to_uint p)
  end.

(** [sep.join(items)]: the items in order, each of which must be a [str]. *)
Fixpoint join_items (i : nat) (items : list value) : exn + list string :=
  match items with
  | [] => inr []
  | VStr s :: rest =>
      match join_items (S i) rest with
      | inr strs => inr (s :: strs)
      | inl e => inl e
      end
  | VObj cls _ :: _ =>
      inl (Exception TypeError
             ["sequence item " +:+ Z_repr (Z.of_nat i)
              +:+ ": expected str instance, " +:+ cls +:+ " found"])
  end.

Definition str_join (sep : string) (items : list value) : M string :=
  match join_items 0 items with
  | inr strs => ret (String.concat sep strs)
  | inl e => reraise e
  end.

(** [Fuzzy.get_fuzzy_column]. *)
Definition get_fuzzy_column (self : Fuzzy) (dataframe : DataFrame)
    (col_name : value) (null_return : option value) : M (list string) :=
  logger DEBUG "Creating fuzzy column for %s" [py_str col_name] ;;;
  (if negb (has_column dataframe col_name) then
     m <- str_join " "
            (VStr (py_str col_name +:+ " not in dataframe columns:")
             :: columns dataframe) ;;
     logger ERROR m [] ;;;
     raise LookupError [m]
   else ret ()) ;;;
  null_str <- check_null_return null_return ;;
  match get_column dataframe col_name with
  | None => raise KeyError [py_str col_name]
  | Some cells => series_apply (apply_query self null_str) cells
  end.

(** ** fuzzypanda.py: the entry point *)

(** The two validation loops [for col in ..._cols: if col not in ...]. *)
Definition check_cols (which : string) (cols : list value) (df : DataFrame)
  : M unit :=
  for_each cols (λ col,
    if negb (has_column df col) then
      let m := py_str col +:+ " in " +:+ which +:+ "_cols not in " +:+ which
               +:+ "_dataframe columns" in
      logger ERROR m [] ;;;
      raise LookupError [m]
    else ret ()).

(** One turn of the loop [for i, left_col in enumerate(left_cols)]. *)
Definition fuzzy_pair (right_dataframe : DataFrame) (right_cols : list value)
    (null_return : option value) (preprocesser_arg : option PreProcessor)
    (max_edit_distance : Z) (i : nat) (left_col : value)
  : M (list string) :=
  match right_cols !! i with
  | None => raise IndexError ["list index out of range"]
  | Some right_col =>
      dict_name <- concat_str right_col "_dict.txt" ;;
      open_w dict_name ;;;
      match get_column right_dataframe right_col with
      | None => raise KeyError [py_str right_col]
      | Some rows =>
          for_each rows (λ row, file_write dict_name (py_str row +:+ nl)) ;;;
          fuzz_obj <- Fuzzy_init (Some dict_name) preprocesser_arg
                        max_edit_distance 7 ;;
          left <- get_left ;;
          fuzzy_col <- get_fuzzy_column fuzz_obj left left_col null_return ;;
          os_remove dict_name ;;;
          os_remove ("preprocessed_" +:+ dict_name) ;;;
          ret fuzzy_col
      end
  end.

(** The first loop, [fuzzy_cols] growing by one column a turn. *)
Fixpoint fuzzy_loop (right_dataframe : DataFrame) (right_cols : list value)
    (null_return : option value) (preprocesser_arg : option PreProcessor)
    (max_edit_distance : Z) (i : nat) (left_cols : list value)
    (fuzzy_cols : list (list string)) : M (list (list string)) :=
  match left_cols with
  | [] => ret fuzzy_cols
  | left_col :: rest =>
      fuzzy_col <- fuzzy_pair right_dataframe right_cols null_return
                     preprocesser_arg max_edit_distance i left_col ;;
      fuzzy_loop right_dataframe right_cols null_return preprocesser_arg
        max_edit_distance (S i) rest (fuzzy_cols ++ [fuzzy_col])
  end.

(** The second loop: [left_dataframe['fuzzy_' + left_cols[i]] = fuzzy_col];
    the name is built first, then the column is assigned. *)
Fixpoint write_loop (left_cols : list value) (i : nat)
    (fuzzy_cols : list (list string)) : M unit :=
  match fuzzy_cols with
  | [] => ret ()
  | fuzzy_col :: rest =>
      match left_cols !! i with
      | None => raise IndexError ["list index out of range"]
      | Some left_col =>
          fuzzy_col_name <- str_concat "fuzzy_" left_col ;;
          left <- get_left ;;
          set_left (set_column left (VStr fuzzy_col_name) (VStr <$> fuzzy_col)) ;;;
          write_loop left_cols (S i) rest
      end
  end.

(** [get_fuzzy_columns]. The arguments [left_cols] and [right_cols] are
    lists of column labels, so the two checks of their type always pass;
    what the labels are is not checked. *)
Definition get_fuzzy_columns (right_dataframe : DataFrame)
    (left_cols : list value) (right_cols : option (list value))
    (null_return : option value) (preprocesser_arg : option PreProcessor)
    (max_edit_distance : Z) : M unit :=
  left <- get_left ;;
  check_cols "left" left_cols left ;;;
  right_cols <-
    match right_cols with
    | None =>
        logger DEBUG "right_cols set to None, copying to left_cols" [] ;;;
        ret left_cols
    | Some cols => check_cols "right" cols right_dataframe ;;; ret cols
    end ;;
  check_null_return null_return ;;;
  (if (max_edit_distance <? 1)%Z then
     let m := "max_edit_distance must be > 1, given " +:+ Z_repr max_edit_distance in
     logger ERROR m [] ;;;
     raise ValueError [m]
   else ret ()) ;;;
  fuzzy_cols <- fuzzy_loop right_dataframe right_cols null_return
                  preprocesser_arg max_edit_distance 0 left_cols [] ;;
  write_loop left_cols 0 fuzzy_cols.

End Pipeline.

(** ** A reference engine, to run the pipeline on examples

    The engine proper is a library outside this repository. This instance
    answers as its interface promises, by plain edit distance over the words
    of the corpus; it stands in for it wherever a run needs an engine. *)

Module RefEngine.

Fixpoint row_go (c : ascii) (t : string) (diag left : nat) (prev : list nat)
  : list nat :=
  match t, prev with
  | String x t', up :: prev' =>
      let v := Nat.min (Nat.min (up + 1) (left + 1))
                 (diag + if Ascii.eqb c x then 0 else 1) in
      v :: row_go c t' up v prev'
  | _, _ => []
  end.

Definition row (t : string) (prev : list nat) (c : ascii) : list nat :=
  match prev with
  | d :: prev' => (d + 1) :: row_go c t d (d + 1) prev'
  | [] => []
  end.

(** The edit distance of [s] and [t]. *)
Definition edit_distance (s t : string) : nat :=
  default 0 (last (foldl (row t) (seq 0 (S (String.length t))) (Py.chars s))).

Record state := { max_distance : Z; words : list string }.

Definition init (max_dictionary_edit_distance prefix_length : Z)
  : exn + state :=
  if (max_dictionary_edit_distance <? 0)%Z then
    inl (Exception ValueError ["max_dictionary_edit_distance cannot be negative"])
  else if ((prefix_length <? 1) || (prefix_length <=? max_dictionary_edit_distance))%Z then
    inl (Exception ValueError
      ["prefix_length cannot be less than 1 or smaller than max_dictionary_edit_distance"])
  else inr {| max_distance := max_dictionary_edit_distance; words := [] |}.

Definition load (sym : state) (text : option string) : state :=
  {| max_distance := max_distance sym;
     words := words sym ++ Py.split (default "" text) |}.

(** The first of the words nearest to [phrase], when within reach. *)
Definition nearest (sym : state) (phrase : string) : list SuggestItem :=
  let best :=
    foldl (λ acc w,
             let d := edit_distance phrase w in
             match acc with
             | Some (_, d') => if (d <? d')%nat then Some (w, d) else acc
             | None => Some (w, d)
             end) None (words sym) in
  match best with
  | Some (w, d) =>
      if (Z.of_nat d <=? max_distance sym)%Z then [Suggest w (Z.of_nat d) 1] else []
  | None => []
  end.

Definition engine : SymSpellEngine := {|
  SymSpell := state;
  SymSpell_init := init;
  create_dictionary := load;
  suggestions_top := nearest
|}.

End RefEngine.

(** The tables of [FuzzyTests.setUp]. *)
Definition test_left_df : DataFrame :=
  [(VStr "ID", VStr <$> ["123314"; "123213"; "43543"; "35435"; "987"]);
   (VStr "sCol", VStr <$> ["kitten"; "siting"; "the times of best";
                      "the worst times"; "not in there"]);
   (VStr "zCol", VStr <$> ["oboe"; "trvmpet"; "over te rainbow";
                      "in Symphony C"; "not in there"])].

Definition test_right_df : DataFrame :=
  [(VStr "ID", VStr <$> ["12783314"; "12352213"; "43233543"; "23432420"]);
   (VStr "RsCol", VStr <$> ["kitten"; "sitting"; "the best of times";
                       "the worst of times"]);
   (VStr "RzCol", VStr <$> ["oboe"; "trumpet"; "over the rainbow";
                       "Symphony in C#"])].

(** A world with no files, an empty log and the given left table. *)
Definition fresh (left : DataFrame) : world := World ∅ [] left.

(** What a run leaves behind, in a form that compares by computation. *)
Definition outcome {A} (r : result A * world)
  : result A * list (string * string) * DataFrame :=
  (r.1, map_to_list (files r.2), left_dataframe r.2).

(** A [Fuzzy] object over the reference engine, as [Fuzzy.__init__] leaves
    it for the corpus of the two words [kitten] and [sitting]. *)
Definition demo_sym : @SymSpell RefEngine.engine :=
  {| RefEngine.max_distance := 2; RefEngine.words := ["kitten"; "sitting"] |}.

Definition demo_index : gmap string string :=
  <["kitten" := "kitten"]> (<["sitting" := "sitting"]> ∅).

Definition demo_fuzzy : @Fuzzy RefEngine.engine :=
  {| _preprocess_flag := true;
     unprocessed_corpus := Some "RsCol_dict.txt";
     sym_spell := Some demo_sym;
     index_dictionary := Some demo_index;
     corpus := Some "preprocessed_RsCol_dict.txt";
     max_edit_distance_dictionary := 2;
     prefix_length := 7;
     preprocesser := PreProcessor_init |}.

(** The key under which [create_index] files a line of the corpus. *)
Definition index_key (pp : PreProcessor) (line : string) : string :=
  preprocess pp (Py.strip line).

(** The conflict warnings logged from one world to a later one. *)
Definition conflict_notices (w w' : world) : list log_record :=
  filter (λ r, msg r = conflict_msg) (drop (length (log w)) (log w')).

(** A corpus of two lines whose originals differ and collapse to one key,
    and a [Fuzzy] object as [preprocess_corpus] leaves it on that corpus. *)
Definition twin_corpus : string := "The Best" +:+ nl +:+ "best, the" +:+ nl.

Definition twin_world : world :=
  World (<["twin.txt" := twin_corpus]>
           (<["preprocessed_twin.txt" := "bestthe" +:+ nl +:+ "bestthe" +:+ nl]> ∅))
        [] [].

Definition twin_fuzzy : @Fuzzy RefEngine.engine :=
  {| _preprocess_flag := true;
     unprocessed_corpus := Some "twin.txt";
     sym_spell := None;
     index_dictionary := None;
     corpus := Some "preprocessed_twin.txt";
     max_edit_distance_dictionary := 2;
     prefix_length := 7;
     preprocesser := PreProcessor_init |}.

(** A computation that leaves the caller's left table as it found it,
    whether it returns or raises. *)
Definition keeps_left {A} (m : M A) : Prop :=
  ∀ w, left_dataframe (m w).2 = left_dataframe w.

(** The left table after the second loop of the entry point. *)
Definition write_columns (left : DataFrame) (left_cols : list string)
    (fuzzy_cols : list (list string)) : DataFrame :=
  foldl (λ df p, set_column df (VStr ("fuzzy_" +:+ p.1)) (VStr <$> p.2))
    left (zip left_cols fuzzy_cols).

Section Phases.
Context `{Engine : SymSpellEngine}.

(** The entry point up to the end of its first loop: the checks, then one
    column computed per pair. What is left to do is the second loop. *)
Definition compute_columns (right_dataframe : DataFrame)
    (left_cols : list value) (right_cols : option (list value))
    (null_return : option value) (preprocesser_arg : option PreProcessor)
    (max_edit_distance : Z) : M (list (list string)) :=
  left <- get_left ;;
  check_cols "left" left_cols left ;;;
  right_cols <-
    match right_cols with
    | None =>
        logger DEBUG "right_cols set to None, copying to left_cols" [] ;;;
        ret left_cols
    | Some cols => check_cols "right" cols right_dataframe ;;; ret cols
    end ;;
  check_null_return null_return ;;;
  (if (max_edit_distance <? 1)%Z then
     let m := "max_edit_distance must be > 1, given " +:+ Z_repr max_edit_distance in
     logger ERROR m [] ;;;
     raise ValueError [m]
   else ret ()) ;;;
  fuzzy_loop right_dataframe right_cols null_return
    preprocesser_arg max_edit_distance 0 left_cols [].

End Phases.



(** The message of the entry point for a column that is not there. *)
Definition missing_msg (which col : string) : string :=
  col +:+ " in " +:+ which +:+ "_cols not in " +:+ which +:+ "_dataframe columns".

(** A text without a line break: what a text file gives back as one line. *)
Definition single_line (s : string) : Prop :=
  Forall (λ c, c ≠ LF ∧ c ≠ CR) (Py.chars s).

(** The text of the corpus file that the entry point stages for a right
    column: [str(row)] and a line feed, row after row. *)
Definition corpus_text (rows : list value) : string :=
  Py.join ((λ row, py_str row +:+ nl) <$> rows).

(** A right table with one cell of two lines, and a left table to match. *)
Definition two_line_right_df : DataFrame :=
  [(VStr "R", [VStr ("kitten" +:+ nl +:+ "sitting")])].

Definition kiten_left_df : DataFrame := [(VStr "L", [VStr "kiten"])].

(** A right column whose values carry whitespace on both sides. *)
Definition padded_rows : list value := [VStr "  kitten "; VStr " sitting"].

(** [Fuzzy.is_preprocessed]. *)
Definition is_preprocessed `{Engine : SymSpellEngine} (self : Fuzzy) : bool :=
  _preprocess_flag self.

(** A computation that only logs: its outcome and the records it adds are
    the same in every world, and it leaves files and left table alone. *)
Definition logs_only {A} (m : M A) : Prop :=
  ∃ r recs, ∀ w, m w = (r, add_log w recs).

(** The text [preprocess_corpus] writes for a corpus: the canonical form of
    each line and a line feed. *)
Definition processed_text (pp : PreProcessor) (content : string) : string :=
  Py.join ((λ line, preprocess pp line +:+ nl) <$> readlines content).

(** The path [preprocess_corpus] writes to. *)
Definition processed_path (c : string) : string :=
  os_path.join (os_path.dirname c) ("preprocessed_" +:+ os_path.basename c).

(** A name without a slash, hence a file of the working directory. *)
Definition no_slash (s : string) : Prop :=
  Forall (λ c, os_path.is_slash c = false) (Py.chars s).

Section Assignments.
Context `{Engine : SymSpellEngine}.

(** The object after [self.index_dictionary = index]. *)
Definition set_index_dictionary (self : Fuzzy) (index : gmap string string)
  : Fuzzy :=
  {| _preprocess_flag := _preprocess_flag self;
     unprocessed_corpus := unprocessed_corpus self;
     sym_spell := sym_spell self;
     index_dictionary := Some index;
     corpus := corpus self;
     max_edit_distance_dictionary := max_edit_distance_dictionary self;
     prefix_length := prefix_length self;
     preprocesser := preprocesser self |}.

(** The object after [self.sym_spell = sym]. *)
Definition set_sym_spell (self : Fuzzy) (sym : SymSpell) : Fuzzy :=
  {| _preprocess_flag := _preprocess_flag self;
     unprocessed_corpus := unprocessed_corpus self;
     sym_spell := Some sym;
     index_dictionary := index_dictionary self;
     corpus := corpus self;
     max_edit_distance_dictionary := max_edit_distance_dictionary self;
     prefix_length := prefix_length self;
     preprocesser := preprocesser self |}.

(** The object after the three assignments that end [preprocess_corpus]. *)
Definition set_processed (self : Fuzzy) (c processed_corpus : string) : Fuzzy :=
  {| _preprocess_flag := true;
     unprocessed_corpus := Some c;
     sym_spell := sym_spell self;
     index_dictionary := index_dictionary self;
     corpus := Some processed_corpus;
     max_edit_distance_dictionary := max_edit_distance_dictionary self;
     prefix_length := prefix_length self;
     preprocesser := preprocesser self |}.

(** The object at the start of [Fuzzy.__init__]. *)
Definition blank (input_corpus : option string)
    (preprocesser_arg : option PreProcessor)
    (max_edit_distance_dictionary_arg prefix_length_arg : Z) : Fuzzy :=
  {| _preprocess_flag := false;
     unprocessed_corpus := None;
     sym_spell := None;
     index_dictionary := None;
     corpus := input_corpus;
     max_edit_distance_dictionary := max_edit_distance_dictionary_arg;
     prefix_length := prefix_length_arg;
     preprocesser := default PreProcessor_init preprocesser_arg |}.

End Assignments.

(** The world with one file set and more records in its log. *)
Definition with_file (w : world) (path text : string)
    (recs : list log_record) : world :=
  World (<[path := text]> (files w)) (log w ++ recs) (left_dataframe w).

(** The names of the two files the entry point stages for a right column. *)
Definition dict_name (right_col : string) : string := right_col +:+ "_dict.txt".

Definition processed_dict_name (right_col : string) : string :=
  "preprocessed_" +:+ dict_name right_col.

(** The files once the staging files of some right columns are removed. *)
Definition cleaned (fs : gmap string string) (right_cols : list string)
  : gmap string string :=
  foldl (λ fs rc, delete (processed_dict_name rc) (delete (dict_name rc) fs))
    fs right_cols.

(** The files with the corpus of a right column staged and processed. *)
Definition staged_files (fs : gmap string string) (pp : PreProcessor)
    (right_col : string) (rows : list value) : gmap string string :=
  <[processed_dict_name right_col := processed_text pp (corpus_text rows)]>
    (<[dict_name right_col := corpus_text rows]> fs).

(** A computation whose outcome depends on the left table only, not on the
    files or the log it starts from. *)
Definition files_blind {A} (m : M A) : Prop :=
  ∀ w1 w2, left_dataframe w1 = left_dataframe w2 → (m w1).1 = (m w2).1.

(** A world that already has a file under the name of a staging file. *)
Definition occupied_world : world :=
  World (<["R_dict.txt" := "mine"]> ∅) [] kiten_left_df.


(** A world with the corpus staged for a right column, and nothing else. *)
Definition staged_world (rows : list value) : world :=
  World (<["R_dict.txt" := corpus_text rows]> ∅) [] [].


(** * Properties *)

(** The tests of [TestPreprocess]. *)
Example test_same_string : preprocess PreProcessor_init "kitten" = "kitten".
Proof. vm_compute. reflexivity. Qed.

Example test_remove_default_chars :
  preprocess PreProcessor_init
    ("!@k#$%^i&*()-t_=+t{}e[]:;'n" +:+ String dquote "/|\?><.,~`")
  = "andkitten".
Proof. vm_compute. reflexivity. Qed.

Example test_change_screened_chars3 :
  preprocess {| screened_chars := "&" |} "ki*tt&en" = "andenki*tt".
Proof. vm_compute. reflexivity. Qed.

Example test_tokenizer :
  preprocess PreProcessor_init "sitting kitten" = "kittensitting".
Proof. vm_compute. reflexivity. Qed.

Example split_runs :
  Py.split "  the best   of times " = ["the"; "best"; "of"; "times"].
Proof. vm_compute. reflexivity. Qed.

Example strip_both : Py.strip "  a b  " = "a b".
Proof. vm_compute. reflexivity. Qed.

Example readlines_universal :
  readlines ("a" +:+ String CR (String LF "b") +:+ String CR "c" +:+ nl +:+ "d")
  = ["a" +:+ nl; "b" +:+ nl; "c" +:+ nl; "d"].
Proof. vm_compute. reflexivity. Qed.

Example edit_distance_siting : RefEngine.edit_distance "siting" "sitting" = 1.
Proof. vm_compute. reflexivity. Qed.

(** [FuzzyTests.test_get_fuzzy_columns]. *)
Example test_get_fuzzy_columns :
  outcome (get_fuzzy_columns (Engine := RefEngine.engine) test_right_df
             [VStr "sCol"] (Some [VStr "RsCol"]) None None 2 (fresh test_left_df))
  = (Ok (), [],
     test_left_df ++
     [(VStr "fuzzy_sCol", VStr <$> ["kitten"; "sitting"; "the best of times";
                               "the worst of times"; "not in there"])]).
Proof. vm_compute. reflexivity. Qed.

(** ** Strings *)

Lemma app_cons c s t : String c s +:+ t = String c (s +:+ t).
Proof. reflexivity. Qed.

Lemma app_empty_l s : "" +:+ s = s.
Proof. reflexivity. Qed.

Lemma app_empty_r s : s +:+ "" = s.
Proof. induction s as [|c s IH]; [done|]. by rewrite app_cons, IH. Qed.

Lemma app_assoc' s t u : (s +:+ t) +:+ u = s +:+ t +:+ u.
Proof. induction s as [|c s IH]; [done|]. by rewrite !app_cons, IH. Qed.

Lemma chars_app s t : Py.chars (s +:+ t) = Py.chars s ++ Py.chars t.
Proof. induction s as [|c s IH]; [done|]. rewrite app_cons. simpl. by rewrite IH. Qed.

Lemma chars_inj s t : Py.chars s = Py.chars t → s = t.
Proof.
  revert t. induction s as [|c s IH]; intros [|d t] H; simplify_eq/=; [done|].
  f_equal. by apply IH.
Qed.

Lemma chars_join tl : Py.chars (Py.join tl) = concat (Py.chars <$> tl).
Proof.
  induction tl as [|w tl IH]; [done|].
  simpl. by rewrite chars_app, IH.
Qed.

(** ** Characters: case and whitespace *)

Lemma lower_char_idemp c : Py.lower_char (Py.lower_char c) = Py.lower_char c.
Proof. by destruct c as [[] [] [] [] [] [] [] []]. Qed.

Lemma lower_char_space c : Py.isspace (Py.lower_char c) = Py.isspace c.
Proof. by destruct c as [[] [] [] [] [] [] [] []]. Qed.

Lemma lower_char_of_space c : Py.isspace c = true → Py.lower_char c = c.
Proof. by destruct c as [[] [] [] [] [] [] [] []]. Qed.

Lemma lower_app s t : Py.lower (s +:+ t) = Py.lower s +:+ Py.lower t.
Proof. induction s as [|c s IH]; [done|]. rewrite app_cons. simpl. by rewrite IH. Qed.

Lemma chars_lower s : Py.chars (Py.lower s) = Py.lower_char <$> Py.chars s.
Proof. induction s as [|c s IH]; [done|]. simpl. by rewrite IH. Qed.

Lemma lower_fixed s :
  Forall (λ c, Py.lower_char c = c) (Py.chars s) → Py.lower s = s.
Proof.
  induction s as [|c s IH]; [done|]. simpl.
  intros [Hc Hs]%Forall_cons. by rewrite Hc, IH.
Qed.

(** ** [replace] and the screening loop *)

Lemma replace_app c r s t :
  Py.replace c r (s +:+ t) = Py.replace c r s +:+ Py.replace c r t.
Proof.
  induction s as [|x s IH]; [done|]. rewrite app_cons. simpl.
  destruct (Ascii.eqb x c); rewrite IH; [by rewrite app_assoc'|done].
Qed.

Lemma replace_absent c r t : c ∉ Py.chars t → Py.replace c r t = t.
Proof.
  induction t as [|x t IH]; [done|]. simpl.
  intros [Hx Ht]%not_elem_of_cons.
  destruct (Ascii.eqb_spec x c) as [->|_]; [done|]. by rewrite IH.
Qed.

(** After [t.replace(c, r)], a character is one of [r] or one of [t] other
    than [c]. *)
Lemma elem_of_chars_replace x c r t :
  x ∈ Py.chars (Py.replace c r t) →
  x ∈ Py.chars r ∨ (x ≠ c ∧ x ∈ Py.chars t).
Proof.
  induction t as [|y t IH]; simpl; [by intros ?%elem_of_nil|].
  destruct (Ascii.eqb_spec y c) as [->|Hne].
  - rewrite chars_app, elem_of_app. intros [?|H]; [by left|].
    destruct (IH H) as [?|[? ?]]; [by left|right; split; [done|by right]].
  - simpl. rewrite elem_of_cons. intros [->|H].
    + right. split; [done|by left].
    + destruct (IH H) as [?|[? ?]]; [by left|right; split; [done|by right]].
Qed.

Lemma screen_step_app t u c :
  screen_step (t +:+ u) c = screen_step t c +:+ screen_step u c.
Proof. unfold screen_step. destruct (Ascii.eqb c "&"); apply replace_app. Qed.

Lemma screen_app cs t u : screen cs (t +:+ u) = screen cs t +:+ screen cs u.
Proof.
  revert t u. induction cs as [|c cs IH]; intros t u; [done|].
  unfold screen in *. simpl. by rewrite screen_step_app, IH.
Qed.

Lemma screen_empty cs : screen cs "" = "".
Proof.
  induction cs as [|c cs IH]; [done|]. unfold screen in *. simpl.
  assert (screen_step "" c = "") as ->; [|done].
  unfold screen_step. by destruct (Ascii.eqb c "&").
Qed.

Lemma elem_of_chars_screen_step x c t :
  x ∈ Py.chars (screen_step t c) →
  x ∈ Py.chars " and " ∨ (x ≠ c ∧ x ∈ Py.chars t).
Proof.
  unfold screen_step. destruct (Ascii.eqb c "&"); intros H.
  - by apply elem_of_chars_replace.
  - destruct (elem_of_chars_replace _ _ _ _ H) as [?%elem_of_nil|?]; [done|by right].
Qed.

(** Screening never creates a character, but those of the word [and] and the
    space around it. *)
Lemma elem_of_chars_screen x cs t :
  x ∈ Py.chars (screen cs t) → x ∈ Py.chars " and " ∨ x ∈ Py.chars t.
Proof.
  revert t. induction cs as [|c cs IH]; intros t H; [by right|].
  unfold screen in *. simpl in H. destruct (IH _ H) as [?|H']; [by left|].
  destruct (elem_of_chars_screen_step _ _ _ H') as [?|[_ ?]]; auto.
Qed.

(** Once the loop is through, no screened character is left, as long as the
    replacement text holds none. *)
Lemma screen_clean cs t x :
  Forall (λ c, c ∉ Py.chars " and ") cs →
  x ∈ cs → x ∉ Py.chars (screen cs t).
Proof.
  revert t. induction cs as [|c cs IH]; intros t Hcs Hx; [by apply elem_of_nil in Hx|].
  apply Forall_cons in Hcs as [Hc Hcs].
  destruct (decide (x ∈ cs)) as [Hin|Hnin]; [by apply IH|].
  apply elem_of_cons in Hx as [->|?]; [|done].
  unfold screen. simpl. intros H.
  destruct (elem_of_chars_screen _ _ _ H) as [?|H']; [done|].
  destruct (elem_of_chars_screen_step _ _ _ H') as [?|[? _]]; done.
Qed.

Lemma screen_absent cs t :
  Forall (λ c, c ∉ Py.chars t) cs → screen cs t = t.
Proof.
  induction cs as [|c cs IH]; [done|].
  intros [Hc Hcs]%Forall_cons. unfold screen in *. simpl.
  assert (screen_step t c = t) as ->; [|by apply IH].
  unfold screen_step. destruct (Ascii.eqb c "&"); by apply replace_absent.
Qed.

Lemma screen_space cs c :
  Forall (λ x, Py.isspace x = false) cs → Py.isspace c = true →
  screen cs (String c "") = String c "".
Proof.
  intros Hcs Hc. apply screen_absent. eapply Forall_impl; [exact Hcs|].
  simpl. intros x Hx [->|?%elem_of_nil]%elem_of_cons; [congruence|done].
Qed.

(** ** [split], [sort], [join] *)

Lemma feed_app u v p : Py.feed (u +:+ v) p = Py.feed u (Py.feed v p).
Proof. induction u as [|c u IH]; [done|]. rewrite app_cons. simpl. by rewrite IH. Qed.

Lemma push_app w a b : Py.push w (a ++ b) = Py.push w a ++ b.
Proof. by destruct w. Qed.

(** The words closed before a text is fed stay as they are, at the end. *)
Lemma feed_tail u T :
  Py.feed u ("", T) = ((Py.feed u ("", [])).1, (Py.feed u ("", [])).2 ++ T).
Proof.
  induction u as [|c u IH]; [done|]. simpl. rewrite IH.
  unfold Py.split_step. destruct (Py.isspace c); simpl; [|done].
  by rewrite push_app.
Qed.

Lemma feed_wsfree u p :
  Forall (λ c, Py.isspace c = false) (Py.chars u) →
  Py.feed u p = (u +:+ p.1, p.2).
Proof.
  induction u as [|c u IH]; simpl; [by destruct p|].
  intros [Hc Hu]%Forall_cons. rewrite (IH Hu).
  unfold Py.split_step. by rewrite Hc.
Qed.

Lemma split_eq s :
  Py.split s = Py.push (Py.feed s ("", [])).1 (Py.feed s ("", [])).2.
Proof. reflexivity. Qed.

Lemma split_empty : Py.split "" = [].
Proof. reflexivity. Qed.

(** A text without whitespace is its own single word. *)
Lemma split_wsfree s :
  s ≠ "" → Forall (λ c, Py.isspace c = false) (Py.chars s) → Py.split s = [s].
Proof.
  intros Hs Hws. unfold Py.split. rewrite (feed_wsfree _ _ Hws). simpl.
  rewrite app_empty_r. by destruct s.
Qed.

(** Every word of [split] is non-empty and made of non-whitespace characters
    of the text. *)
Lemma feed_words (Q : ascii → Prop) u p :
  Forall (λ c, Py.isspace c = false → Q c) (Py.chars u) →
  Forall Q (Py.chars p.1) →
  Forall (λ w, w ≠ "" ∧ Forall Q (Py.chars w)) p.2 →
  Forall Q (Py.chars (Py.feed u p).1) ∧
  Forall (λ w, w ≠ "" ∧ Forall Q (Py.chars w)) (Py.feed u p).2.
Proof.
  intros Hu H1 H2. induction u as [|c u IH]; simpl; [done|].
  apply Forall_cons in Hu as [Hc Hu]. destruct (IH Hu) as [IH1 IH2].
  unfold Py.split_step. destruct (Py.isspace c) eqn:Ec; simpl.
  - split; [constructor|].
    destruct (Py.feed u p).1 eqn:E; simpl; [done|].
    constructor; [|done]. split; [done|]. done.
  - split; [|done]. constructor; auto.
Qed.

Lemma split_words (Q : ascii → Prop) s :
  Forall (λ c, Py.isspace c = false → Q c) (Py.chars s) →
  Forall (λ w, w ≠ "" ∧ Forall Q (Py.chars w)) (Py.split s).
Proof.
  intros Hs. unfold Py.split.
  destruct (feed_words Q s ("", []) Hs) as [H1 H2]; [constructor..|].
  destruct (Py.feed s ("", [])).1 eqn:E; simpl; [done|].
  constructor; [|done]. by split.
Qed.

Lemma sort_perm l1 l2 : l1 ≡ₚ l2 → Py.sort l1 = Py.sort l2.
Proof.
  intros Hp. unfold Py.sort.
  apply (Sorted_unique String.le); [apply (Sorted_merge_sort _)..|].
  by rewrite !merge_sort_Permutation.
Qed.

Lemma sort_Permutation l : Py.sort l ≡ₚ l.
Proof. apply merge_sort_Permutation. Qed.

Lemma sort_nil : Py.sort [] = [].
Proof. reflexivity. Qed.

Lemma sort_singleton w : Py.sort [w] = [w].
Proof. reflexivity. Qed.

(** *** [split] after a letter-wise rewriting of the text *)

Section SplitHom.
Variable f : string → string.
Hypothesis f_empty : f "" = "".
Hypothesis f_app : ∀ a b, f (a +:+ b) = f a +:+ f b.
Hypothesis f_space : ∀ c, Py.isspace c = true → f (String c "") = String c "".

Lemma f_cons c s : f (String c s) = f (String c "") +:+ f s.
Proof. by rewrite <-f_app. Qed.

Lemma bind_push w ws :
  Py.push w ws ≫= (λ x, Py.split (f x)) = Py.split (f w) ++ (ws ≫= λ x, Py.split (f x)).
Proof. destruct w; [by rewrite f_empty|done]. Qed.

Lemma feed_hom s :
  Py.feed (f s) ("", []) =
  Py.feed (f (Py.feed s ("", [])).1)
    ("", (Py.feed s ("", [])).2 ≫= λ x, Py.split (f x)).
Proof.
  induction s as [|c s IH]; simpl; [by rewrite f_empty|].
  rewrite f_cons, feed_app, IH.
  unfold Py.split_step. destruct (Py.isspace c) eqn:Ec; simpl.
  - rewrite (f_space _ Ec), f_empty. simpl. unfold Py.split_step. rewrite Ec.
    f_equal. rewrite bind_push, feed_tail. simpl. by rewrite push_app.
  - by rewrite (f_cons c (Py.feed s ("", [])).1), feed_app.
Qed.

(** Rewriting the text and then splitting it is splitting it and then
    rewriting and splitting each word. *)
Lemma split_hom s : Py.split (f s) = Py.split s ≫= λ x, Py.split (f x).
Proof.
  rewrite (split_eq (f s)), (split_eq s), feed_hom, feed_tail, bind_push.
  simpl. by rewrite push_app.
Qed.

End SplitHom.

(** ** The normalizer *)

Lemma preprocess_eq self s :
  preprocess self s = Py.join (Py.sort (Py.split (screened self s))).
Proof. reflexivity. Qed.

(** A property of the non-whitespace characters of the screened text holds
    of every character of the canonical form. *)
Lemma preprocess_chars (Q : ascii → Prop) self s :
  Forall (λ c, Py.isspace c = false → Q c) (Py.chars (screened self s)) →
  Forall Q (Py.chars (preprocess self s)).
Proof.
  intros H. rewrite preprocess_eq, chars_join.
  apply Forall_concat, Forall_fmap.
  rewrite sort_Permutation.
  eapply Forall_impl; [apply (split_words Q), H|]. by intros w [_ ?].
Qed.

(** A text that the three steps leave alone is its own canonical form. *)
Lemma preprocess_fixed self r :
  Forall (λ c, Py.lower_char c = c) (Py.chars r) →
  Forall (λ c, c ∉ Py.chars r) (Py.chars (screened_chars self)) →
  Forall (λ c, Py.isspace c = false) (Py.chars r) →
  preprocess self r = r.
Proof.
  intros Hlow Hscr Hws. rewrite preprocess_eq. unfold screened.
  rewrite (lower_fixed _ Hlow), (screen_absent _ _ Hscr).
  destruct (decide (r = "")) as [->|Hne]; [done|].
  rewrite (split_wsfree _ Hne Hws), sort_singleton. simpl.
  apply app_empty_r.
Qed.

Lemma preprocess_idempotent_when self s :
  Forall (λ c, c ∉ Py.chars " and ") (Py.chars (screened_chars self)) →
  preprocess self (preprocess self s) = preprocess self s.
Proof.
  intros Hcs.
  assert (Forall (λ c, Py.isspace c = false ∧ Py.lower_char c = c
                       ∧ c ∉ Py.chars (screened_chars self))
            (Py.chars (preprocess self s))) as H.
  { apply preprocess_chars, Forall_forall. intros c Hc Hws.
    split; [done|]. split.
    - destruct (elem_of_chars_screen _ _ _ Hc) as [Hand|Hlow].
      + revert Hand. simpl. rewrite !elem_of_cons, elem_of_nil.
        intros [->|[->|[->|[->|[->|[]]]]]]; reflexivity.
      + rewrite chars_lower in Hlow.
        apply list_elem_of_fmap in Hlow as (x & -> & _). apply lower_char_idemp.
    - intros Hin. by apply (screen_clean _ (Py.lower s) c Hcs Hin). }
  apply preprocess_fixed.
  - eapply Forall_impl; [exact H|]. by intros c (_ & ? & _).
  - apply Forall_forall. intros c Hc Hin.
    by destruct (proj1 (Forall_forall _ _) H c Hin) as (_ & _ & ?).
  - eapply Forall_impl; [exact H|]. by intros c (? & _ & _).
Qed.

Lemma default_screened_no_and :
  Forall (λ c, c ∉ Py.chars " and ") (Py.chars (screened_chars PreProcessor_init)).
Proof. apply (bool_decide_unpack _). vm_compute. exact I. Qed.

Lemma default_screened_no_space :
  Forall (λ c, Py.isspace c = false) (Py.chars (screened_chars PreProcessor_init)).
Proof. repeat constructor. Qed.

(** C4. The normalizer is idempotent: the canonical form of a canonical form
    is that canonical form again. *)
Theorem preprocess_idempotent (s : string) :
  preprocess PreProcessor_init (preprocess PreProcessor_init s)
  = preprocess PreProcessor_init s.
Proof. apply preprocess_idempotent_when, default_screened_no_and. Qed.

(** C6. The canonical form holds no whitespace character, whatever the text
    and whatever characters are screened. *)
Theorem preprocess_no_whitespace (self : PreProcessor) (s : string) :
  Forall (λ c, Py.isspace c = false) (Py.chars (preprocess self s)).
Proof. apply preprocess_chars, Forall_forall. auto. Qed.

Lemma screened_split self s :
  Forall (λ c, Py.isspace c = false) (Py.chars (screened_chars self)) →
  Py.split (screened self s) = Py.split s ≫= λ w, Py.split (screened self w).
Proof.
  intros Hcs. apply (split_hom (screened self)); unfold screened.
  - apply screen_empty.
  - intros a b. by rewrite lower_app, screen_app.
  - intros c Hc. simpl. rewrite (lower_char_of_space _ Hc).
    by apply screen_space.
Qed.

Lemma preprocess_word_order_when self s1 s2 :
  Forall (λ c, Py.isspace c = false) (Py.chars (screened_chars self)) →
  Py.split s1 ≡ₚ Py.split s2 → preprocess self s1 = preprocess self s2.
Proof.
  intros Hcs Hp. rewrite !preprocess_eq. f_equal. apply sort_perm.
  rewrite !(screened_split _ _ Hcs). by rewrite Hp.
Qed.

(** C7. Two texts with the same words, in whatever order and with whatever
    whitespace between them, have the same canonical form. *)
Theorem preprocess_word_order (s1 s2 : string) :
  Py.split s1 ≡ₚ Py.split s2 →
  preprocess PreProcessor_init s1 = preprocess PreProcessor_init s2.
Proof. apply preprocess_word_order_when, default_screened_no_space. Qed.

Lemma preprocess_word_order_witness :
  Py.split "the best of times" ≡ₚ Py.split "of times the best"
  ∧ preprocess PreProcessor_init "the best of times"
    = preprocess PreProcessor_init "of times the best".
Proof.
  assert (Py.split "the best of times" ≡ₚ Py.split "of times the best") as H.
  { apply (bool_decide_unpack _). vm_compute. exact I. }
  split; [exact H|]. apply (preprocess_word_order _ _ H).
Defined.

(** ** Running the monad *)

Lemma bind_ok {A B} (m : M A) (k : A → M B) w a w' :
  m w = (Ok a, w') → bind m k w = k a w'.
Proof. unfold bind. by intros ->. Qed.

Lemma bind_raise {A B} (m : M A) (k : A → M B) w e w' :
  m w = (Raise e, w') → bind m k w = (Raise e, w').
Proof. unfold bind. by intros ->. Qed.

Lemma bind_logger {B} lvl m a (k : unit → M B) w :
  bind (logger lvl m a) k w = k () (add_log w [LogRecord lvl m a]).
Proof. reflexivity. Qed.

Lemma bind_ret {A B} (a : A) (k : A → M B) w : bind (ret a) k w = k a w.
Proof. reflexivity. Qed.

Lemma bind_path_exists {B} path (k : bool → M B) w :
  bind (path_exists path) k w = k (bool_decide (is_Some (files w !! path))) w.
Proof. reflexivity. Qed.

Lemma bind_open_r {B} path (k : string → M B) w s :
  files w !! path = Some s → bind (open_r path) k w = k s w.
Proof. intros H. unfold bind, open_r. by rewrite H. Qed.

Lemma bind_file_write {B} path str (k : unit → M B) w :
  bind (file_write path str) k w
  = k () (World (<[path := default "" (files w !! path) +:+ str]> (files w))
            (log w) (left_dataframe w)).
Proof. reflexivity. Qed.

Lemma bind_open_w {B} path (k : unit → M B) w :
  bind (open_w path) k w
  = k () (World (<[path := ""]> (files w)) (log w) (left_dataframe w)).
Proof. reflexivity. Qed.

Lemma files_add_log w recs : files (add_log w recs) = files w.
Proof. reflexivity. Qed.

Lemma left_add_log w recs : left_dataframe (add_log w recs) = left_dataframe w.
Proof. reflexivity. Qed.

Lemma bind_assoc {A B C} (m : M A) (f : A → M B) (g : B → M C) w :
  bind (bind m f) g w = bind m (λ x, bind (f x) g) w.
Proof. unfold bind. by destruct (m w) as [[a|e] w']. Qed.

(** If [series.apply(f)] returns, each cell was mapped by some call of [f]. *)
Lemma series_apply_ok {A B} (f : A → M B) cells w ys w' :
  series_apply f cells w = (Ok ys, w') →
  length ys = length cells ∧
  ∀ i x, cells !! i = Some x → ∃ y wi wi', f x wi = (Ok y, wi') ∧ ys !! i = Some y.
Proof.
  revert w ys. induction cells as [|c cells IH]; intros w ys; simpl.
  - intros [= <- <-]. split; [done|]. intros i x Hx. by rewrite lookup_nil in Hx.
  - unfold bind at 1. destruct (f c w) as [[y|e] w1] eqn:Ef; [|done].
    unfold bind at 1. destruct (series_apply f cells w1) as [[ys'|e] w2] eqn:Es; [|done].
    intros [= <- <-]. destruct (IH _ _ Es) as [Hlen Hall]. split; [simpl; by f_equal|].
    intros [|i] x Hx; simplify_eq/=; [by exists y, w, w1|]. by apply Hall.
Qed.

(** ** The query *)

Section Query.
Context `{Engine : SymSpellEngine}.
Implicit Types (self : Fuzzy) (sym : SymSpell) (index : gmap string string).

Lemma query_accepts self index sym q w top rest original :
  index_dictionary self = Some index → sym_spell self = Some sym →
  suggestions_top sym (preprocess (preprocesser self) q) = top :: rest →
  (distance top ≤ max_edit_distance_dictionary self)%Z →
  index !! term top = Some original →
  (query self (VStr q) w).1 = Ok (original, true).
Proof.
  intros Hi Hs Hsug Hd Hres. unfold query, lookup. rewrite Hi, Hs, Hsug.
  rewrite bind_logger.
  destruct (Z.ltb_spec (max_edit_distance_dictionary self) (distance top)); [lia|].
  by rewrite Hres.
Qed.

Lemma query_rejects self index sym q w :
  index_dictionary self = Some index → sym_spell self = Some sym →
  misses self sym q →
  (query self (VStr q) w).1 = Ok (q, false).
Proof.
  intros Hi Hs Hm. unfold query, lookup, misses in *. rewrite Hi, Hs.
  rewrite bind_logger.
  destruct (suggestions_top sym _) as [|top rest]; cbn [term distance].
  - destruct (Z.ltb_spec (max_edit_distance_dictionary self)
                (max_edit_distance_dictionary self + 1)); [done|lia].
  - destruct (Z.ltb_spec (max_edit_distance_dictionary self) (distance top)); [done|lia].
Qed.

(** C1. The threshold is inclusive. With the index and the engine in place,
    a top suggestion at a distance equal to the maximum is accepted and
    answered by the original the index holds for its term, with the flag
    set; a top suggestion beyond the maximum is rejected, and so is a search
    that finds nothing (the engine then answers the phrase itself, one step
    beyond the maximum): both give back the query, with the flag cleared. *)
Theorem query_threshold_inclusive self index sym (q : string) (w : world) :
  index_dictionary self = Some index → sym_spell self = Some sym →
  (∀ top rest original,
     suggestions_top sym (preprocess (preprocesser self) q) = top :: rest →
     distance top = max_edit_distance_dictionary self →
     index !! term top = Some original →
     (query self (VStr q) w).1 = Ok (original, true))
  ∧ (∀ top rest,
       suggestions_top sym (preprocess (preprocesser self) q) = top :: rest →
       (max_edit_distance_dictionary self < distance top)%Z →
       (query self (VStr q) w).1 = Ok (q, false))
  ∧ (suggestions_top sym (preprocess (preprocesser self) q) = [] →
     (query self (VStr q) w).1 = Ok (q, false)).
Proof.
  intros Hi Hs. split; [|split].
  - intros top rest original Hsug Hd Hres.
    eapply query_accepts; eauto. lia.
  - intros top rest Hsug Hd. eapply query_rejects; eauto.
    unfold misses. by rewrite Hsug.
  - intros Hsug. eapply query_rejects; eauto. unfold misses. by rewrite Hsug.
Qed.

Lemma apply_query_miss self index sym q null_return w :
  index_dictionary self = Some index → sym_spell self = Some sym →
  misses self sym q →
  (apply_query self null_return (VStr q) w).1 = Ok (default q null_return).
Proof.
  intros Hi Hs Hm. unfold apply_query.
  pose proof (query_rejects self index sym q w Hi Hs Hm) as Hq.
  destruct (query self (VStr q) w) as [r w'] eqn:E. simpl in Hq. subst r.
  rewrite (bind_ok _ _ _ _ _ E). by destruct null_return.
Qed.

End Query.

Lemma query_threshold_inclusive_witness :
  (query demo_fuzzy (VStr "siing") (fresh [])).1 = Ok ("sitting", true)
  ∧ (query demo_fuzzy (VStr "not in there") (fresh [])).1
    = Ok ("not in there", false).
Proof.
  split.
  - destruct (query_threshold_inclusive (Engine := RefEngine.engine)
                demo_fuzzy demo_index demo_sym "siing" (fresh [])
                eq_refl eq_refl) as (Hacc & _ & _).
    apply (Hacc (Suggest "sitting" 2 1) [] "sitting"); reflexivity.
  - destruct (query_threshold_inclusive (Engine := RefEngine.engine)
                demo_fuzzy demo_index demo_sym "not in there" (fresh [])
                eq_refl eq_refl) as (_ & _ & Hnone).
    apply Hnone. reflexivity.
Defined.

(** ** The reverse index *)

Lemma add_log_nil w : add_log w [] = w.
Proof. destruct w. unfold add_log. simpl. by rewrite app_nil_r. Qed.

Lemma add_log_add_log w a b : add_log (add_log w a) b = add_log w (a ++ b).
Proof. unfold add_log. simpl. by rewrite app_assoc. Qed.

Section Index.
Context `{Engine : SymSpellEngine}.
Variable pp : PreProcessor.

Lemma index_line_eq idx l :
  index_line pp idx l =
  match idx !! index_key pp l with
  | Some c =>
      if bool_decide (c ≠ Py.strip l) then
        logger WARNING conflict_msg
          [Py.strip l; c; index_key pp l; index_key pp l; c] ;;;
        ret idx
      else ret (<[index_key pp l := Py.strip l]> idx)
  | None => ret (<[index_key pp l := Py.strip l]> idx)
  end.
Proof. reflexivity. Qed.

(** The loop of [create_index], from any dictionary [idx]: it never raises;
    a key already there keeps its original, a new key gets the original of
    the first line that has it; and one conflict warning is logged for each
    line whose original is not the one kept for its key. *)
Lemma index_loop lines : ∀ idx,
  ∃ idx' notices,
    (∀ w, for_fold lines idx (index_line pp) w = (Ok idx', add_log w notices))
    ∧ Forall (λ r, msg r = conflict_msg) notices
    ∧ (∀ k, idx' !! k =
            match idx !! k with
            | Some v => Some v
            | None => Py.strip <$> head (filter (λ l, index_key pp l = k) lines)
            end)
    ∧ length notices
      = length (filter (λ l, idx' !! index_key pp l ≠ Some (Py.strip l)) lines).
Proof.
  induction lines as [|l ls IH]; intros idx.
  - exists idx, []. split; [intros w; by rewrite add_log_nil|].
    repeat split; [constructor|]. intros k. by destruct (idx !! k).
  - set (o := Py.strip l). set (k0 := index_key pp l).
    assert (∀ idx2,
      idx2 !! k0 = Some o → (∀ k, k ≠ k0 → idx2 !! k = idx !! k) →
      (idx !! k0 = None ∨ idx !! k0 = Some o) →
      ∃ idx' notices,
        (∀ w, for_fold ls idx2 (index_line pp) w = (Ok idx', add_log w notices))
        ∧ Forall (λ r, msg r = conflict_msg) notices
        ∧ (∀ k, idx' !! k =
                match idx !! k with
                | Some v => Some v
                | None => Py.strip <$>
                            head (filter (λ l, index_key pp l = k) (l :: ls))
                end)
        ∧ length notices
          = length (filter (λ l, idx' !! index_key pp l ≠ Some (Py.strip l))
                      (l :: ls))) as Hins.
    { intros idx2 H0 Hother Hold.
      destruct (IH idx2) as (idx' & notices & Hrun & Hall & Hlk & Hlen).
      exists idx', notices. split; [done|]. split; [done|].
      assert (idx' !! k0 = Some o) as Hk0 by (by rewrite Hlk, H0).
      split.
      - intros k. rewrite Hlk. rewrite filter_cons.
        destruct (decide (k = k0)) as [->|Hne].
        + rewrite H0. rewrite decide_True by done.
          by destruct Hold as [-> | ->].
        + rewrite (Hother _ Hne). rewrite decide_False by done. done.
      - rewrite filter_cons. rewrite decide_False; [done|]. intros Hn. by apply Hn. }
    destruct (idx !! k0) as [c|] eqn:Ec.
    + destruct (decide (c = o)) as [->|Hne].
      * destruct (Hins (<[k0:=o]> idx)) as (idx' & notices & Hrun & ?);
          [apply lookup_insert_eq|intros k Hk; by apply lookup_insert_ne|by right|].
        exists idx', notices. split; [|done]. intros w. simpl.
        rewrite index_line_eq. fold o k0. rewrite Ec.
        rewrite bool_decide_eq_false_2 by (intros Hn; by apply Hn).
        by rewrite bind_ret.
      * destruct (IH idx) as (idx' & notices & Hrun & Hall & Hlk & Hlen).
        exists idx', (LogRecord WARNING conflict_msg [o; c; k0; k0; c] :: notices).
        split.
        { intros w. simpl. rewrite index_line_eq. fold o k0. rewrite Ec.
          rewrite bool_decide_eq_true_2 by done.
          by rewrite bind_assoc, bind_logger, bind_ret, Hrun, add_log_add_log. }
        split; [by constructor|].
        assert (idx' !! k0 = Some c) as Hk0 by (by rewrite Hlk, Ec).
        split.
        -- intros k. rewrite Hlk. rewrite filter_cons.
           destruct (decide (k = k0)) as [->|Hk]; [by rewrite Ec|].
           by rewrite decide_False.
        -- rewrite filter_cons. rewrite decide_True; [simpl; by f_equal|].
           fold k0 o. rewrite Hk0. congruence.
    + destruct (Hins (<[k0:=o]> idx)) as (idx' & notices & Hrun & ?);
        [apply lookup_insert_eq|intros k Hk; by apply lookup_insert_ne|by left|].
      exists idx', notices. split; [|done]. intros w. simpl.
      rewrite index_line_eq. fold o k0. rewrite Ec. by rewrite bind_ret.
Qed.

End Index.

Lemma filter_none {A} (P : A → Prop) `{∀ x, Decision (P x)} (l : list A) :
  Forall (λ x, ¬ P x) l → filter P l = [].
Proof.
  induction 1 as [|x l Hx _ IH]; [done|].
  by rewrite filter_cons, decide_False.
Qed.

Lemma filter_all {A} (P : A → Prop) `{∀ x, Decision (P x)} (l : list A) :
  Forall P l → filter P l = l.
Proof.
  induction 1 as [|x l Hx _ IH]; [done|].
  by rewrite filter_cons, decide_True, IH.
Qed.

Section CreateIndex.
Context `{Engine : SymSpellEngine}.

Lemma check_corpus_found (self : Fuzzy) w c :
  corpus self = Some c → is_Some (files w !! c) →
  check_corpus self w
  = (Ok (), add_log w [LogRecord DEBUG "Checking corpus file %s" [c];
                       LogRecord DEBUG "Corpus file found" []]).
Proof.
  intros Hc Hf. unfold check_corpus. rewrite Hc, bind_logger.
  unfold bind, path_exists. simpl. rewrite bool_decide_eq_true_2 by done.
  simpl. unfold logger. by rewrite add_log_add_log.
Qed.

Lemma conflict_notices_add w pre notices post :
  Forall (λ r, msg r ≠ conflict_msg) pre →
  Forall (λ r, msg r = conflict_msg) notices →
  Forall (λ r, msg r ≠ conflict_msg) post →
  conflict_notices w (add_log w (pre ++ notices ++ post)) = notices.
Proof.
  intros Hpre Hn Hpost. unfold conflict_notices, add_log. simpl.
  rewrite drop_app_length, !filter_app.
  rewrite (filter_none _ _ Hpre), (filter_none _ _ Hpost), (filter_all _ _ Hn).
  by rewrite app_nil_r.
Qed.

(** [create_index] on a processed corpus whose files are there: it returns,
    with the dictionary of the loop from the empty one, and between the two
    worlds the conflict warnings are those of the loop. *)
Lemma create_index_run (self : Fuzzy) w c u content :
  _preprocess_flag self = true →
  corpus self = Some c → is_Some (files w !! c) →
  unprocessed_corpus self = Some u → files w !! u = Some content →
  ∃ self' w' index notices,
    create_index self w = (Ok self', w')
    ∧ index_dictionary self' = Some index
    ∧ sym_spell self' = sym_spell self
    ∧ preprocesser self' = preprocesser self
    ∧ max_edit_distance_dictionary self' = max_edit_distance_dictionary self
    ∧ files w' = files w
    ∧ (∀ w0, for_fold (readlines content) ∅ (index_line (preprocesser self)) w0
             = (Ok index, add_log w0 notices))
    ∧ conflict_notices w w' = notices.
Proof.
  intros Hflag Hc Hcf Hu Huf.
  destruct (index_loop (preprocesser self) (readlines content) ∅)
    as (index & notices & Hrun & Hall & _ & _).
  unfold create_index.
  rewrite bind_logger.
  erewrite bind_ok by (by apply (check_corpus_found _ _ c)).
  rewrite add_log_add_log.
  set (warn := if bool_decide (is_Some (index_dictionary self))
               then [LogRecord WARNING
                       "index_dictionary already created. Overwritting." []]
               else []).
  match goal with
  | |- context [bind ?m _ (add_log w ?pre)] =>
      assert (m (add_log w pre) = (Ok (), add_log w (pre ++ warn))) as Hw
  end.
  { subst warn. destruct (bool_decide (is_Some (index_dictionary self))).
    - unfold logger. by rewrite add_log_add_log.
    - unfold ret. by rewrite app_nil_r. }
  rewrite (bind_ok _ _ _ _ _ Hw). rewrite Hflag, Hu.
  change (negb true) with false. cbv iota.
  rewrite bind_path_exists, files_add_log, Huf.
  rewrite bool_decide_eq_true_2 by done.
  change (negb true) with false. cbv iota.
  rewrite (bind_open_r _ _ _ content) by done.
  rewrite (bind_ok _ _ _ _ _ (Hrun _)), add_log_add_log.
  rewrite bind_logger, add_log_add_log. unfold ret.
  eexists _, _, index, notices. split; [reflexivity|].
  repeat split; [done|].
  rewrite <-app_assoc. apply conflict_notices_add; [|done|].
  - subst warn. destruct (bool_decide _); repeat constructor; discriminate.
  - repeat constructor; discriminate.
Qed.

End CreateIndex.

Section FirstSeen.
Context `{Engine : SymSpellEngine}.

(** C3. [create_index], on a processed corpus: the dictionary maps every key
    to the original of the first line that has this key (an original is the
    line, stripped); a conflict warning is logged for exactly the lines whose
    original is not the one kept. So for two lines, in this order, with one
    key: the key resolves to the first original, and there is one warning
    when the two originals differ and none when they are the same. *)
Theorem create_index_first_seen (self : Fuzzy) (w : world)
    (c u content : string) :
  _preprocess_flag self = true →
  corpus self = Some c → is_Some (files w !! c) →
  unprocessed_corpus self = Some u → files w !! u = Some content →
  ∃ self' w' index,
    create_index self w = (Ok self', w')
    ∧ index_dictionary self' = Some index
    ∧ (∀ k, index !! k =
            Py.strip <$>
              head (filter (λ l, index_key (preprocesser self) l = k)
                      (readlines content)))
    ∧ length (conflict_notices w w')
      = length (filter (λ l, index !! index_key (preprocesser self) l
                             ≠ Some (Py.strip l)) (readlines content))
    ∧ (∀ la lb,
         readlines content = [la; lb] →
         index_key (preprocesser self) la = index_key (preprocesser self) lb →
         index !! index_key (preprocesser self) la = Some (Py.strip la)
         ∧ length (conflict_notices w w')
           = if decide (Py.strip la = Py.strip lb) then 0 else 1).
Proof.
  intros Hflag Hc Hcf Hu Huf.
  destruct (create_index_run self w c u content Hflag Hc Hcf Hu Huf)
    as (self' & w' & index & notices & Hrun & Hidx & _ & _ & _ & _ & Hloop & Hn).
  destruct (index_loop (preprocesser self) (readlines content) ∅)
    as (index0 & notices0 & Hrun0 & _ & Hlk & Hlen).
  pose proof (Hloop w) as H1. rewrite (Hrun0 w) in H1.
  injection H1 as -> Hlog. apply app_inv_head in Hlog as ->.
  assert (∀ k, index !! k =
            Py.strip <$> head (filter (λ l, index_key (preprocesser self) l = k)
                                 (readlines content))) as Hfirst.
  { intros k. by rewrite Hlk, lookup_empty. }
  exists self', w', index. rewrite Hn. do 4 (split; [done|]).
  intros la lb Hlines Hkey. rewrite Hlen, Hfirst, Hlines.
  assert (index !! index_key (preprocesser self) la = Some (Py.strip la)) as Hla.
  { rewrite Hfirst, Hlines, filter_cons, decide_True by done. done. }
  split; [by rewrite filter_cons, decide_True|].
  rewrite filter_cons, decide_False by (intros Hx; by apply Hx).
  rewrite filter_cons, <-Hkey, Hla.
  destruct (decide (Py.strip la = Py.strip lb)) as [Heq|Hne].
  - rewrite decide_False; [done|]. intros Hx. apply Hx. by rewrite Heq.
  - rewrite decide_True; [done|]. congruence.
Qed.

End FirstSeen.

Lemma create_index_first_seen_witness :
  ∃ self' w' index,
    create_index twin_fuzzy twin_world = (Ok self', w')
    ∧ index_dictionary self' = Some index
    ∧ index !! "bestthe" = Some "The Best"
    ∧ length (conflict_notices twin_world w') = 1.
Proof.
  destruct (create_index_first_seen (Engine := RefEngine.engine)
              twin_fuzzy twin_world "preprocessed_twin.txt" "twin.txt"
              twin_corpus eq_refl eq_refl (mk_is_Some _ _ eq_refl)
              eq_refl eq_refl)
    as (self' & w' & index & Hrun & Hidx & _ & _ & Htwo).
  exists self', w', index. split; [exact Hrun|]. split; [exact Hidx|].
  exact (Htwo ("The Best" +:+ nl) ("best, the" +:+ nl) eq_refl eq_refl).
Defined.

(** Originals that differ by the blanks around them. With [" The Best "]
    first and ["best, the"] second, the key they share resolves to
    ["The Best"], which is not the first original; with ["The Best"] first
    and [" The Best "] second, two originals that differ and share a key, no
    conflict is logged. *)
Lemma first_seen_is_stripped :
  let A := " The Best " in
  let B := "best, the" in
  let A' := "The Best" in
  let r := Fuzzy_init (Engine := RefEngine.engine) (Some "R_dict.txt") None 2 7
             (staged_world [VStr A; VStr B]) in
  let r' := Fuzzy_init (Engine := RefEngine.engine) (Some "R_dict.txt") None 2 7
              (staged_world [VStr A'; VStr A]) in
  A ≠ B ∧ A' ≠ A
  ∧ preprocess PreProcessor_init A = preprocess PreProcessor_init B
  ∧ preprocess PreProcessor_init A' = preprocess PreProcessor_init A
  ∧ match r.1 with
    | Ok self =>
        index_dictionary self ≫= (λ index, index !! preprocess PreProcessor_init A)
    | Raise _ => None
    end = Some "The Best"
  ∧ length (conflict_notices (staged_world [VStr A; VStr B]) r.2) = 1
  ∧ match r'.1 with
    | Ok self =>
        index_dictionary self ≫= (λ index, index !! preprocess PreProcessor_init A')
    | Raise _ => None
    end = Some "The Best"
  ∧ conflict_notices (staged_world [VStr A'; VStr A]) r'.2 = [].
Proof.
  split; [discriminate|]. split; [discriminate|].
  vm_compute. repeat split.
Qed.

(** ** What leaves the left table alone *)

Lemma bind_inv {A B} (m : M A) (k : A → M B) w r w' :
  bind m k w = (r, w') →
  (∃ e, m w = (Raise e, w') ∧ r = Raise e)
  ∨ (∃ a w1, m w = (Ok a, w1) ∧ k a w1 = (r, w')).
Proof.
  unfold bind. destruct (m w) as [[a|e] w1]; [by right; exists a, w1|].
  intros [= <- <-]. left. by exists e.
Qed.

Lemma bind_ext {A B} (m : M A) (k k' : A → M B) w :
  (∀ a w1, k a w1 = k' a w1) → bind m k w = bind m k' w.
Proof. intros H. unfold bind. by destruct (m w) as [[a|e] w1]. Qed.

Lemma keeps_ret {A} (a : A) : keeps_left (ret a).
Proof. by intros w. Qed.

Lemma keeps_raise {A} cls a : keeps_left (raise (A := A) cls a).
Proof. by intros w. Qed.

Lemma keeps_reraise {A} e : keeps_left (reraise (A := A) e).
Proof. by intros w. Qed.

Lemma keeps_logger lvl m a : keeps_left (logger lvl m a).
Proof. by intros w. Qed.

Lemma keeps_get_left : keeps_left get_left.
Proof. by intros w. Qed.

Lemma keeps_path_exists p : keeps_left (path_exists p).
Proof. by intros w. Qed.

Lemma keeps_open_w p : keeps_left (open_w p).
Proof. by intros w. Qed.

Lemma keeps_file_write p s : keeps_left (file_write p s).
Proof. by intros w. Qed.

Lemma keeps_open_r p : keeps_left (open_r p).
Proof. intros w. unfold open_r. by destruct (files w !! p). Qed.

Lemma keeps_os_remove p : keeps_left (os_remove p).
Proof. intros w. unfold os_remove. by destruct (files w !! p). Qed.

Lemma keeps_bind {A B} (m : M A) (k : A → M B) :
  keeps_left m → (∀ a, keeps_left (k a)) → keeps_left (bind m k).
Proof.
  intros Hm Hk w. specialize (Hm w). unfold bind.
  destruct (m w) as [[a|e] w1]; simpl in *; [|done]. by rewrite Hk.
Qed.

Lemma keeps_for_each {A} (xs : list A) body :
  (∀ x, keeps_left (body x)) → keeps_left (for_each xs body).
Proof.
  intros Hb. induction xs as [|x xs IH]; simpl; [apply keeps_ret|].
  apply keeps_bind; auto.
Qed.

Lemma keeps_for_fold {A S} (xs : list A) (acc : S) body :
  (∀ s x, keeps_left (body s x)) → keeps_left (for_fold xs acc body).
Proof.
  intros Hb. revert acc. induction xs as [|x xs IH]; intros acc; simpl;
    [apply keeps_ret|].
  apply keeps_bind; auto.
Qed.

Lemma keeps_series_apply {A B} (f : A → M B) cells :
  (∀ x, keeps_left (f x)) → keeps_left (series_apply f cells).
Proof.
  intros Hf. induction cells as [|x cells IH]; simpl; [apply keeps_ret|].
  apply keeps_bind; [done|]. intros y. apply keeps_bind; [done|].
  intros ys. apply keeps_ret.
Qed.

Lemma keeps_str_concat s v : keeps_left (str_concat s v).
Proof. by destruct v. Qed.

Lemma keeps_concat_str v s : keeps_left (concat_str v s).
Proof. by destruct v. Qed.

Lemma keeps_str_join sep items : keeps_left (str_join sep items).
Proof. unfold str_join. by destruct (join_items 0 items). Qed.

Create HintDb keeps.
#[local] Hint Resolve keeps_ret keeps_raise keeps_reraise keeps_logger
  keeps_get_left keeps_path_exists keeps_open_w keeps_file_write keeps_open_r
  keeps_os_remove keeps_str_concat keeps_concat_str keeps_str_join : keeps.

(** Walks down a computation built from the combinators and the primitives
    above. *)
Ltac keeps :=
  repeat first
    [ solve [eauto with keeps]
    | apply keeps_bind; [|intros ?]
    | apply keeps_for_each; intros ?
    | apply keeps_for_fold; intros ? ?
    | apply keeps_series_apply; intros ?
    | match goal with
      | |- keeps_left (match ?x with _ => _ end) => destruct x
      | |- keeps_left (let '(_, _) := ?x in _) => destruct x
      end
    | by intros ? ].

Section KeepsLeft.
Context `{Engine : SymSpellEngine}.

Lemma keeps_check_corpus (self : Fuzzy) : keeps_left (check_corpus self).
Proof. unfold check_corpus. keeps. Qed.
Hint Resolve keeps_check_corpus : keeps.

Lemma keeps_preprocess_corpus (self : Fuzzy) : keeps_left (preprocess_corpus self).
Proof. unfold preprocess_corpus. keeps. Qed.
Hint Resolve keeps_preprocess_corpus : keeps.

Lemma keeps_create_symspell_dict (self : Fuzzy) :
  keeps_left (create_symspell_dict self).
Proof. unfold create_symspell_dict. keeps. Qed.
Hint Resolve keeps_create_symspell_dict : keeps.

Lemma keeps_index_line pp idx line : keeps_left (index_line pp idx line).
Proof. unfold index_line. keeps. Qed.
Hint Resolve keeps_index_line : keeps.

Lemma keeps_create_index (self : Fuzzy) : keeps_left (create_index self).
Proof. unfold create_index. keeps. Qed.
Hint Resolve keeps_create_index : keeps.

Lemma keeps_Fuzzy_init c pp m p : keeps_left (Fuzzy_init c pp m p).
Proof. unfold Fuzzy_init. keeps. Qed.
Hint Resolve keeps_Fuzzy_init : keeps.

Lemma keeps_query (self : Fuzzy) v : keeps_left (query self v).
Proof. unfold query. keeps. Qed.
Hint Resolve keeps_query : keeps.

Lemma keeps_apply_query (self : Fuzzy) nr v : keeps_left (apply_query self nr v).
Proof. unfold apply_query. keeps. Qed.
Hint Resolve keeps_apply_query : keeps.

Lemma keeps_check_null_return nr : keeps_left (check_null_return nr).
Proof. unfold check_null_return. keeps. Qed.
Hint Resolve keeps_check_null_return : keeps.

Lemma keeps_get_fuzzy_column (self : Fuzzy) df col nr :
  keeps_left (get_fuzzy_column self df col nr).
Proof. unfold get_fuzzy_column. keeps. Qed.
Hint Resolve keeps_get_fuzzy_column : keeps.

Lemma keeps_check_cols which cols df : keeps_left (check_cols which cols df).
Proof. unfold check_cols. keeps. Qed.
Hint Resolve keeps_check_cols : keeps.

Lemma keeps_fuzzy_pair rdf rcs nr pp m i lc :
  keeps_left (fuzzy_pair rdf rcs nr pp m i lc).
Proof. unfold fuzzy_pair. keeps. Qed.
Hint Resolve keeps_fuzzy_pair : keeps.

Lemma keeps_fuzzy_loop rdf rcs nr pp m lcs : ∀ i acc,
  keeps_left (fuzzy_loop rdf rcs nr pp m i lcs acc).
Proof.
  induction lcs as [|lc lcs IH]; intros i acc; simpl; [apply keeps_ret|].
  apply keeps_bind; [apply keeps_fuzzy_pair|]. intros col. apply IH.
Qed.
Hint Resolve keeps_fuzzy_loop : keeps.

End KeepsLeft.

#[local] Hint Resolve keeps_check_corpus keeps_preprocess_corpus
  keeps_create_symspell_dict keeps_index_line keeps_create_index
  keeps_Fuzzy_init keeps_query keeps_apply_query keeps_check_null_return
  keeps_get_fuzzy_column keeps_check_cols keeps_fuzzy_pair keeps_fuzzy_loop
  : keeps.

(** ** The entry point: all or nothing *)

Section AllOrNothing.
Context `{Engine : SymSpellEngine}.

Lemma get_fuzzy_columns_phases rdf lcs rcs nr pp m w :
  get_fuzzy_columns rdf lcs rcs nr pp m w
  = bind (compute_columns rdf lcs rcs nr pp m) (write_loop lcs 0) w.
Proof.
  unfold get_fuzzy_columns, compute_columns.
  do 5 (rewrite bind_assoc; apply bind_ext; intros ? ?). done.
Qed.

Lemma keeps_compute_columns rdf lcs rcs nr pp m :
  keeps_left (compute_columns rdf lcs rcs nr pp m).
Proof. unfold compute_columns. keeps. Qed.

Lemma fuzzy_loop_length rdf rcs nr pp m lcs : ∀ i acc w cols w',
  fuzzy_loop rdf rcs nr pp m i lcs acc w = (Ok cols, w') →
  length cols = length acc + length lcs.
Proof.
  induction lcs as [|lc lcs IH]; intros i acc w cols w'; simpl.
  - intros [= <- _]. lia.
  - intros [(e & _ & ?)|(col & w1 & _ & H)]%bind_inv; [done|].
    rewrite (IH _ _ _ _ _ H), length_app. simpl. lia.
Qed.

Lemma compute_columns_length rdf lcs rcs nr pp m w cols w' :
  compute_columns rdf lcs rcs nr pp m w = (Ok cols, w') →
  length cols = length lcs.
Proof.
  unfold compute_columns. intros H.
  repeat (apply bind_inv in H as [(e & _ & ?)|(? & ? & _ & H)]; [done|]).
  by apply fuzzy_loop_length in H.
Qed.

(** With every label a [str], the second loop cannot fail when every column
    has its name; it sets the columns in order. *)
Lemma write_loop_run (lcs : list string) : ∀ cols i w,
  i + length cols ≤ length lcs →
  write_loop (VStr <$> lcs) i cols w
  = (Ok (), World (files w) (log w)
              (write_columns (left_dataframe w) (drop i lcs) cols)).
Proof.
  induction cols as [|col cols IH]; intros i w Hlen; simpl.
  - unfold write_columns. rewrite zip_with_nil_r. by destruct w.
  - simpl in Hlen. destruct (lcs !! i) as [lc|] eqn:Elc.
    2:{ apply lookup_ge_None in Elc. lia. }
    rewrite list_lookup_fmap, Elc. simpl. rewrite bind_ret.
    rewrite (drop_S _ _ _ Elc).
    unfold bind at 1, get_left. unfold bind at 1, set_left.
    rewrite IH by lia. done.
Qed.

(** The message of ['fuzzy_' + label] for a label that is not a [str]. *)
Lemma str_concat_object s cls r w :
  str_concat s (VObj cls r) w
  = (Raise (Exception TypeError
              ["can only concatenate str (not " +:+ String dquote cls
               +:+ String dquote ") to str"]), w).
Proof. reflexivity. Qed.

(** The second loop stops at the first label that is not a [str]: the
    columns of the labels before it are written by then. *)
Lemma write_loop_stops (names : list string) cls r rest : ∀ cols i w,
  i ≤ length names → length names < i + length cols →
  write_loop ((VStr <$> names) ++ VObj cls r :: rest) i cols w
  = (Raise (Exception TypeError
              ["can only concatenate str (not " +:+ String dquote cls
               +:+ String dquote ") to str"]),
     World (files w) (log w)
       (write_columns (left_dataframe w) (drop i names) cols)).
Proof.
  induction cols as [|col cols IH]; intros i w Hi Hlen; simpl in *; [lia|].
  destruct (decide (i = length names)) as [->|Hne].
  - rewrite lookup_app_r, length_fmap, Nat.sub_diag by (by rewrite length_fmap).
    simpl. erewrite bind_raise; [|reflexivity].
    rewrite drop_all. unfold write_columns. simpl. by destruct w.
  - destruct (names !! i) as [lc|] eqn:Elc.
    2:{ apply lookup_ge_None in Elc. lia. }
    rewrite lookup_app_l by (rewrite length_fmap; lia).
    rewrite list_lookup_fmap, Elc. simpl. rewrite bind_ret.
    rewrite (drop_S _ _ _ Elc).
    unfold bind at 1, get_left. unfold bind at 1, set_left.
    rewrite IH by lia. done.
Qed.


End AllOrNothing.



(** ** The entry point: its checks *)

Section Checks.
Context `{Engine : SymSpellEngine}.

Lemma check_cols_ok which cols df w :
  Forall (λ c, has_column df c = true) cols →
  check_cols which cols df w = (Ok (), w).
Proof.
  unfold check_cols. induction 1 as [|c cols Hc _ IH]; simpl; [done|].
  rewrite Hc. simpl. by rewrite bind_ret.
Qed.

Lemma check_cols_missing which cols df col w :
  head (filter (λ c, has_column df c = false) cols) = Some col →
  check_cols which cols df w
  = (Raise (Exception LookupError [missing_msg which (py_str col)]),
     add_log w [LogRecord ERROR (missing_msg which (py_str col)) []]).
Proof.
  unfold check_cols. induction cols as [|c cols IH]; simpl; [done|].
  rewrite filter_cons. destruct (has_column df c) eqn:Ec.
  - rewrite decide_False by done. intros H. simpl. rewrite bind_ret. by apply IH.
  - rewrite decide_True by done. intros [= ->]. simpl.
    by rewrite bind_assoc, bind_logger.
Qed.

(** With every named column in its table, a [null_return] that is [None] or
    a [str], and a maximum distance of at least 1, the checks pass, whatever
    the lengths of the two lists: the call is its two loops. *)
Lemma checks_pass rdf lcs rcs nr pp m w :
  Forall (λ c, has_column (left_dataframe w) c = true) lcs →
  Forall (λ c, has_column rdf c = true) rcs →
  (∀ cls r, nr ≠ Some (VObj cls r)) → (1 ≤ m)%Z →
  get_fuzzy_columns rdf lcs (Some rcs) nr pp m w
  = bind (fuzzy_loop rdf rcs nr pp m 0 lcs []) (write_loop lcs 0) w.
Proof.
  intros Hl Hr Hnr Hm. unfold get_fuzzy_columns.
  unfold bind at 1, get_left.
  rewrite (bind_ok _ _ _ _ _ (check_cols_ok _ _ _ _ Hl)).
  rewrite bind_assoc, (bind_ok _ _ _ _ _ (check_cols_ok _ _ _ _ Hr)), bind_ret.
  assert (∃ s, check_null_return nr w = (Ok s, w)) as [s Hs].
  { destruct nr as [[s|cls r]|]; [by eexists..| |by eexists].
    by destruct (Hnr cls r). }
  rewrite (bind_ok _ _ _ _ _ Hs).
  destruct (Z.ltb_spec m 1); [lia|]. by rewrite bind_ret.
Qed.

(** A left column beyond the end of [right_cols] fails at once. *)
Lemma fuzzy_pair_no_partner rdf rcs nr pp m i lc w :
  length rcs ≤ i →
  fuzzy_pair rdf rcs nr pp m i lc w
  = (Raise (Exception IndexError ["list index out of range"]), w).
Proof. intros Hi. unfold fuzzy_pair. by rewrite (lookup_ge_None_2 _ _ Hi). Qed.

Lemma fuzzy_loop_short rdf rcs nr pp m lcs : ∀ i acc w,
  i ≤ length rcs → length rcs < i + length lcs →
  ∃ e w', fuzzy_loop rdf rcs nr pp m i lcs acc w = (Raise e, w').
Proof.
  induction lcs as [|lc lcs IH]; intros i acc w Hi Hlen; simpl in *; [lia|].
  unfold bind.
  destruct (fuzzy_pair rdf rcs nr pp m i lc w) as [[col|e] w1] eqn:E;
    [|by eexists _, _].
  destruct (decide (i = length rcs)) as [->|Hne].
  - by rewrite fuzzy_pair_no_partner in E.
  - apply IH; lia.
Qed.

Lemma fuzzy_pair_take rdf rcs nr pp m n i lc w :
  i < n →
  fuzzy_pair rdf (take n rcs) nr pp m i lc w = fuzzy_pair rdf rcs nr pp m i lc w.
Proof. intros Hi. unfold fuzzy_pair. by rewrite lookup_take_lt. Qed.

Lemma fuzzy_loop_take rdf rcs nr pp m n lcs : ∀ i acc w,
  i + length lcs ≤ n →
  fuzzy_loop rdf (take n rcs) nr pp m i lcs acc w
  = fuzzy_loop rdf rcs nr pp m i lcs acc w.
Proof.
  induction lcs as [|lc lcs IH]; intros i acc w Hn; simpl in *; [done|].
  unfold bind. rewrite fuzzy_pair_take by lia.
  destruct (fuzzy_pair rdf rcs nr pp m i lc w) as [[col|e] w1]; [|done].
  apply IH. lia.
Qed.

(** The first loop over a list in two parts: the first part, then the
    second from where the first ended. *)
Lemma fuzzy_loop_app rdf rcs nr pp m l1 l2 : ∀ i acc w,
  fuzzy_loop rdf rcs nr pp m i (l1 ++ l2) acc w
  = bind (fuzzy_loop rdf rcs nr pp m i l1 acc)
      (λ acc', fuzzy_loop rdf rcs nr pp m (i + length l1) l2 acc') w.
Proof.
  induction l1 as [|lc l1 IH]; intros i acc w; simpl.
  - by rewrite bind_ret, Nat.add_0_r.
  - rewrite bind_assoc. apply bind_ext. intros col w1. rewrite IH.
    by replace (S i + length l1) with (i + S (length l1)) by lia.
Qed.

(** With fewer right columns than left ones, the first loop processes the
    pairs that exist, in order; when one of them fails that is the error,
    and when all of them return, the next turn finds no partner. *)
Lemma fuzzy_loop_short_exact rdf rcs nr pp m lcs w :
  length rcs < length lcs →
  fuzzy_loop rdf rcs nr pp m 0 lcs [] w
  = match fuzzy_loop rdf rcs nr pp m 0 (take (length rcs) lcs) [] w with
    | (Ok _, w1) =>
        (Raise (Exception IndexError ["list index out of range"]), w1)
    | (Raise e, w1) => (Raise e, w1)
    end.
Proof.
  intros Hlen. rewrite <-(take_drop (length rcs) lcs) at 1.
  rewrite fuzzy_loop_app. unfold bind.
  destruct (fuzzy_loop _ _ _ _ _ _ (take _ _) _ w) as [[cols|e] w1]; [|done].
  rewrite length_take, Nat.min_l by lia. simpl.
  destruct (drop (length rcs) lcs) as [|lc rest] eqn:E.
  { apply (f_equal length) in E. rewrite length_drop in E. simpl in E. lia. }
  simpl. by rewrite (bind_raise _ _ _ _ _ (fuzzy_pair_no_partner _ _ _ _ _ _ _ _ (le_n _))).
Qed.

End Checks.

Section Lengths.
Context `{Engine : SymSpellEngine}.

Lemma short_right_cols_raise rdf lcs rcs nr pp m w :
  length rcs < length lcs →
  ∃ e w', get_fuzzy_columns rdf lcs (Some rcs) nr pp m w = (Raise e, w')
          ∧ left_dataframe w' = left_dataframe w.
Proof.
  intros Hlen. rewrite get_fuzzy_columns_phases. unfold bind.
  pose proof (keeps_compute_columns rdf lcs (Some rcs) nr pp m w) as Hkeep.
  destruct (compute_columns _ _ _ _ _ _ w) as [[cols|e] w1] eqn:E;
    simpl in Hkeep; [|by exists e, w1].
  exfalso. unfold compute_columns in E.
  apply bind_inv in E as [(e & _ & ?)|(? & ? & _ & E)]; [done|].
  apply bind_inv in E as [(e & _ & ?)|(? & ? & _ & E)]; [done|].
  apply bind_inv in E as [(e & _ & ?)|(rcs' & ? & Hr & E)]; [done|].
  apply bind_inv in Hr as [(e & _ & ?)|(? & ? & _ & [= <- _])]; [done|].
  apply bind_inv in E as [(e & _ & ?)|(? & ? & _ & E)]; [done|].
  apply bind_inv in E as [(e & _ & ?)|(? & wl & _ & E)]; [done|].
  destruct (fuzzy_loop_short rdf rcs nr pp m lcs 0 [] wl) as (e & w' & He);
    [lia|simpl; lia|].
  by rewrite He in E.
Qed.

Lemma long_right_cols_cut rdf lcs rcs nr pp m w :
  length lcs ≤ length rcs →
  Forall (λ c, has_column rdf c = true) rcs →
  get_fuzzy_columns rdf lcs (Some rcs) nr pp m w
  = get_fuzzy_columns rdf lcs (Some (take (length lcs) rcs)) nr pp m w.
Proof.
  intros Hlen Hr. unfold get_fuzzy_columns.
  apply bind_ext; intros left w1. apply bind_ext; intros [] w2.
  rewrite !bind_assoc.
  rewrite (bind_ok _ _ _ _ _ (check_cols_ok "right" rcs rdf w2 Hr)).
  rewrite (bind_ok _ _ _ _ _
             (check_cols_ok "right" (take (length lcs) rcs) rdf w2
                (Forall_take _ _ _ Hr))).
  rewrite !bind_ret.
  apply bind_ext; intros ? w3. apply bind_ext; intros [] w4.
  unfold bind. by rewrite fuzzy_loop_take.
Qed.

(** C5, as the code has it. The lengths of [left_cols] and [right_cols] are
    not compared before the pairs are processed: the checks that come first
    look at column names, [null_return] and the maximum distance only. With
    fewer right columns than left ones the call does fail, and the left
    table is unchanged; but it fails in the loop: the pairs that exist are
    processed first, in order, and the call raises the error of the first of
    them that fails, or, when they all return, the [IndexError] of the first
    left column without a partner. With more right columns than left ones
    nothing fails on that account: once every right column is found in the
    right table, the call is the call with [right_cols] cut to the length of
    [left_cols]. *)
Theorem unequal_lengths_not_checked (right_dataframe : DataFrame)
    (left_cols right_cols : list value) (null_return : option value)
    (preprocesser_arg : option PreProcessor) (max_edit_distance : Z)
    (w : world) :
  (Forall (λ c, has_column (left_dataframe w) c = true) left_cols →
   Forall (λ c, has_column right_dataframe c = true) right_cols →
   (∀ cls r, null_return ≠ Some (VObj cls r)) → (1 ≤ max_edit_distance)%Z →
   get_fuzzy_columns right_dataframe left_cols (Some right_cols) null_return
     preprocesser_arg max_edit_distance w
   = bind (fuzzy_loop right_dataframe right_cols null_return preprocesser_arg
             max_edit_distance 0 left_cols [])
       (write_loop left_cols 0) w)
  ∧ (length right_cols < length left_cols →
     (∃ e w',
        get_fuzzy_columns right_dataframe left_cols (Some right_cols)
          null_return preprocesser_arg max_edit_distance w = (Raise e, w')
        ∧ left_dataframe w' = left_dataframe w)
     ∧ (∀ i left_col w0,
          length right_cols ≤ i →
          fuzzy_pair right_dataframe right_cols null_return preprocesser_arg
            max_edit_distance i left_col w0
          = (Raise (Exception IndexError ["list index out of range"]), w0))
     ∧ (Forall (λ c, has_column (left_dataframe w) c = true) left_cols →
        Forall (λ c, has_column right_dataframe c = true) right_cols →
        (∀ cls r, null_return ≠ Some (VObj cls r)) →
        (1 ≤ max_edit_distance)%Z →
        get_fuzzy_columns right_dataframe left_cols (Some right_cols)
          null_return preprocesser_arg max_edit_distance w
        = match fuzzy_loop right_dataframe right_cols null_return
                  preprocesser_arg max_edit_distance 0
                  (take (length right_cols) left_cols) [] w with
          | (Ok _, w1) =>
              (Raise (Exception IndexError ["list index out of range"]), w1)
          | (Raise e, w1) => (Raise e, w1)
          end))
  ∧ (length left_cols ≤ length right_cols →
     Forall (λ c, has_column right_dataframe c = true) right_cols →
     get_fuzzy_columns right_dataframe left_cols (Some right_cols)
       null_return preprocesser_arg max_edit_distance w
     = get_fuzzy_columns right_dataframe left_cols
         (Some (take (length left_cols) right_cols))
         null_return preprocesser_arg max_edit_distance w).
Proof.
  split; [apply checks_pass|]. split.
  - intros Hlen. split; [by apply short_right_cols_raise|]. split.
    + intros i lc w0 Hi. by apply fuzzy_pair_no_partner.
    + intros Hl Hr Hnr Hm. rewrite checks_pass by done. unfold bind.
      rewrite fuzzy_loop_short_exact by done.
      by destruct (fuzzy_loop _ _ _ _ _ _ (take _ _) _ w) as [[cols|e] w1].
  - apply long_right_cols_cut.
Qed.





End Lengths.

(** A call with one left column and two right columns returns, and writes
    the fuzzy column of the one pair. *)
Lemma unequal_lengths_accepted :
  length [VStr "sCol"] ≠ length [VStr "RsCol"; VStr "RzCol"]
  ∧ outcome (get_fuzzy_columns (Engine := RefEngine.engine) test_right_df
               [VStr "sCol"] (Some [VStr "RsCol"; VStr "RzCol"]) None None 2
               (fresh test_left_df))
    = (Ok (), [],
       test_left_df ++
       [(VStr "fuzzy_sCol", VStr <$> ["kitten"; "sitting"; "the best of times";
                                  "the worst of times"; "not in there"])]).
Proof. split; [by intros [=]|]. vm_compute. reflexivity. Qed.

(** A call with two left columns and one right column fails only when the
    loop comes to the second left column: by then the first pair has been
    processed, as the log shows. *)
Example short_right_cols_late_error :
  let r := get_fuzzy_columns (Engine := RefEngine.engine) test_right_df
             [VStr "sCol"; VStr "zCol"] (Some [VStr "RsCol"]) None None 2
             (fresh test_left_df) in
  r.1 = Raise (Exception IndexError ["list index out of range"])
  ∧ existsb (λ rec, String.eqb (msg rec) "Corpus index created") (log r.2) = true
  ∧ left_dataframe r.2 = test_left_df.
Proof. vm_compute. repeat split. Qed.

Lemma unequal_lengths_not_checked_witness :
  (∃ e w',
     get_fuzzy_columns (Engine := RefEngine.engine) test_right_df
       [VStr "sCol"; VStr "zCol"] (Some [VStr "RsCol"]) None None 2 (fresh test_left_df)
     = (Raise e, w')
     ∧ left_dataframe w' = left_dataframe (fresh test_left_df))
  ∧ get_fuzzy_columns (Engine := RefEngine.engine) test_right_df
      [VStr "sCol"] (Some [VStr "RsCol"; VStr "RzCol"]) None None 2 (fresh test_left_df)
    = get_fuzzy_columns (Engine := RefEngine.engine) test_right_df
        [VStr "sCol"] (Some (take (length [VStr "sCol"]) [VStr "RsCol"; VStr "RzCol"])) None None 2
        (fresh test_left_df)
  ∧ get_fuzzy_columns (Engine := RefEngine.engine) test_right_df
      [VStr "sCol"; VStr "zCol"] (Some [VStr "RsCol"]) None None 2
      (fresh test_left_df)
    = match fuzzy_loop (Engine := RefEngine.engine) test_right_df
              [VStr "RsCol"] None None 2 0
              (take (length [VStr "RsCol"]) [VStr "sCol"; VStr "zCol"]) []
              (fresh test_left_df) with
      | (Ok _, w1) =>
          (Raise (Exception IndexError ["list index out of range"]), w1)
      | (Raise e, w1) => (Raise e, w1)
      end.
Proof.
  split; [|split].
  - apply (unequal_lengths_not_checked (Engine := RefEngine.engine)
             test_right_df [VStr "sCol"; VStr "zCol"] [VStr "RsCol"] None None 2
             (fresh test_left_df)).
    simpl. lia.
  - apply (unequal_lengths_not_checked (Engine := RefEngine.engine)
             test_right_df [VStr "sCol"] [VStr "RsCol"; VStr "RzCol"] None None 2
             (fresh test_left_df)).
    + simpl. lia.
    + repeat constructor.
  - refine (proj2 (proj2 (proj1 (proj2
              (unequal_lengths_not_checked (Engine := RefEngine.engine)
                 test_right_df [VStr "sCol"; VStr "zCol"] [VStr "RsCol"]
                 None None 2 (fresh test_left_df))) _)) _ _ _ _).
    + simpl. lia.
    + repeat constructor.
    + repeat constructor.
    + intros cls r. discriminate.
    + lia.
Defined.



(** ** [strip] and the lines of a file *)

Lemma rstrip_idemp s : Py.rstrip (Py.rstrip s) = Py.rstrip s.
Proof.
  induction s as [|c s IH]; [done|]. simpl.
  destruct (Py.rstrip s) as [|d r] eqn:E.
  - destruct (Py.isspace c) eqn:Ec; [done|]. simpl. by rewrite Ec.
  - simpl in *. by rewrite IH.
Qed.

Lemma rstrip_head c s :
  Py.isspace c = false → ∃ r, Py.rstrip (String c s) = String c r.
Proof.
  intros Hc. simpl. destruct (Py.rstrip s); [|by eexists].
  rewrite Hc. by eexists.
Qed.

Lemma lstrip_head s :
  Py.lstrip s = "" ∨ ∃ c t, Py.lstrip s = String c t ∧ Py.isspace c = false.
Proof.
  induction s as [|c s IH]; [by left|]. simpl.
  destruct (Py.isspace c) eqn:Ec; [done|]. right. by exists c, s.
Qed.

Lemma strip_idemp s : Py.strip (Py.strip s) = Py.strip s.
Proof.
  unfold Py.strip. destruct (lstrip_head s) as [->|(c & t & -> & Hc)]; [done|].
  destruct (rstrip_head c t Hc) as [r Hr]. rewrite Hr. simpl Py.lstrip.
  rewrite Hc, <-Hr. apply rstrip_idemp.
Qed.

Lemma rstrip_app_space s c :
  Py.isspace c = true → Py.rstrip (s +:+ String c "") = Py.rstrip s.
Proof.
  intros Hc. induction s as [|x s IH]; [simpl; by rewrite Hc|].
  rewrite app_cons. simpl. by rewrite IH.
Qed.

Lemma lstrip_app s t :
  Py.lstrip (s +:+ t)
  = match Py.lstrip s with "" => Py.lstrip t | r => r +:+ t end.
Proof.
  induction s as [|c s IH]; [done|]. rewrite app_cons. simpl.
  by destruct (Py.isspace c).
Qed.

(** The line feed that ends a line does not show in its original. *)
Lemma strip_line s : Py.strip (s +:+ nl) = Py.strip s.
Proof.
  unfold Py.strip. rewrite lstrip_app.
  destruct (Py.lstrip s) as [|c r]; [done|].
  by apply (rstrip_app_space (String c r)).
Qed.

Lemma readlines_line s rest :
  single_line s → readlines (s +:+ nl +:+ rest) = (s +:+ nl) :: readlines rest.
Proof.
  unfold single_line. induction s as [|c s IH]; simpl; [done|].
  intros [[Hlf Hcr] Hs]%Forall_cons. rewrite app_cons. simpl.
  destruct (Ascii.eqb_spec c LF); [done|]. destruct (Ascii.eqb_spec c CR); [done|].
  by rewrite (IH Hs).
Qed.

(** A column of one-line values is staged one line a row. *)
Lemma readlines_corpus_text rows :
  Forall (λ row, single_line (py_str row)) rows →
  readlines (corpus_text rows) = (λ row, py_str row +:+ nl) <$> rows.
Proof.
  unfold corpus_text. induction 1 as [|row rows Hrow _ IH]; [done|].
  simpl. rewrite app_assoc', (readlines_line _ _ Hrow). by f_equal.
Qed.

(** ** Paths *)

Lemma rsplit_no_slash b :
  Forall (λ c, os_path.is_slash c = false) (Py.chars b) →
  os_path.rsplit b = ("", b).
Proof.
  induction b as [|c b IH]; [done|]. simpl.
  intros [Hc Hb]%Forall_cons. by rewrite (IH Hb), Hc.
Qed.

Lemma rsplit_app x b :
  os_path.ends_with_slash x = true →
  Forall (λ c, os_path.is_slash c = false) (Py.chars b) →
  os_path.rsplit (x +:+ b) = (x, b).
Proof.
  intros Hx Hb. induction x as [|c x IH]; [done|].
  rewrite app_cons. simpl. destruct x as [|d x].
  - simpl in Hx. rewrite app_empty_l, (rsplit_no_slash _ Hb), Hx.
    unfold os_path.is_slash in Hx. by apply Ascii.eqb_eq in Hx as ->.
  - by rewrite (IH Hx).
Qed.

Lemma rsplit_tail p :
  Forall (λ c, os_path.is_slash c = false) (Py.chars (os_path.rsplit p).2).
Proof.
  induction p as [|c p IH]; [constructor|]. simpl.
  destruct (os_path.rsplit p) as [[|d h] t]; simpl in *; [|done].
  destruct (os_path.is_slash c) eqn:Ec; [done|]. by constructor.
Qed.

Lemma ends_with_slash_app a :
  os_path.ends_with_slash (a +:+ "/") = true.
Proof.
  induction a as [|c a IH]; [done|]. rewrite app_cons.
  simpl. destruct (a +:+ "/") eqn:E; [by destruct a|done].
Qed.

Lemma basename_join d b :
  b ≠ "" → Forall (λ c, os_path.is_slash c = false) (Py.chars b) →
  os_path.basename (os_path.join d b) = b.
Proof.
  intros Hne Hb. unfold os_path.basename, os_path.join.
  destruct b as [|c b]; [done|].
  assert (os_path.is_slash c = false) as Hc by (by apply Forall_cons in Hb as [? _]).
  assert (match c with
          | "/"%char => String c b
          | _ => match d with
                 | "" => String c b
                 | _ => if os_path.ends_with_slash d then d +:+ String c b
                        else d +:+ "/" +:+ String c b
                 end
          end
          = match d with
            | "" => String c b
            | _ => if os_path.ends_with_slash d then d +:+ String c b
                   else d +:+ "/" +:+ String c b
            end) as ->.
  { by destruct c as [[] [] [] [] [] [] [] []]. }
  destruct d as [|x d]; [by rewrite (rsplit_no_slash _ Hb)|].
  destruct (os_path.ends_with_slash (String x d)) eqn:Ed.
  - by rewrite (rsplit_app _ _ Ed Hb).
  - rewrite <-app_assoc'. by rewrite (rsplit_app _ _ (ends_with_slash_app _) Hb).
Qed.

Lemma length_app' s t : String.length (s +:+ t) = String.length s + String.length t.
Proof. induction s as [|c s IH]; [done|]. rewrite app_cons. simpl. by rewrite IH. Qed.

(** The file of the processed corpus is never the file of the corpus. *)
Lemma processed_corpus_ne c :
  os_path.join (os_path.dirname c) ("preprocessed_" +:+ os_path.basename c) ≠ c.
Proof.
  intros H. apply (f_equal os_path.basename) in H.
  rewrite basename_join in H.
  - apply (f_equal String.length) in H. rewrite length_app' in H. simpl in H. lia.
  - done.
  - rewrite chars_app. apply Forall_app. split; [repeat constructor|].
    apply rsplit_tail.
Qed.

(** ** From the right column to the reverse index *)

Section Staging.
Context `{Engine : SymSpellEngine}.

Lemma for_each_write_from p (rows : list value) : ∀ w s,
  files w !! p = Some s →
  for_each rows (λ row, file_write p (py_str row +:+ nl)) w
  = (Ok (), World (<[p := s +:+ corpus_text rows]> (files w))
              (log w) (left_dataframe w)).
Proof.
  induction rows as [|row rows IH]; intros w s Hs; simpl.
  - unfold ret, corpus_text. simpl. rewrite app_empty_r, (insert_id _ _ _ Hs).
    by destruct w.
  - rewrite bind_file_write, Hs. simpl.
    erewrite IH by apply lookup_insert_eq. simpl.
    rewrite insert_insert_eq. unfold corpus_text. simpl.
    by rewrite !app_assoc'.
Qed.

(** The first lines of a turn of the loop write [corpus_text]. *)
Lemma staged p rows w0 :
  (open_w p ;;; for_each rows (λ row, file_write p (py_str row +:+ nl))) w0
  = (Ok (), World (<[p := corpus_text rows]> (files w0))
              (log w0) (left_dataframe w0)).
Proof.
  rewrite bind_open_w.
  erewrite for_each_write_from by apply lookup_insert_eq. simpl.
  by rewrite insert_insert_eq.
Qed.

Lemma for_each_write_other {A} p (f : A → string) xs : ∀ w,
  ∃ w', for_each xs (λ x, file_write p (f x)) w = (Ok (), w')
        ∧ (∀ q, q ≠ p → files w' !! q = files w !! q)
        ∧ (is_Some (files w !! p) → is_Some (files w' !! p)).
Proof.
  induction xs as [|x xs IH]; intros w; simpl; [by exists w|].
  rewrite bind_file_write.
  destruct (IH (World (<[p:=default "" (files w !! p) +:+ f x]> (files w))
                  (log w) (left_dataframe w))) as (w' & -> & Hq & Hp).
  exists w'. split; [done|]. simpl in *. split.
  - intros q Hne. by rewrite Hq, lookup_insert_ne.
  - intros _. apply Hp. by rewrite lookup_insert_eq.
Qed.

Lemma check_corpus_inv (self : Fuzzy) w w' :
  check_corpus self w = (Ok (), w') → files w' = files w.
Proof.
  unfold check_corpus. rewrite bind_logger.
  destruct (corpus self) as [c|]; [|by intros [= <-]].
  rewrite bind_path_exists. destruct (bool_decide _); simpl.
  - by intros [= <-].
  - by rewrite bind_logger.
Qed.

Lemma preprocess_corpus_inv (self : Fuzzy) c w self1 w1 :
  _preprocess_flag self = false → corpus self = Some c →
  preprocess_corpus self w = (Ok self1, w1) →
  _preprocess_flag self1 = true
  ∧ unprocessed_corpus self1 = Some c
  ∧ (∃ pc, corpus self1 = Some pc ∧ is_Some (files w1 !! pc))
  ∧ preprocesser self1 = preprocesser self
  ∧ files w1 !! c = files w !! c.
Proof.
  intros Hflag Hc. unfold preprocess_corpus.
  rewrite bind_logger, Hflag, Hc.
  intros [(e & _ & ?)|([] & wa & Hchk & H)]%bind_inv; [done|].
  apply check_corpus_inv in Hchk. simpl in Hchk.
  apply bind_inv in H as [(e & _ & ?)|(cf & wb & Hopen & H)]; [done|].
  assert (wb = wa) as ->.
  { unfold open_r in Hopen. by destruct (files wa !! c); simplify_eq. }
  set (pc := os_path.join _ _) in H.
  rewrite bind_open_w in H.
  match type of H with
  | bind (for_each ?xs ?body) _ ?w = _ =>
      destruct (for_each_write_other pc
                  (λ line, preprocess (preprocesser self) line +:+ nl) xs w)
        as (wc & Hrun & Hq & Hp)
  end.
  rewrite (bind_ok _ _ _ _ _ Hrun), bind_logger in H.
  injection H as Hself Hw1. rewrite <-Hself, <-Hw1. simpl in *.
  split; [done|]. split; [done|]. split.
  { exists pc. split; [done|]. apply Hp. by rewrite lookup_insert_eq. }
  split; [done|].
  assert (c ≠ pc) as Hne
    by (intros Heq; exact (processed_corpus_ne c (eq_sym Heq))).
  by rewrite Hq, lookup_insert_ne, Hchk.
Qed.

Lemma create_symspell_dict_inv (self : Fuzzy) w self2 w2 :
  create_symspell_dict self w = (Ok self2, w2) →
  _preprocess_flag self2 = _preprocess_flag self
  ∧ unprocessed_corpus self2 = unprocessed_corpus self
  ∧ corpus self2 = corpus self
  ∧ preprocesser self2 = preprocesser self
  ∧ files w2 = files w.
Proof.
  unfold create_symspell_dict. rewrite bind_logger.
  intros [(e & _ & ?)|([] & wa & Hchk & H)]%bind_inv; [done|].
  apply check_corpus_inv in Hchk. simpl in Hchk.
  destruct (SymSpell_init _ _) as [ex|sym].
  - by rewrite bind_logger in H.
  - by injection H as <- <-.
Qed.

(** After [Fuzzy.__init__] on a corpus file, the dictionary holds, for each
    key, the original of the first line of that file with this key. *)
Lemma Fuzzy_init_index c pp m p w content (self : Fuzzy) w' :
  files w !! c = Some content →
  Fuzzy_init (Some c) pp m p w = (Ok self, w') →
  ∃ index,
    index_dictionary self = Some index
    ∧ ∀ k, index !! k =
           Py.strip <$>
             head (filter (λ l, index_key (default PreProcessor_init pp) l = k)
                     (readlines content)).
Proof.
  intros Hc. unfold Fuzzy_init.
  intros [(e & _ & ?)|([] & wa & Hchk & H)]%bind_inv; [done|].
  apply check_corpus_inv in Hchk.
  apply bind_inv in H as [(e & _ & ?)|(self1 & wb & Hpre & H)]; [done|].
  apply preprocess_corpus_inv with (c := c) in Hpre
    as (Hf1 & Hu1 & (pc & Hc1 & Hpc) & Hpp1 & Hfiles1); [|done..].
  rewrite Hf1 in H.
  apply bind_inv in H as [(e & _ & ?)|(self2 & wc & Hsym & H)]; [done|].
  apply create_symspell_dict_inv in Hsym as (Hf2 & Hu2 & Hc2 & Hpp2 & Hfiles2).
  destruct (create_index_run self2 wc pc c content)
    as (self3 & wd & index & notices & Hrun & Hidx & _ & _ & _ & _ & Hloop & _).
  { congruence. } { congruence. } { by rewrite Hfiles2. } { congruence. }
  { by rewrite Hfiles2, Hfiles1, Hchk. }
  rewrite Hrun in H. injection H as <- <-.
  exists index. split; [done|].
  destruct (index_loop (preprocesser self2) (readlines content) ∅)
    as (index0 & notices0 & Hrun0 & _ & Hlk & _).
  pose proof (Hloop wc) as H1. rewrite (Hrun0 wc) in H1. injection H1 as -> _.
  intros k. rewrite Hlk, lookup_empty. by rewrite Hpp2, Hpp1.
Qed.

Lemma query_found_inv (self : Fuzzy) v w out w' :
  query self v w = (Ok (out, true), w') →
  ∃ index k, index_dictionary self = Some index ∧ index !! k = Some out.
Proof.
  unfold query. destruct v as [q|cls r]; [|by rewrite bind_logger].
  destruct (index_dictionary self) as [index|]; [|by rewrite bind_logger].
  destruct (sym_spell self) as [sym|]; [|by rewrite bind_logger].
  rewrite bind_logger.
  destruct (lookup _ _ _ _) as [|top rest]; [done|].
  destruct (_ <? _)%Z; [by rewrite bind_logger|].
  destruct (index !! term top) as [b|] eqn:E; [|done].
  rewrite bind_logger. intros [= <- _]. by exists index, (term top).
Qed.

End Staging.

Section Hits.
Context `{Engine : SymSpellEngine}.

(** C10, as the code has it. The right column is staged as a text file, one
    [str(row)] and a line feed per row; the index is built from the lines of
    that file, each stripped. So the string given back on a hit is a line of
    the staged corpus without its leading and trailing whitespace, and has
    none itself; when no value of the right column holds a line break in its
    string representation, the lines are the rows, and the string is the
    string representation of a right value, stripped. *)
Theorem hit_is_stripped_line (rows : list value) (dict_name : string)
    (preprocesser_arg : option PreProcessor) (max_edit_distance prefix : Z)
    (w0 w w1 w2 w3 : world) (self : Fuzzy) (v : value) (out : string) :
  (open_w dict_name ;;;
   for_each rows (λ row, file_write dict_name (py_str row +:+ nl))) w0
  = (Ok (), w) →
  Fuzzy_init (Some dict_name) preprocesser_arg max_edit_distance prefix w
  = (Ok self, w1) →
  query self v w2 = (Ok (out, true), w3) →
  Py.strip out = out
  ∧ (∃ line, line ∈ readlines (corpus_text rows) ∧ out = Py.strip line)
  ∧ (Forall (λ row, single_line (py_str row)) rows →
     ∃ row, row ∈ rows ∧ out = Py.strip (py_str row)).
Proof.
  intros Hstage Hinit Hquery.
  rewrite staged in Hstage. injection Hstage as <-.
  destruct (Fuzzy_init_index dict_name preprocesser_arg max_edit_distance prefix
              _ (corpus_text rows) self w1 (lookup_insert_eq _ _ _) Hinit)
    as (index & Hidx & Hlk).
  destruct (query_found_inv self v w2 out w3 Hquery) as (index' & k & Hidx' & Hk).
  rewrite Hidx in Hidx'. injection Hidx' as <-.
  rewrite Hlk in Hk.
  destruct (head _) as [line|] eqn:Ehead; [|done]. injection Hk as <-.
  apply head_Some_elem_of, list_elem_of_filter in Ehead as [_ Hin].
  split; [apply strip_idemp|]. split; [by exists line|].
  intros Hrows. rewrite (readlines_corpus_text _ Hrows) in Hin.
  apply list_elem_of_fmap in Hin as (row & -> & Hrow).
  exists row. split; [done|]. apply strip_line.
Qed.

End Hits.

Lemma hit_is_stripped_line_witness :
  ∃ out,
    Py.strip out = out
    ∧ (∃ line, line ∈ readlines (corpus_text padded_rows) ∧ out = Py.strip line)
    ∧ (∃ row, row ∈ padded_rows ∧ out = Py.strip (py_str row)).
Proof.
  exists "kitten".
  assert (Forall (λ row, single_line (py_str row)) padded_rows) as Hrows.
  { repeat constructor; discriminate. }
  edestruct (λ w w1 w3 self,
               hit_is_stripped_line (Engine := RefEngine.engine) padded_rows
                 "R_dict.txt" None 2 7 (fresh []) w w1 (fresh []) w3 self
                 (VStr "kiten") "kitten")
    as (H1 & H2 & H3).
  - vm_compute. reflexivity.
  - vm_compute. reflexivity.
  - vm_compute. reflexivity.
  - split; [exact H1|]. split; [exact H2|]. exact (H3 Hrows).
Defined.

(** A right cell of two lines, [kitten] and [sitting]: the left value
    [kiten] is answered by [kitten], which is no right value stripped. *)
Lemma hit_not_a_right_value :
  let r := get_fuzzy_columns (Engine := RefEngine.engine) two_line_right_df
             [VStr "L"] (Some [VStr "R"]) None None 2 (fresh kiten_left_df) in
  r.1 = Ok ()
  ∧ get_column (left_dataframe r.2) (VStr "fuzzy_L") = Some [VStr "kitten"]
  ∧ ¬ ∃ row, get_column two_line_right_df (VStr "R") = Some [row]
             ∧ "kitten" = Py.strip (py_str row).
Proof.
  split; [vm_compute; reflexivity|]. split; [vm_compute; reflexivity|].
  intros (row & [= <-] & H). vm_compute in H. discriminate.
Qed.

(** * More of the code *)

(** ** Computations that only log *)

Lemma logs_only_ret {A} (a : A) : logs_only (ret a).
Proof. exists (Ok a), []. intros w. by rewrite add_log_nil. Qed.

Lemma logs_only_raise {A} cls a : logs_only (raise (A := A) cls a).
Proof. exists (Raise (Exception cls a)), []. intros w. by rewrite add_log_nil. Qed.

Lemma logs_only_reraise {A} e : logs_only (reraise (A := A) e).
Proof. exists (Raise e), []. intros w. by rewrite add_log_nil. Qed.

Lemma logs_only_logger lvl m a : logs_only (logger lvl m a).
Proof. by exists (Ok ()), [LogRecord lvl m a]. Qed.

Lemma logs_only_bind {A B} (m : M A) (k : A → M B) :
  logs_only m → (∀ a, logs_only (k a)) → logs_only (bind m k).
Proof.
  intros ([a|e] & recs & Hm) Hk.
  - destruct (Hk a) as (r & recs' & Ha). exists r, (recs ++ recs').
    intros w. by rewrite (bind_ok _ _ _ _ _ (Hm w)), Ha, add_log_add_log.
  - exists (Raise e), recs. intros w. by rewrite (bind_raise _ _ _ _ _ (Hm w)).
Qed.

Lemma logs_only_for_each {A} (xs : list A) body :
  (∀ x, logs_only (body x)) → logs_only (for_each xs body).
Proof.
  intros Hb. induction xs as [|x xs IH]; simpl; [apply logs_only_ret|].
  apply logs_only_bind; auto.
Qed.

Lemma logs_only_for_fold {A S} (xs : list A) (acc : S) body :
  (∀ s x, logs_only (body s x)) → logs_only (for_fold xs acc body).
Proof.
  intros Hb. revert acc. induction xs as [|x xs IH]; intros acc; simpl;
    [apply logs_only_ret|].
  apply logs_only_bind; auto.
Qed.

Lemma logs_only_series_apply {A B} (f : A → M B) cells :
  (∀ x, logs_only (f x)) → logs_only (series_apply f cells).
Proof.
  intros Hf. induction cells as [|x cells IH]; simpl; [apply logs_only_ret|].
  apply logs_only_bind; [done|]. intros y. apply logs_only_bind; [done|].
  intros ys. apply logs_only_ret.
Qed.

Lemma logs_only_str_concat s v : logs_only (str_concat s v).
Proof. destruct v; [apply logs_only_ret|apply logs_only_raise]. Qed.

Lemma logs_only_concat_str v s : logs_only (concat_str v s).
Proof. destruct v; [apply logs_only_ret|apply logs_only_raise]. Qed.

Lemma logs_only_str_join sep items : logs_only (str_join sep items).
Proof.
  unfold str_join.
  destruct (join_items 0 items); [apply logs_only_reraise|apply logs_only_ret].
Qed.

Create HintDb logs.
#[local] Hint Resolve logs_only_ret logs_only_raise logs_only_reraise
  logs_only_logger logs_only_str_concat logs_only_concat_str
  logs_only_str_join : logs.

Ltac logs :=
  repeat first
    [ solve [eauto with logs]
    | apply logs_only_bind; [|intros ?]
    | apply logs_only_for_each; intros ?
    | apply logs_only_for_fold; intros ? ?
    | apply logs_only_series_apply; intros ?
    | match goal with
      | |- logs_only (match ?x with _ => _ end) => destruct x
      | |- logs_only (let '(_, _) := ?x in _) => destruct x
      end ].

(** The outcome of a computation that only logs is the same in all worlds. *)
Lemma logs_only_outcome {A} (m : M A) w1 w2 :
  logs_only m → (m w1).1 = (m w2).1.
Proof. intros (r & recs & H). by rewrite !H. Qed.

Lemma logs_only_world {A} (m : M A) w :
  logs_only m →
  files (m w).2 = files w ∧ left_dataframe (m w).2 = left_dataframe w
  ∧ ∃ recs, log (m w).2 = log w ++ recs.
Proof. intros (r & recs & H). rewrite H. simpl. eauto. Qed.

Section QueryMore.
Context `{Engine : SymSpellEngine}.

Lemma logs_only_index_line pp idx line : logs_only (index_line pp idx line).
Proof. unfold index_line. logs. Qed.

Lemma logs_only_query_aux (self : Fuzzy) v : logs_only (query self v).
Proof. unfold query. logs. Qed.

Lemma logs_only_apply_query (self : Fuzzy) nr v :
  logs_only (apply_query self nr v).
Proof.
  unfold apply_query. apply logs_only_bind; [apply logs_only_query_aux|].
  intros [out found]. logs.
Qed.

Lemma logs_only_check_null_return nr : logs_only (check_null_return nr).
Proof. unfold check_null_return. logs. Qed.

Lemma logs_only_check_cols which cols df : logs_only (check_cols which cols df).
Proof. unfold check_cols. logs. Qed.

Lemma logs_only_get_fuzzy_column_aux (self : Fuzzy) df col nr :
  logs_only (get_fuzzy_column self df col nr).
Proof.
  unfold get_fuzzy_column.
  apply logs_only_bind; [logs|]. intros _.
  apply logs_only_bind; [logs|]. intros _.
  apply logs_only_bind; [apply logs_only_check_null_return|]. intros s.
  destruct (get_column df col); [|logs].
  apply logs_only_series_apply. intros v. apply logs_only_apply_query.
Qed.

End QueryMore.

Section QueryAnswers.
Context `{Engine : SymSpellEngine}.

(** X1. A query, and with it the computation of a whole fuzzy column, reads
    nothing of the world: outcome and log records are the same wherever it
    runs, and neither the files nor the left table change. *)
Theorem query_only_logs (self : Fuzzy) (v : value) (dataframe : DataFrame)
    (col_name : value) (null_return : option value) :
  logs_only (query self v)
  ∧ logs_only (get_fuzzy_column self dataframe col_name null_return).
Proof.
  split; [apply logs_only_query_aux|apply logs_only_get_fuzzy_column_aux].
Qed.

Lemma query_ok_inv (self : Fuzzy) v w out found w' :
  query self v w = (Ok (out, found), w') →
  ∃ q index sym,
    v = VStr q ∧ index_dictionary self = Some index ∧ sym_spell self = Some sym
    ∧ if found then ∃ top rest,
           lookup sym (max_edit_distance_dictionary self)
             (preprocess (preprocesser self) q) true = top :: rest
           ∧ (distance top ≤ max_edit_distance_dictionary self)%Z
           ∧ index !! term top = Some out
      else out = q.
Proof.
  unfold query. destruct v as [q|cls r]; [|by rewrite bind_logger].
  destruct (index_dictionary self) as [index|]; [|by rewrite bind_logger].
  destruct (sym_spell self) as [sym|]; [|by rewrite bind_logger].
  rewrite bind_logger. intros H. exists q, index, sym. do 3 (split; [done|]).
  destruct (lookup _ _ _ _) as [|top rest] eqn:El; [done|].
  destruct (Z.ltb_spec (max_edit_distance_dictionary self) (distance top)).
  - rewrite bind_logger in H. by injection H as <- <-.
  - destruct (index !! term top) as [b|] eqn:E; [|done].
    rewrite bind_logger in H. injection H as <- <-. by exists top, rest.
Qed.

(** X2. What a query can answer. It returns only for a [str], on an object
    whose index and engine are in place; with the flag set, the answer is the
    original that the index holds for the term of the top suggestion, which
    lies within the maximum distance; with the flag cleared, the answer is
    the query itself. In particular no canonical form is ever given back
    unless it is an original or the query. *)
Theorem query_answer (self : Fuzzy) (v : value) (w w' : world)
    (out : string) (found : bool) :
  query self v w = (Ok (out, found), w') →
  ∃ q index sym,
    v = VStr q ∧ index_dictionary self = Some index ∧ sym_spell self = Some sym
    ∧ if found then ∃ top rest,
           lookup sym (max_edit_distance_dictionary self)
             (preprocess (preprocesser self) q) true = top :: rest
           ∧ (distance top ≤ max_edit_distance_dictionary self)%Z
           ∧ index !! term top = Some out
      else out = q.
Proof. apply query_ok_inv. Qed.

Lemma check_null_return_ok nr s w w' :
  check_null_return nr w = (Ok s, w') →
  w' = w ∧ s = match nr with Some (VStr x) => Some x | _ => None end
  ∧ ∀ cls r, nr ≠ Some (VObj cls r).
Proof.
  destruct nr as [[x|cls r]|]; simpl.
  - by intros [= <- <-].
  - by rewrite bind_logger.
  - by intros [= <- <-].
Qed.

Lemma get_fuzzy_column_ok_inv (self : Fuzzy) df col nr w fuzzy_col w' :
  get_fuzzy_column self df col nr w = (Ok fuzzy_col, w') →
  ∃ cells wa wb,
    has_column df col = true ∧ get_column df col = Some cells
    ∧ (∀ cls r, nr ≠ Some (VObj cls r))
    ∧ series_apply
        (apply_query self match nr with Some (VStr x) => Some x | _ => None end)
        cells wa = (Ok fuzzy_col, wb).
Proof.
  unfold get_fuzzy_column. rewrite bind_logger.
  destruct (has_column df col) eqn:Ecol; simpl negb; cbv iota.
  2:{ rewrite !bind_assoc. unfold str_join.
      destruct (join_items _ _); [by unfold bind, reraise|].
      by unfold bind, ret, logger, raise. }
  rewrite bind_ret.
  intros [(e & _ & ?)|(s & wa & Hnr & H)]%bind_inv; [done|].
  apply check_null_return_ok in Hnr as (-> & -> & Hnr).
  destruct (get_column df col) as [cells|]; [|done].
  by eexists cells, _, w'.
Qed.

(** X3. A fuzzy column has one row per row of the queried column, in the
    same order, and the value of a row depends on the cell of that row
    alone: it is what the query answers for that cell, in any world, or the
    sentinel when the query misses and [null_return] is set. *)
Theorem get_fuzzy_column_rows (self : Fuzzy) (dataframe : DataFrame)
    (col_name : value) (null_return : option value) (w w' : world)
    (fuzzy_col : list string) :
  get_fuzzy_column self dataframe col_name null_return w = (Ok fuzzy_col, w') →
  ∃ cells,
    get_column dataframe col_name = Some cells
    ∧ length fuzzy_col = length cells
    ∧ ∀ i v, cells !! i = Some v →
        ∃ out found,
          (∀ w0, (query self v w0).1 = Ok (out, found))
          ∧ fuzzy_col !! i
            = Some (if found then out
                    else match null_return with
                         | Some (VStr s) => s
                         | _ => out
                         end).
Proof.
  intros H. apply get_fuzzy_column_ok_inv in H
    as (cells & wa & wb & _ & Hcells & Hnr & Hrun).
  destruct (series_apply_ok _ _ _ _ _ Hrun) as [Hlen Hall].
  exists cells. split; [done|]. split; [done|].
  intros i v Hv. destruct (Hall i v Hv) as (y & wi & wi' & Hy & Hi).
  unfold apply_query in Hy.
  apply bind_inv in Hy as [(e & _ & ?)|([out found] & wq & Hq & Hy)]; [done|].
  exists out, found. split.
  - intros w0. rewrite (logs_only_outcome _ w0 wi (logs_only_query_aux self v)).
    by rewrite Hq.
  - rewrite Hi. f_equal. destruct found; [by injection Hy as <-|].
    destruct null_return as [[s|cls r]|]; by injection Hy as <-.
Qed.

Lemma apply_query_non_string (self : Fuzzy) nr cls r w :
  ∃ w', apply_query self nr (VObj cls r) w
        = (Raise (Exception ValueError
                    [r +:+ " is type " +:+ type_repr (VObj cls r) +:+ " not string"]), w').
Proof. eexists. unfold apply_query, query. by rewrite !bind_assoc, bind_logger. Qed.

(** X4. A column with a cell that is not a [str] cannot be processed:
    [get_fuzzy_column] raises, whatever the object and the other cells; and
    when that cell is the first of the column, on valid arguments, what is
    raised is the [ValueError] of [query] that names the value and its type. *)
Theorem non_string_cell_raises (self : Fuzzy) (dataframe : DataFrame)
    (col_name : value) (null_return : option value) (w : world)
    (cells : list value) (cls r : string) :
  get_column dataframe col_name = Some cells →
  (VObj cls r ∈ cells →
   ∃ e w', get_fuzzy_column self dataframe col_name null_return w = (Raise e, w'))
  ∧ (has_column dataframe col_name = true →
     (∀ cls' r', null_return ≠ Some (VObj cls' r')) →
     ∀ rest, cells = VObj cls r :: rest →
     (get_fuzzy_column self dataframe col_name null_return w).1
     = Raise (Exception ValueError
                [r +:+ " is type " +:+ type_repr (VObj cls r) +:+ " not string"])).
Proof.
  intros Hcells. split.
  - intros Hin.
    destruct (get_fuzzy_column self dataframe col_name null_return w)
      as [[fuzzy_col|e] w'] eqn:E; [|by eauto].
    exfalso. apply get_fuzzy_column_ok_inv in E
      as (cells' & wa & wb & _ & Hcells' & _ & Hrun).
    rewrite Hcells in Hcells'. injection Hcells' as <-.
    destruct (series_apply_ok _ _ _ _ _ Hrun) as [_ Hall].
    apply list_elem_of_lookup in Hin as [i Hi].
    destruct (Hall i _ Hi) as (y & wi & wi' & Hy & _).
    destruct (apply_query_non_string self
                match null_return with Some (VStr x) => Some x | _ => None end
                cls r wi) as [w2 H2].
    by rewrite H2 in Hy.
  - intros Hcol Hnr rest ->. unfold get_fuzzy_column.
    rewrite bind_logger, Hcol. simpl negb. cbv iota. rewrite bind_ret.
    assert (∃ s, ∀ w0, check_null_return null_return w0 = (Ok s, w0)) as [s Hs].
    { destruct null_return as [[s|cls' r']|]; [by eexists..| |by eexists].
      by destruct (Hnr cls' r'). }
    rewrite (bind_ok _ _ _ _ _ (Hs _)), Hcells. cbn [series_apply].
    destruct (apply_query_non_string self s cls r
                (add_log w [LogRecord DEBUG "Creating fuzzy column for %s"
                              [py_str col_name]])) as [w2 H2].
    by rewrite (bind_raise _ _ _ _ _ H2).
Qed.

Lemma get_column_has_column df col cells :
  get_column df col = Some cells → has_column df col = true.
Proof.
  unfold has_column, columns. intros H. apply bool_decide_eq_true.
  induction df as [|[c old] df IH]; simpl in *; [done|].
  destruct (decide (c = col)) as [->|?]; [by left|]. right. by apply IH.
Qed.

(** A column of values none of which has a match: every call of the closure
    returns, with the sentinel or else the value. *)
Lemma series_apply_misses (self : Fuzzy) index sym nr qs :
  index_dictionary self = Some index → sym_spell self = Some sym →
  Forall (misses self sym) qs →
  ∀ w, (series_apply (apply_query self nr) (VStr <$> qs) w).1
       = Ok ((λ q, default q nr) <$> qs).
Proof.
  intros Hi Hs Hall.
  induction Hall as [|q qs Hq _ IH]; intros w; [done|].
  simpl. unfold bind at 1.
  pose proof (apply_query_miss self index sym q nr w Hi Hs Hq) as Ha.
  destruct (apply_query self nr (VStr q) w) as [r w1]. simpl in Ha. subst r.
  unfold bind at 1. specialize (IH w1).
  destruct (series_apply _ _ w1) as [r w2]. simpl in IH. by subst r.
Qed.

End QueryAnswers.

Lemma query_answer_witness :
  ∃ q index sym,
    VStr "siting" = VStr q ∧ index_dictionary demo_fuzzy = Some index
    ∧ sym_spell demo_fuzzy = Some sym
    ∧ ∃ top rest,
        lookup sym (max_edit_distance_dictionary demo_fuzzy)
          (preprocess (preprocesser demo_fuzzy) q) true = top :: rest
        ∧ (distance top ≤ max_edit_distance_dictionary demo_fuzzy)%Z
        ∧ index !! term top = Some "sitting".
Proof.
  eapply (query_answer (Engine := RefEngine.engine) demo_fuzzy (VStr "siting")
            (fresh []) _ "sitting" true).
  vm_compute. reflexivity.
Defined.

Lemma get_fuzzy_column_rows_witness :
  ∃ cells,
    get_column test_left_df (VStr "sCol") = Some cells
    ∧ length ["kitten"; "sitting"; "NULL"; "NULL"; "NULL"]
      = length cells
    ∧ ∀ i v, cells !! i = Some v →
        ∃ out found,
          (∀ w0, (query demo_fuzzy v w0).1 = Ok (out, found))
          ∧ ["kitten"; "sitting"; "NULL"; "NULL"; "NULL"]
              !! i
            = Some (if found then out else "NULL").
Proof.
  eapply (get_fuzzy_column_rows (Engine := RefEngine.engine) demo_fuzzy
            test_left_df (VStr "sCol") (Some (VStr "NULL")) (fresh [])).
  vm_compute. reflexivity.
Defined.

Lemma non_string_cell_raises_witness :
  ∃ e w',
    get_fuzzy_column demo_fuzzy [(VStr "n", [VStr "kitten"; VObj "int" "42"])] (VStr "n")
      None (fresh [])
    = (Raise e, w').
Proof.
  apply (non_string_cell_raises (Engine := RefEngine.engine) demo_fuzzy
           [(VStr "n", [VStr "kitten"; VObj "int" "42"])] (VStr "n") None (fresh [])
           [VStr "kitten"; VObj "int" "42"] "int" "42" eq_refl).
  apply list_elem_of_here || (apply list_elem_of_further, list_elem_of_here).
Defined.

(** ** More on the normalizer *)

Lemma feed_lstrip s : Py.feed (Py.lstrip s) ("", []) = Py.feed s ("", [])
                      ∨ (Py.feed (Py.lstrip s) ("", [])).1 ≠ ""
                        ∧ Py.split (Py.lstrip s) = Py.split s.
Proof.
  induction s as [|c s IH]; [by left|]. simpl.
  destruct (Py.isspace c) eqn:Ec; [|by left].
  unfold Py.split_step. rewrite Ec.
  destruct IH as [IH|[Hne IH]].
  - destruct (Py.feed s ("", [])) as [[|d u] ws] eqn:E; simpl.
    + left. by rewrite IH.
    + right. rewrite IH. split; [done|]. rewrite !split_eq. simpl.
      unfold Py.split_step. by rewrite Ec, IH, E.
  - right. split; [done|]. rewrite IH. rewrite !split_eq. simpl.
    unfold Py.split_step. rewrite Ec. simpl.
    by destruct (Py.feed s ("", [])) as [[|d u] ws].
Qed.

Lemma split_lstrip s : Py.split (Py.lstrip s) = Py.split s.
Proof.
  destruct (feed_lstrip s) as [H|[_ H]]; [|done]. by rewrite !split_eq, H.
Qed.

Lemma feed_rstrip s : Py.feed (Py.rstrip s) ("", []) = Py.feed s ("", []).
Proof.
  induction s as [|c s IH]; [done|]. simpl.
  destruct (Py.rstrip s) as [|d r] eqn:E.
  - simpl in IH. rewrite <-IH.
    destruct (Py.isspace c) eqn:Ec; simpl; [|done].
    unfold Py.split_step. by rewrite Ec.
  - simpl. simpl in IH. by rewrite IH.
Qed.

Lemma split_strip s : Py.split (Py.strip s) = Py.split s.
Proof. unfold Py.strip. by rewrite split_eq, feed_rstrip, <-split_eq, split_lstrip. Qed.

Lemma split_line s : Py.split (s +:+ nl) = Py.split s.
Proof. by rewrite !split_eq, feed_app. Qed.

Section Normalizer.
Variable self : PreProcessor.
Hypothesis screened_no_space :
  Forall (λ c, Py.isspace c = false) (Py.chars (screened_chars self)).

Lemma preprocess_strip s : preprocess self (Py.strip s) = preprocess self s.
Proof. apply preprocess_word_order_when; [done|]. by rewrite split_strip. Qed.

Lemma preprocess_line s : preprocess self (s +:+ nl) = preprocess self s.
Proof. apply preprocess_word_order_when; [done|]. by rewrite split_line. Qed.

Lemma preprocess_no_words s : Py.split s = [] → preprocess self s = "".
Proof.
  intros H. rewrite preprocess_eq, (screened_split _ _ screened_no_space), H.
  reflexivity.
Qed.

End Normalizer.

(** X5. Whitespace around a text does not count: a text, the text stripped
    and the text followed by a line feed have the same canonical form,
    whenever no screened character is whitespace. So the line that
    [preprocess_corpus] files and the original that [create_index] keys are
    the same dictionary term. *)
Theorem preprocess_ignores_surrounding_space (self : PreProcessor) (s : string) :
  Forall (λ c, Py.isspace c = false) (Py.chars (screened_chars self)) →
  preprocess self (Py.strip s) = preprocess self s
  ∧ preprocess self (s +:+ nl) = preprocess self s
  ∧ preprocess self (Py.strip (s +:+ nl)) = preprocess self s.
Proof.
  intros H. split; [by apply preprocess_strip|].
  split; [by apply preprocess_line|].
  by rewrite preprocess_strip, preprocess_line.
Qed.

Lemma preprocess_ignores_surrounding_space_witness :
  preprocess PreProcessor_init (Py.strip "  The Best ")
  = preprocess PreProcessor_init "  The Best "
  ∧ preprocess PreProcessor_init ("  The Best " +:+ nl)
    = preprocess PreProcessor_init "  The Best "
  ∧ preprocess PreProcessor_init (Py.strip ("  The Best " +:+ nl))
    = preprocess PreProcessor_init "  The Best ".
Proof.
  apply (preprocess_ignores_surrounding_space PreProcessor_init "  The Best ").
  apply default_screened_no_space.
Defined.

(** X6. The canonical form of the default normalizer is in lower case and
    holds none of the screened characters. *)
Theorem preprocess_clean (s : string) :
  Forall (λ c, Py.lower_char c = c
               ∧ c ∉ Py.chars (screened_chars PreProcessor_init))
    (Py.chars (preprocess PreProcessor_init s)).
Proof.
  apply preprocess_chars, Forall_forall. intros c Hc _. split.
  - destruct (elem_of_chars_screen _ _ _ Hc) as [Hand|Hlow].
    + revert Hand. simpl. rewrite !elem_of_cons, elem_of_nil.
      intros [->|[->|[->|[->|[->|[]]]]]]; reflexivity.
    + rewrite chars_lower in Hlow.
      apply list_elem_of_fmap in Hlow as (x & -> & _). apply lower_char_idemp.
  - intros Hin.
    by apply (screen_clean _ (Py.lower s) c default_screened_no_and Hin).
Qed.

Lemma screen_step_sub t c x :
  "&"%char ∉ Py.chars t → x ∈ Py.chars (screen_step t c) →
  x ∈ Py.chars t ∧ "&"%char ∉ Py.chars (screen_step t c).
Proof.
  intros Hamp. unfold screen_step. destruct (Ascii.eqb_spec c "&") as [->|Hc].
  - by rewrite (replace_absent _ _ _ Hamp).
  - intros Hx. split.
    + by destruct (elem_of_chars_replace _ _ _ _ Hx) as [?%elem_of_nil|[_ ?]].
    + intros H. by destruct (elem_of_chars_replace _ _ _ _ H) as [?%elem_of_nil|[_ ?]].
Qed.

Lemma screen_step_amp t c :
  "&"%char ∉ Py.chars t → "&"%char ∉ Py.chars (screen_step t c).
Proof.
  intros Hamp H. by destruct (screen_step_sub t c _ Hamp H).
Qed.

(** Without an ampersand in the text, screening only takes characters out. *)
Lemma screen_sub cs : ∀ t x,
  "&"%char ∉ Py.chars t → x ∈ Py.chars (screen cs t) → x ∈ Py.chars t.
Proof.
  induction cs as [|c cs IH]; intros t x Hamp Hx; [done|].
  unfold screen in *. simpl in Hx.
  apply IH in Hx; [|by apply screen_step_amp].
  by destruct (screen_step_sub t c x Hamp Hx).
Qed.

Lemma split_nil_of_spaces t :
  Forall (λ c, Py.isspace c = true) (Py.chars t) → Py.split t = [].
Proof.
  intros Ht.
  pose proof (split_words (λ _, False) t) as H.
  destruct (Py.split t) as [|w ws]; [done|]. exfalso.
  assert (Forall (λ c, Py.isspace c = false → False) (Py.chars t)) as Hf.
  { eapply Forall_impl; [exact Ht|]. simpl. intros c -> ?. done. }
  apply H, Forall_cons in Hf as [[Hne Hw] _].
  destruct w as [|c w]; [done|]. by apply Forall_cons in Hw as [? _].
Qed.

Lemma lower_char_amp c : Py.lower_char c = "&"%char → c = "&"%char.
Proof. by destruct c as [[] [] [] [] [] [] [] []]. Qed.

Lemma default_screened_lower :
  Forall (λ c, Py.lower_char c = c) (Py.chars (screened_chars PreProcessor_init)).
Proof. repeat constructor. Qed.

(** X7. A text made of nothing but whitespace and screened characters other
    than the ampersand, the empty text among them, has the empty canonical
    form (default normalizer). *)
Theorem preprocess_empty (s : string) :
  Forall (λ c, Py.isspace c = true
               ∨ (c ∈ Py.chars (screened_chars PreProcessor_init)
                  ∧ c ≠ "&"%char)) (Py.chars s) →
  preprocess PreProcessor_init s = "".
Proof.
  intros Hs.
  assert ("&"%char ∉ Py.chars (Py.lower s)) as Hamp.
  { rewrite chars_lower. intros (c & Hc & Hin)%list_elem_of_fmap.
    symmetry in Hc. apply lower_char_amp in Hc as ->.
    by destruct (proj1 (Forall_forall _ _) Hs _ Hin) as [?|[_ ?]]. }
  rewrite preprocess_eq. unfold screened.
  rewrite split_nil_of_spaces; [done|].
  apply Forall_forall. intros x Hx.
  pose proof (screen_clean _ (Py.lower s) x default_screened_no_and) as Hclean.
  apply screen_sub in Hx as Hlow; [|done].
  rewrite chars_lower in Hlow. apply list_elem_of_fmap in Hlow as (c & -> & Hin).
  destruct (proj1 (Forall_forall _ _) Hs _ Hin) as [Hws|[Hscr _]].
  - by rewrite lower_char_space.
  - pose proof (proj1 (Forall_forall _ _) default_screened_lower _ Hscr) as Hl.
    rewrite Hl in Hx, Hclean. by destruct (Hclean Hscr).
Qed.

Lemma preprocess_empty_witness : preprocess PreProcessor_init " - (!) " = "".
Proof.
  apply preprocess_empty. apply (bool_decide_unpack _). vm_compute. exact I.
Defined.

(** ** The class, method by method *)

Lemma for_each_write_gen {A} p (f : A → string) xs : ∀ w s,
  files w !! p = Some s →
  for_each xs (λ x, file_write p (f x)) w
  = (Ok (), World (<[p := s +:+ Py.join (f <$> xs)]> (files w))
              (log w) (left_dataframe w)).
Proof.
  induction xs as [|x xs IH]; intros w s Hs; simpl.
  - unfold ret. rewrite app_empty_r, (insert_id _ _ _ Hs). by destruct w.
  - rewrite bind_file_write, Hs. simpl.
    erewrite IH by apply lookup_insert_eq. simpl.
    by rewrite insert_insert_eq, !app_assoc'.
Qed.

Lemma bind_logger_with_file {B} lvl m a (k : unit → M B) w p t recs :
  bind (logger lvl m a) k (with_file w p t recs)
  = k () (with_file w p t (recs ++ [LogRecord lvl m a])).
Proof. rewrite bind_logger. unfold add_log, with_file. simpl. by rewrite app_assoc. Qed.

Lemma add_log_with_file w p t recs recs' :
  add_log (with_file w p t recs) recs' = with_file w p t (recs ++ recs').
Proof. unfold add_log, with_file. simpl. by rewrite app_assoc. Qed.

Lemma with_file_of_add_log w p t recs :
  World (<[p := t]> (files (add_log w recs))) (log (add_log w recs))
    (left_dataframe (add_log w recs))
  = with_file w p t recs.
Proof. reflexivity. Qed.

Section Methods.
Context `{Engine : SymSpellEngine}.

Lemma check_corpus_missing (self : Fuzzy) w c :
  corpus self = Some c → files w !! c = None →
  check_corpus self w
  = (Raise (Exception FileNotFoundError ["Corpus file " +:+ c +:+ " not found"]),
     add_log w [LogRecord DEBUG "Checking corpus file %s" [c];
                LogRecord ERROR "Corpus file %s not found" [c]]).
Proof.
  intros Hc Hf. unfold check_corpus. rewrite Hc, bind_logger.
  rewrite bind_path_exists, files_add_log, Hf.
  rewrite bool_decide_eq_false_2 by (by intros [? ?]).
  change (negb false) with true. cbv iota.
  by rewrite bind_logger, add_log_add_log.
Qed.

Lemma check_corpus_none (self : Fuzzy) w :
  corpus self = None →
  check_corpus self w
  = (Ok (), add_log w [LogRecord DEBUG "Checking corpus file %s" ["None"];
                       LogRecord WARNING "Corpus file not defined" []]).
Proof.
  intros Hc. unfold check_corpus. rewrite Hc, bind_logger.
  unfold logger. by rewrite add_log_add_log.
Qed.

Lemma preprocess_corpus_run (self : Fuzzy) w c content :
  _preprocess_flag self = false → corpus self = Some c →
  files w !! c = Some content →
  preprocess_corpus self w
  = (Ok (set_processed self c (processed_path c)),
     with_file w (processed_path c)
       (processed_text (preprocesser self) content)
       [LogRecord DEBUG "Preprocessing corpus file %s" [c];
        LogRecord DEBUG "Checking corpus file %s" [c];
        LogRecord DEBUG "Corpus file found" [];
        LogRecord DEBUG "Corpus processed to %s" [processed_path c]]).
Proof.
  intros Hflag Hc Hf. unfold preprocess_corpus.
  rewrite bind_logger, Hflag, Hc. cbv iota. simpl fmt_opt.
  erewrite bind_ok by (by apply (check_corpus_found _ _ c)).
  rewrite add_log_add_log.
  rewrite (bind_open_r _ _ _ content) by done.
  fold (processed_path c). rewrite bind_open_w.
  erewrite bind_ok
    by (apply (for_each_write_gen (processed_path c)
                 (λ line, preprocess (preprocesser self) line +:+ nl));
        apply lookup_insert_eq).
  simpl files. rewrite insert_insert_eq, app_empty_l.
  rewrite bind_logger. unfold ret, add_log, with_file. simpl.
  by rewrite <-app_assoc.
Qed.

Lemma create_symspell_dict_run (self : Fuzzy) w c :
  corpus self = Some c → is_Some (files w !! c) →
  create_symspell_dict self w
  = match SymSpell_init (max_edit_distance_dictionary self) (prefix_length self) with
    | inl ex =>
        (Raise ex,
         add_log w [LogRecord DEBUG "Creating SymSpell dictionary" [];
                    LogRecord DEBUG "Checking corpus file %s" [c];
                    LogRecord DEBUG "Corpus file found" [];
                    LogRecord ERROR "Failure to create SymSpell object!" []])
    | inr sym =>
        (Ok (set_sym_spell self (create_dictionary sym (files w !! c))),
         add_log w [LogRecord DEBUG "Creating SymSpell dictionary" [];
                    LogRecord DEBUG "Checking corpus file %s" [c];
                    LogRecord DEBUG "Corpus file found" []])
    end.
Proof.
  intros Hc Hf. unfold create_symspell_dict. rewrite bind_logger.
  erewrite bind_ok by (by apply (check_corpus_found _ _ c)).
  rewrite add_log_add_log.
  destruct (SymSpell_init _ _) as [ex|sym].
  - by rewrite bind_logger, add_log_add_log.
  - cbv beta zeta. rewrite files_add_log.
    replace (corpus self ≫= λ c0, files w !! c0) with (files w !! c)
      by (by rewrite Hc).
    reflexivity.
Qed.

(** [create_index] on a processed object, in any world that has the two
    files: the dictionary and the records are those of the loop. *)
Lemma create_index_exact (self : Fuzzy) c u content :
  _preprocess_flag self = true → corpus self = Some c →
  unprocessed_corpus self = Some u →
  ∃ index notices,
    (∀ k, index !! k =
          Py.strip <$>
            head (filter (λ l, index_key (preprocesser self) l = k)
                    (readlines content)))
    ∧ Forall (λ r, msg r = conflict_msg) notices
    ∧ ∀ w, is_Some (files w !! c) → files w !! u = Some content →
        create_index self w
        = (Ok (set_index_dictionary self index),
           add_log w
             ([LogRecord DEBUG "Creating corpus index" [];
               LogRecord DEBUG "Checking corpus file %s" [c];
               LogRecord DEBUG "Corpus file found" []]
              ++ (if bool_decide (is_Some (index_dictionary self))
                  then [LogRecord WARNING
                          "index_dictionary already created. Overwritting." []]
                  else [])
              ++ notices ++ [LogRecord DEBUG "Corpus index created" []])).
Proof.
  intros Hflag Hc Hu.
  destruct (index_loop (preprocesser self) (readlines content) ∅)
    as (index & notices & Hrun & Hall & Hlk & _).
  exists index, notices. split; [|split; [done|]].
  { intros k. by rewrite Hlk, lookup_empty. }
  intros w Hcf Huf. unfold create_index. rewrite bind_logger.
  erewrite bind_ok by (by apply (check_corpus_found _ _ c)).
  rewrite add_log_add_log.
  set (warn := if bool_decide (is_Some (index_dictionary self))
               then [LogRecord WARNING
                       "index_dictionary already created. Overwritting." []]
               else []).
  match goal with
  | |- context [bind ?m _ (add_log w ?pre)] =>
      assert (m (add_log w pre) = (Ok (), add_log w (pre ++ warn))) as Hw
  end.
  { subst warn. destruct (bool_decide (is_Some (index_dictionary self))).
    - unfold logger. by rewrite add_log_add_log.
    - unfold ret. by rewrite app_nil_r. }
  rewrite (bind_ok _ _ _ _ _ Hw). rewrite Hflag, Hu.
  change (negb true) with false. cbv iota.
  rewrite bind_path_exists, files_add_log, Huf.
  rewrite bool_decide_eq_true_2 by done.
  change (negb true) with false. cbv iota.
  rewrite (bind_open_r _ _ _ content) by done.
  rewrite (bind_ok _ _ _ _ _ (Hrun _)), add_log_add_log.
  rewrite bind_logger, add_log_add_log. unfold ret, set_index_dictionary.
  by rewrite <-!app_assoc, Hflag, Hu.
Qed.

End Methods.

Section Init.
Context `{Engine : SymSpellEngine}.

(** [Fuzzy.__init__] on a corpus file that is there, in full: the object it
    builds, or the exception of the engine's constructor, and the world it
    leaves, with the processed corpus written and nothing else changed but
    the log. Object and records do not depend on the world. *)
Lemma Fuzzy_init_run c pp m p content :
  ∃ index recs_raise recs_ok,
    (∀ k, index !! k =
          Py.strip <$>
            head (filter (λ l, index_key (default PreProcessor_init pp) l = k)
                    (readlines content)))
    ∧ ∀ w, files w !! c = Some content →
        Fuzzy_init (Some c) pp m p w
        = match SymSpell_init m p with
          | inl ex =>
              (Raise ex,
               with_file w (processed_path c)
                 (processed_text (default PreProcessor_init pp) content)
                 recs_raise)
          | inr sym =>
              (Ok (set_index_dictionary
                     (set_sym_spell
                        (set_processed (blank (Some c) pp m p) c (processed_path c))
                        (create_dictionary sym
                           (Some (processed_text
                                    (default PreProcessor_init pp) content))))
                     index),
               with_file w (processed_path c)
                 (processed_text (default PreProcessor_init pp) content)
                 recs_ok)
          end.
Proof.
  set (pc := processed_path c).
  set (ptext := processed_text (default PreProcessor_init pp) content).
  assert (pc ≠ c) as Hne by apply processed_corpus_ne.
  assert (∀ w, files w !! c = Some content →
            Fuzzy_init (Some c) pp m p w
            = bind (create_symspell_dict
                      (set_processed (blank (Some c) pp m p) c pc))
                create_index
                (with_file w pc ptext
                   [LogRecord DEBUG "Checking corpus file %s" [c];
                    LogRecord DEBUG "Corpus file found" [];
                    LogRecord DEBUG "Preprocessing corpus file %s" [c];
                    LogRecord DEBUG "Checking corpus file %s" [c];
                    LogRecord DEBUG "Corpus file found" [];
                    LogRecord DEBUG "Corpus processed to %s" [pc]])) as Hhead.
  { intros w Hc. unfold Fuzzy_init. fold (blank (Some c) pp m p).
    erewrite bind_ok by (by apply (check_corpus_found _ _ c)).
    erewrite bind_ok by (by apply (preprocess_corpus_run _ _ c content)).
    cbn [_preprocess_flag set_processed]. fold pc.
    unfold with_file, add_log. simpl. by rewrite <-app_assoc. }
  assert (∀ w recs, files w !! c = Some content →
            create_symspell_dict (set_processed (blank (Some c) pp m p) c pc)
              (with_file w pc ptext recs)
            = match SymSpell_init m p with
              | inl ex =>
                  (Raise ex,
                   with_file w pc ptext
                     (recs ++
                      [LogRecord DEBUG "Creating SymSpell dictionary" [];
                       LogRecord DEBUG "Checking corpus file %s" [pc];
                       LogRecord DEBUG "Corpus file found" [];
                       LogRecord ERROR "Failure to create SymSpell object!" []]))
              | inr sym =>
                  (Ok (set_sym_spell (set_processed (blank (Some c) pp m p) c pc)
                         (create_dictionary sym (Some ptext))),
                   with_file w pc ptext
                     (recs ++
                      [LogRecord DEBUG "Creating SymSpell dictionary" [];
                       LogRecord DEBUG "Checking corpus file %s" [pc];
                       LogRecord DEBUG "Corpus file found" []]))
              end) as Hsym.
  { intros w recs Hc.
    rewrite (create_symspell_dict_run _ _ pc);
      [|done|by (simpl; rewrite lookup_insert_eq)].
    change (max_edit_distance_dictionary
              (set_processed (blank (Some c) pp m p) c pc)) with m.
    change (prefix_length (set_processed (blank (Some c) pp m p) c pc)) with p.
    destruct (SymSpell_init m p) as [ex|sym]; rewrite add_log_with_file; [done|].
    simpl files. by rewrite lookup_insert_eq. }
  destruct (SymSpell_init m p) as [ex|sym] eqn:Einit.
  - destruct (create_index_exact
                (set_processed (blank (Some c) pp m p) c pc) pc c content
                eq_refl eq_refl eq_refl)
      as (index & notices & Hlk & _ & _).
    exists index. eexists. exists []. split; [exact Hlk|].
    intros w Hc. rewrite (Hhead w Hc).
    erewrite bind_raise; [reflexivity|]. by rewrite (Hsym w _ Hc).
  - destruct (create_index_exact
                (set_sym_spell (set_processed (blank (Some c) pp m p) c pc)
                   (create_dictionary sym (Some ptext)))
                pc c content eq_refl eq_refl eq_refl)
      as (index & notices & Hlk & _ & Hidx).
    exists index, []. eexists. split; [exact Hlk|].
    intros w Hc. rewrite (Hhead w Hc).
    erewrite bind_ok by (by rewrite (Hsym w _ Hc)).
    rewrite Hidx.
    + rewrite add_log_with_file. reflexivity.
    + simpl. rewrite lookup_insert_eq. by eexists.
    + simpl. by rewrite lookup_insert_ne.
Qed.

(** X8. The constructor needs the corpus file. Without a path, which is the
    default of [input_corpus], or with a path at which there is no file, it
    raises [FileNotFoundError]: in the first case the one of
    [preprocess_corpus], since the test [if preprocess:] always holds, in the
    second the one of [check_corpus]. Nothing is written but the log. *)
Theorem Fuzzy_init_needs_corpus_file (input_corpus : option string)
    (preprocesser_arg : option PreProcessor)
    (max_edit_distance_dictionary_arg prefix_length_arg : Z) (w : world) :
  input_corpus ≫= (λ c, files w !! c) = None →
  ∃ recs,
    Fuzzy_init input_corpus preprocesser_arg max_edit_distance_dictionary_arg
      prefix_length_arg w
    = (Raise (Exception FileNotFoundError
                [match input_corpus with
                 | None => "self.corpus must be specified before pre-processing"
                 | Some c => "Corpus file " +:+ c +:+ " not found"
                 end]),
       add_log w recs).
Proof.
  intros H. unfold Fuzzy_init. destruct input_corpus as [c|]; simpl in H.
  - eexists. erewrite bind_raise; [reflexivity|].
    by apply check_corpus_missing.
  - eexists. erewrite bind_ok by (by apply check_corpus_none).
    unfold preprocess_corpus. cbn [corpus _preprocess_flag].
    rewrite bind_assoc, bind_logger, add_log_add_log.
    rewrite bind_assoc, bind_logger, add_log_add_log.
    reflexivity.
Qed.

(** X9. The constructor on a corpus file that is there. It writes the
    processed corpus, the canonical form of each line, beside the corpus, and
    touches no other file and not the left table. Then it either raises what
    the constructor of the engine raises, or returns an object that is
    processed, points to both files, holds the engine loaded with the text of
    the processed corpus and the dictionary from each key to the original of
    the first line with this key, and keeps the arguments it was given. *)
Theorem Fuzzy_init_ready (c : string) (preprocesser_arg : option PreProcessor)
    (max_edit_distance_dictionary_arg prefix_length_arg : Z) (w : world)
    (content : string) :
  files w !! c = Some content →
  ∃ w',
    files w'
    = <[processed_path c :=
          processed_text (default PreProcessor_init preprocesser_arg) content]>
        (files w)
    ∧ left_dataframe w' = left_dataframe w
    ∧ match SymSpell_init max_edit_distance_dictionary_arg prefix_length_arg with
      | inl ex =>
          Fuzzy_init (Some c) preprocesser_arg max_edit_distance_dictionary_arg
            prefix_length_arg w = (Raise ex, w')
      | inr sym =>
          ∃ self index,
            Fuzzy_init (Some c) preprocesser_arg
              max_edit_distance_dictionary_arg prefix_length_arg w
            = (Ok self, w')
            ∧ is_preprocessed self = true
            ∧ unprocessed_corpus self = Some c
            ∧ corpus self = Some (processed_path c)
            ∧ sym_spell self
              = Some (create_dictionary sym
                        (Some (processed_text
                                 (default PreProcessor_init preprocesser_arg)
                                 content)))
            ∧ index_dictionary self = Some index
            ∧ (∀ k, index !! k =
                    Py.strip <$>
                      head (filter
                              (λ l, index_key
                                      (default PreProcessor_init preprocesser_arg)
                                      l = k)
                              (readlines content)))
            ∧ max_edit_distance_dictionary self = max_edit_distance_dictionary_arg
            ∧ prefix_length self = prefix_length_arg
            ∧ preprocesser self = default PreProcessor_init preprocesser_arg
      end.
Proof.
  intros Hc.
  destruct (Fuzzy_init_run c preprocesser_arg max_edit_distance_dictionary_arg
              prefix_length_arg content)
    as (index & recs_raise & recs_ok & Hlk & Hrun).
  specialize (Hrun w Hc).
  destruct (SymSpell_init _ _) as [ex|sym].
  - eexists. split; [|split; [|exact Hrun]]; done.
  - eexists. split; [|split; [|eexists _, index; split; [exact Hrun|]]]; done.
Qed.

(** X10. [preprocess_corpus] works once. On an object that is not yet
    processed and whose corpus file is there, it writes the processed corpus,
    turns the flag on and swaps the paths; called again on the object it
    returned, in any world, it returns the object as it is and only logs: the
    corpus is not read again, even if it has changed. *)
Theorem preprocess_corpus_once (self : Fuzzy) (w : world) (c content : string) :
  is_preprocessed self = false → corpus self = Some c →
  files w !! c = Some content →
  ∃ self1 w1,
    preprocess_corpus self w = (Ok self1, w1)
    ∧ is_preprocessed self1 = true
    ∧ unprocessed_corpus self1 = Some c
    ∧ corpus self1 = Some (processed_path c)
    ∧ files w1
      = <[processed_path c := processed_text (preprocesser self) content]>
          (files w)
    ∧ left_dataframe w1 = left_dataframe w
    ∧ ∀ w2, ∃ recs, preprocess_corpus self1 w2 = (Ok self1, add_log w2 recs).
Proof.
  intros Hflag Hc Hf. eexists _, _.
  split; [by apply (preprocess_corpus_run self w c content)|].
  do 5 (split; [done|]).
  intros w2. eexists. unfold preprocess_corpus.
  cbn [_preprocess_flag set_processed].
  rewrite bind_logger, bind_logger, add_log_add_log. reflexivity.
Qed.

End Init.

Lemma Fuzzy_init_needs_corpus_file_witness :
  ∃ recs,
    Fuzzy_init (Engine := RefEngine.engine) (Some "corpus.txt") None 2 7
      (fresh [])
    = (Raise (Exception FileNotFoundError ["Corpus file corpus.txt not found"]),
       add_log (fresh []) recs).
Proof.
  apply (Fuzzy_init_needs_corpus_file (Engine := RefEngine.engine)
           (Some "corpus.txt") None 2 7 (fresh [])).
  reflexivity.
Defined.

Lemma Fuzzy_init_ready_witness :
  ∃ self w',
    Fuzzy_init (Engine := RefEngine.engine) (Some "twin.txt") None 2 7 twin_world
    = (Ok self, w')
    ∧ is_preprocessed self = true
    ∧ corpus self = Some "preprocessed_twin.txt".
Proof.
  destruct (Fuzzy_init_ready (Engine := RefEngine.engine)
              "twin.txt" None 2 7 twin_world twin_corpus eq_refl)
    as (w' & _ & _ & self & index & Hrun & Hflag & _ & Hc & _).
  exists self, w'. split; [exact Hrun|]. split; [exact Hflag|exact Hc].
Defined.

Lemma preprocess_corpus_once_witness :
  ∃ self1 w1,
    preprocess_corpus (blank (Engine := RefEngine.engine) (Some "twin.txt") None 2 7)
      twin_world = (Ok self1, w1)
    ∧ is_preprocessed self1 = true
    ∧ files w1 !! "preprocessed_twin.txt"
      = Some ("bestthe" +:+ nl +:+ "bestthe" +:+ nl).
Proof.
  destruct (preprocess_corpus_once (Engine := RefEngine.engine)
              (blank (Some "twin.txt") None 2 7) twin_world "twin.txt"
              twin_corpus eq_refl eq_refl eq_refl)
    as (self1 & w1 & Hrun & Hflag & _ & _ & Hfiles & _).
  exists self1, w1. split; [exact Hrun|]. split; [exact Hflag|].
  rewrite Hfiles. reflexivity.
Defined.

(** ** The processed corpus and the dictionary *)

Lemma preprocess_single_line self s : single_line (preprocess self s).
Proof.
  apply preprocess_chars, Forall_forall. intros c _ Hws.
  split; intros ->; done.
Qed.

Lemma readlines_lines xs :
  Forall single_line xs →
  readlines (Py.join ((λ x, x +:+ nl) <$> xs)) = (λ x, x +:+ nl) <$> xs.
Proof.
  induction 1 as [|x xs Hx _ IH]; [done|].
  simpl. rewrite app_assoc', (readlines_line _ _ Hx). by f_equal.
Qed.

Lemma readlines_processed_text self content :
  readlines (processed_text self content)
  = (λ l, preprocess self l +:+ nl) <$> readlines content.
Proof.
  unfold processed_text.
  assert ((λ l, preprocess self l +:+ nl) <$> readlines content
          = (λ x, x +:+ nl) <$> (preprocess self <$> readlines content)) as ->
    by (by rewrite <-list_fmap_compose).
  rewrite readlines_lines; [done|].
  apply Forall_fmap, Forall_forall. intros l _. apply preprocess_single_line.
Qed.

(** X11. Processing a processed corpus gives it back: when no screened
    character is whitespace or a letter of the word that stands for the
    ampersand, the text that [preprocess_corpus] would write for the file it
    has written is that file again, line for line. *)
Theorem processed_text_fixed (self : PreProcessor) (content : string) :
  Forall (λ c, Py.isspace c = false) (Py.chars (screened_chars self)) →
  Forall (λ c, c ∉ Py.chars " and ") (Py.chars (screened_chars self)) →
  readlines (processed_text self content)
  = (λ l, preprocess self l +:+ nl) <$> readlines content
  ∧ processed_text self (processed_text self content)
    = processed_text self content.
Proof.
  intros Hws Hand. split; [apply readlines_processed_text|].
  unfold processed_text at 1. rewrite readlines_processed_text.
  unfold processed_text. f_equal.
  rewrite <-list_fmap_compose. apply list_fmap_ext. intros _ l _. simpl.
  by rewrite (preprocess_line _ Hws), (preprocess_idempotent_when _ _ Hand).
Qed.

Lemma processed_text_fixed_witness :
  processed_text PreProcessor_init (processed_text PreProcessor_init twin_corpus)
  = processed_text PreProcessor_init twin_corpus.
Proof.
  apply (processed_text_fixed PreProcessor_init twin_corpus).
  - apply default_screened_no_space.
  - apply default_screened_no_and.
Defined.

Section Vocabulary.
Context `{Engine : SymSpellEngine}.

(** X12. The dictionary of a built object and its processed corpus agree.
    Every entry maps a key to an original whose canonical form is that key,
    and the original is a stripped line of the corpus; and, when no screened
    character is whitespace, every line written to the processed corpus is a
    key of the dictionary, so that a term the engine takes from a line of
    that file is always found there. *)
Theorem corpus_terms_indexed (c : string) (preprocesser_arg : option PreProcessor)
    (max_edit_distance_dictionary_arg prefix_length_arg : Z) (w w' : world)
    (content : string) (self : Fuzzy) :
  files w !! c = Some content →
  Fuzzy_init (Some c) preprocesser_arg max_edit_distance_dictionary_arg
    prefix_length_arg w = (Ok self, w') →
  ∃ index,
    index_dictionary self = Some index
    ∧ (∀ k original,
         index !! k = Some original →
         preprocess (preprocesser self) original = k
         ∧ ∃ line, line ∈ readlines content ∧ original = Py.strip line)
    ∧ (Forall (λ c, Py.isspace c = false)
         (Py.chars (screened_chars (preprocesser self))) →
       ∀ line, line ∈ readlines content →
         is_Some (index !! preprocess (preprocesser self) line)).
Proof.
  intros Hc Hinit.
  destruct (Fuzzy_init_index _ _ _ _ _ _ _ _ Hc Hinit) as (index & Hidx & Hlk).
  destruct (Fuzzy_init_run c preprocesser_arg max_edit_distance_dictionary_arg
              prefix_length_arg content) as (? & ? & ? & _ & Hrun).
  rewrite (Hrun w Hc) in Hinit.
  assert (preprocesser self = default PreProcessor_init preprocesser_arg) as ->.
  { destruct (SymSpell_init _ _); [done|]. by injection Hinit as <- _. }
  exists index. split; [done|]. split.
  - intros k original. rewrite Hlk.
    destruct (head _) as [line|] eqn:Ehead; [|done]. intros [= <-].
    apply head_Some_elem_of, list_elem_of_filter in Ehead as [Hk Hin].
    split; [done|]. by exists line.
  - intros Hws line Hin. rewrite Hlk.
    destruct (head _) as [l|] eqn:Ehead; [by eexists|].
    apply head_None in Ehead.
    assert (line ∈ filter
              (λ l, index_key (default PreProcessor_init preprocesser_arg) l
                    = preprocess (default PreProcessor_init preprocesser_arg) line)
              (readlines content)) as Hl.
    { apply list_elem_of_filter. split; [|done].
      unfold index_key. by apply preprocess_strip. }
    rewrite Ehead in Hl. by apply elem_of_nil in Hl.
Qed.

End Vocabulary.

Lemma corpus_terms_indexed_witness :
  ∃ self w' index,
    Fuzzy_init (Engine := RefEngine.engine) (Some "twin.txt") None 2 7 twin_world
    = (Ok self, w')
    ∧ index_dictionary self = Some index
    ∧ (∀ k original,
         index !! k = Some original →
         preprocess (preprocesser self) original = k).
Proof.
  destruct (Fuzzy_init_run (Engine := RefEngine.engine) "twin.txt" None 2 7
              twin_corpus) as (index0 & recs_raise & recs_ok & _ & Hrun).
  specialize (Hrun twin_world eq_refl).
  destruct (corpus_terms_indexed (Engine := RefEngine.engine)
              "twin.txt" None 2 7 twin_world _ twin_corpus _ eq_refl Hrun)
    as (index & Hidx & Hback & _).
  eexists _, _, index. split; [exact Hrun|]. split; [exact Hidx|].
  intros k original Hk. exact (proj1 (Hback k original Hk)).
Defined.

(** ** The entry point: one pair *)

Lemma bind_get_left {B} (k : DataFrame → M B) w :
  bind get_left k w = k (left_dataframe w) w.
Proof. reflexivity. Qed.

Lemma bind_os_remove {B} p (k : unit → M B) w s :
  files w !! p = Some s →
  bind (os_remove p) k w
  = k () (World (delete p (files w)) (log w) (left_dataframe w)).
Proof. intros H. unfold bind, os_remove. by rewrite H. Qed.

Lemma no_slash_dict_name rc : no_slash rc → no_slash (dict_name rc).
Proof.
  unfold no_slash, dict_name. rewrite chars_app. intros H.
  apply Forall_app. split; [done|]. repeat constructor.
Qed.

Lemma processed_path_no_slash p :
  no_slash p → processed_path p = "preprocessed_" +:+ p.
Proof.
  intros H. unfold processed_path, os_path.dirname, os_path.basename.
  by rewrite (rsplit_no_slash _ H).
Qed.

Lemma processed_dict_name_ne rc : processed_dict_name rc ≠ dict_name rc.
Proof.
  unfold processed_dict_name. intros H. apply (f_equal String.length) in H.
  rewrite length_app' in H. simpl in H. lia.
Qed.



Lemma cleaned_cons fs rc rcs :
  cleaned fs (rc :: rcs) = cleaned (cleaned fs [rc]) rcs.
Proof. reflexivity. Qed.

Lemma cleaned_staged fs pp rc rows :
  cleaned (staged_files fs pp rc rows) [rc] = cleaned fs [rc].
Proof.
  unfold cleaned, staged_files. simpl. apply map_eq. intros k.
  destruct (decide (k = processed_dict_name rc)) as [->|Hp];
    [by rewrite !lookup_delete_eq|].
  rewrite !(lookup_delete_ne _ _ _ (not_eq_sym Hp)).
  destruct (decide (k = dict_name rc)) as [->|Hd];
    [by rewrite !lookup_delete_eq|].
  rewrite !(lookup_delete_ne _ _ _ (not_eq_sym Hd)).
  by rewrite !lookup_insert_ne.
Qed.

Section Pair.
Context `{Engine : SymSpellEngine}.

(** A turn of the first loop depends on [right_cols] and [i] through the
    name [right_cols[i]] only. *)
Lemma fuzzy_pair_lookup rdf rcs nr pp m i lc rc w :
  rcs !! i = Some rc →
  fuzzy_pair rdf rcs nr pp m i lc w = fuzzy_pair rdf [rc] nr pp m 0 lc w.
Proof. intros H. unfold fuzzy_pair. by rewrite H. Qed.

Lemma fuzzy_pair_no_column rdf nr pp m lc (rc : string) w :
  get_column rdf (VStr rc) = None →
  fuzzy_pair rdf [VStr rc] nr pp m 0 lc w
  = (Raise (Exception KeyError [rc]),
     World (<[dict_name rc := ""]> (files w)) (log w) (left_dataframe w)).
Proof.
  intros H. unfold fuzzy_pair. simpl. by rewrite bind_ret, bind_open_w, H.
Qed.


(** A turn of the first loop for a right column that is there and whose name
    has no slash, in full. Its outcome and the records it logs depend on the
    left table only; when it returns, the two staging files are gone, when
    it raises, they are left behind. *)
Lemma fuzzy_pair_run rdf nr pp m lc (rc : string) rows left :
  no_slash rc → get_column rdf (VStr rc) = Some rows →
  ∃ r recs, ∀ w,
    left_dataframe w = left →
    fuzzy_pair rdf [VStr rc] nr pp m 0 lc w
    = (r, World (match r with
                 | Ok _ => cleaned (files w) [rc]
                 | Raise _ =>
                     staged_files (files w) (default PreProcessor_init pp) rc rows
                 end) (log w ++ recs) left).
Proof.
  intros Hns Hrows.
  pose proof (processed_path_no_slash _ (no_slash_dict_name _ Hns)) as Hpc.
  fold (processed_dict_name rc) in Hpc.
  destruct (Fuzzy_init_run (dict_name rc) pp m 7 (corpus_text rows))
    as (index & recs_raise & recs_ok & _ & Hinit).
  rewrite Hpc in Hinit.
  assert (∀ w,
            fuzzy_pair rdf [VStr rc] nr pp m 0 lc w
            = bind (Fuzzy_init (Some (dict_name rc)) pp m 7)
                (λ fuzz_obj,
                   left <- get_left ;;
                   fuzzy_col <- get_fuzzy_column fuzz_obj left lc nr ;;
                   os_remove (dict_name rc) ;;;
                   os_remove ("preprocessed_" +:+ dict_name rc) ;;;
                   ret fuzzy_col)
                (World (<[dict_name rc := corpus_text rows]> (files w))
                   (log w) (left_dataframe w))) as Hhead.
  { intros w. unfold fuzzy_pair. simpl. fold (dict_name rc).
    rewrite bind_ret, bind_open_w, Hrows.
    erewrite bind_ok
      by (apply (for_each_write_from (dict_name rc) rows); apply lookup_insert_eq).
    simpl files. by rewrite insert_insert_eq, app_empty_l. }
  destruct (SymSpell_init m 7) as [ex|sym].
  - exists (Raise ex), recs_raise. intros w <-. rewrite Hhead.
    erewrite bind_raise; [reflexivity|].
    rewrite Hinit by (simpl; apply lookup_insert_eq). reflexivity.
  - match type of Hinit with
    | ∀ w, _ → _ = (Ok ?self, _) =>
        destruct (logs_only_get_fuzzy_column_aux self left lc nr)
          as (r & recs & Hcol)
    end.
    exists r, (recs_ok ++ recs). intros w <-. rewrite Hhead.
    erewrite bind_ok by (apply Hinit; simpl; apply lookup_insert_eq).
    rewrite bind_get_left. simpl left_dataframe.
    unfold bind at 1. rewrite Hcol.
    destruct r as [col|e].
    + erewrite bind_os_remove
        by (simpl; rewrite lookup_insert_ne by apply processed_dict_name_ne;
            apply lookup_insert_eq).
      erewrite bind_os_remove
        by (simpl; rewrite lookup_delete_ne
              by (apply not_eq_sym, processed_dict_name_ne);
            apply lookup_insert_eq).
      unfold ret. simpl. f_equal. f_equal; [|by rewrite app_assoc].
      apply (cleaned_staged (files w) (default PreProcessor_init pp) rc rows).
    + unfold add_log, with_file. simpl. by rewrite app_assoc.
Qed.

End Pair.

(** ** The entry point: the first loop *)

Lemma files_blind_bind_post {A B} (P : A → Prop) (m : M A) (k : A → M B) :
  files_blind m → keeps_left m →
  (∀ w a w', m w = (Ok a, w') → P a) →
  (∀ a, P a → files_blind (k a)) →
  files_blind (bind m k).
Proof.
  intros Hm Hkeep HP Hk w1 w2 Hl. unfold bind.
  pose proof (Hm w1 w2 Hl) as Hr.
  pose proof (Hkeep w1) as H1. pose proof (Hkeep w2) as H2.
  pose proof (HP w1) as HP1.
  destruct (m w1) as [[a1|e1] w1'], (m w2) as [[a2|e2] w2']; simpl in *;
    try done.
  - injection Hr as <-. apply Hk; [by eapply HP1|congruence].
  - by injection Hr as <-.
Qed.

Lemma files_blind_bind {A B} (m : M A) (k : A → M B) :
  files_blind m → keeps_left m → (∀ a, files_blind (k a)) →
  files_blind (bind m k).
Proof.
  intros Hm Hkeep Hk.
  apply (files_blind_bind_post (λ _, True)); auto.
Qed.

Lemma files_blind_logs_only {A} (m : M A) : logs_only m → files_blind m.
Proof. intros (r & recs & H) w1 w2 _. by rewrite !H. Qed.

Lemma keeps_logs_only {A} (m : M A) : logs_only m → keeps_left m.
Proof. intros (r & recs & H) w. by rewrite H. Qed.

Lemma no_missing df cols :
  head (filter (λ c, has_column df c = false) cols) = None →
  Forall (λ c, has_column df c = true) cols.
Proof.
  induction cols as [|c cols IH]; [constructor|].
  rewrite filter_cons. destruct (has_column df c) eqn:Ec.
  - rewrite decide_False by done. intros H. constructor; auto.
  - by rewrite decide_True by done.
Qed.

Section Loop.
Context `{Engine : SymSpellEngine}.

(** What a turn of the first loop does to the files, case by case. *)
Lemma fuzzy_pair_files rdf (rcs : list string) nr pp m i lc w :
  (∀ rc, rcs !! i = Some rc → no_slash rc) →
  match fuzzy_pair rdf (VStr <$> rcs) nr pp m i lc w with
  | (Ok _, w') => ∃ rc, rcs !! i = Some rc ∧ files w' = cleaned (files w) [rc]
  | (Raise _, w') =>
      match rcs !! i with
      | None => files w' = files w
      | Some rc =>
          match get_column rdf (VStr rc) with
          | None => files w' = <[dict_name rc := ""]> (files w)
          | Some rows =>
              files w'
              = staged_files (files w) (default PreProcessor_init pp) rc rows
          end
      end
  end.
Proof.
  intros Hns. destruct (rcs !! i) as [rc|] eqn:Hi.
  - rewrite (fuzzy_pair_lookup _ _ _ _ _ _ _ (VStr rc))
      by (by rewrite list_lookup_fmap, Hi).
    destruct (get_column rdf (VStr rc)) as [rows|] eqn:Hrows.
    + destruct (fuzzy_pair_run rdf nr pp m lc rc rows (left_dataframe w)
                  (Hns rc eq_refl) Hrows) as (r & recs & Hrun).
      rewrite (Hrun w eq_refl). destruct r; [by exists rc|done].
    + by rewrite fuzzy_pair_no_column.
  - by rewrite fuzzy_pair_no_partner
      by (rewrite length_fmap; by apply lookup_ge_None).
Qed.

Lemma files_blind_fuzzy_pair rdf (rcs : list string) nr pp m i lc :
  (∀ rc, rcs !! i = Some rc → no_slash rc) →
  files_blind (fuzzy_pair rdf (VStr <$> rcs) nr pp m i lc).
Proof.
  intros Hns w1 w2 Hl. destruct (rcs !! i) as [rc|] eqn:Hi.
  - rewrite !(fuzzy_pair_lookup rdf (VStr <$> rcs) nr pp m i lc (VStr rc))
      by (by rewrite list_lookup_fmap, Hi).
    destruct (get_column rdf (VStr rc)) as [rows|] eqn:Hrows.
    + destruct (fuzzy_pair_run rdf nr pp m lc rc rows (left_dataframe w1)
                  (Hns rc eq_refl) Hrows) as (r & recs & Hrun).
      by rewrite (Hrun w1 eq_refl), (Hrun w2 (eq_sym Hl)).
    + by rewrite !fuzzy_pair_no_column.
  - by rewrite !fuzzy_pair_no_partner
      by (rewrite length_fmap; by apply lookup_ge_None).
Qed.

Lemma files_blind_fuzzy_loop rdf (rcs : list string) nr pp m lcs : ∀ i acc,
  (∀ j rc, i ≤ j < i + length lcs → rcs !! j = Some rc → no_slash rc) →
  files_blind (fuzzy_loop rdf (VStr <$> rcs) nr pp m i lcs acc).
Proof.
  induction lcs as [|lc lcs IH]; intros i acc Hns; simpl.
  - by intros w1 w2 _.
  - apply files_blind_bind; [|apply keeps_fuzzy_pair|].
    + apply files_blind_fuzzy_pair. intros rc Hrc.
      apply (Hns i); [simpl; lia|done].
    + intros col. apply IH. intros j rc Hj. apply Hns. simpl. lia.
Qed.

(** The files after the first loop: when it returns, the staging files of
    every pair are gone; when it raises, those of the pairs before the one
    it failed on are gone and those of that pair, as far as they were
    written, are left. *)
Lemma fuzzy_loop_files rdf (rcs : list string) nr pp m lcs : ∀ i acc w,
  (∀ j rc, i ≤ j < i + length lcs → rcs !! j = Some rc → no_slash rc) →
  match fuzzy_loop rdf (VStr <$> rcs) nr pp m i lcs acc w with
  | (Ok _, w') => files w' = cleaned (files w) (take (length lcs) (drop i rcs))
  | (Raise _, w') =>
      ∃ j, j < length lcs
        ∧ match rcs !! (i + j) with
          | None => files w' = cleaned (files w) (take j (drop i rcs))
          | Some rc =>
              match get_column rdf (VStr rc) with
              | None =>
                  files w'
                  = <[dict_name rc := ""]>
                      (cleaned (files w) (take j (drop i rcs)))
              | Some rows =>
                  files w'
                  = staged_files (cleaned (files w) (take j (drop i rcs)))
                      (default PreProcessor_init pp) rc rows
              end
          end
  end.
Proof.
  induction lcs as [|lc lcs IH]; intros i acc w Hns; simpl.
  - done.
  - pose proof (fuzzy_pair_files rdf rcs nr pp m i lc w) as Hpair.
    unfold bind.
    destruct (fuzzy_pair rdf (VStr <$> rcs) nr pp m i lc w) as [[col|e] w1].
    + destruct Hpair as (rc & Hrc & Hfiles).
      { intros rc Hrc. apply (Hns i); [simpl; lia|done]. }
      specialize (IH (S i) (acc ++ [col]) w1).
      rewrite (drop_S _ _ _ Hrc). simpl take.
      destruct (fuzzy_loop _ _ _ _ _ _ _ _ w1) as [[cols|e] w2].
      * rewrite IH, Hfiles; [done|].
        intros j rc' Hj. apply Hns. simpl. lia.
      * destruct IH as (j & Hj & IH).
        { intros j rc' Hj. apply Hns. simpl. lia. }
        exists (S j). split; [lia|].
        replace (i + S j) with (S i + j) by lia. simpl take.
        rewrite cleaned_cons, <-Hfiles. exact IH.
    + exists 0. split; [lia|]. rewrite Nat.add_0_r. simpl take.
      apply Hpair. intros rc Hrc. apply (Hns i); [simpl; lia|done].
Qed.

(** The checks of the entry point, when they all pass, leave the call at
    its first loop, with the right columns defaulting to the left ones. *)
Lemma compute_columns_pass rdf lcs rcs nr pp m w :
  Forall (λ c, has_column (left_dataframe w) c = true) lcs →
  (∀ cols, rcs = Some cols → Forall (λ c, has_column rdf c = true) cols) →
  (∀ cls r, nr ≠ Some (VObj cls r)) → (1 ≤ m)%Z →
  compute_columns rdf lcs rcs nr pp m w
  = fuzzy_loop rdf (default lcs rcs) nr pp m 0 lcs []
      (add_log w match rcs with
                 | None => [LogRecord DEBUG
                              "right_cols set to None, copying to left_cols" []]
                 | Some _ => []
                 end).
Proof.
  intros Hl Hr Hnr Hm. unfold compute_columns. rewrite bind_get_left.
  rewrite (bind_ok _ _ _ _ _ (check_cols_ok _ _ _ _ Hl)).
  assert (∃ s, ∀ w0, check_null_return nr w0 = (Ok s, w0)) as [s Hs].
  { destruct nr as [[s|cls r]|]; [by eexists..| |by eexists].
    by destruct (Hnr cls r). }
  destruct rcs as [cols|]; simpl default.
  - rewrite bind_assoc, (bind_ok _ _ _ _ _ (check_cols_ok _ _ _ _ (Hr _ eq_refl))).
    rewrite bind_ret, (bind_ok _ _ _ _ _ (Hs _)).
    destruct (Z.ltb_spec m 1); [lia|]. by rewrite bind_ret, add_log_nil.
  - rewrite bind_assoc, bind_logger, bind_ret, (bind_ok _ _ _ _ _ (Hs _)).
    destruct (Z.ltb_spec m 1); [lia|]. by rewrite bind_ret.
Qed.

(** Either a check fails, and the call raises having only logged, or all
    checks pass. *)
Lemma compute_columns_cases rdf lcs rcs nr pp m w :
  (∃ e recs, compute_columns rdf lcs rcs nr pp m w = (Raise e, add_log w recs))
  ∨ (Forall (λ c, has_column (left_dataframe w) c = true) lcs
     ∧ (∀ cols, rcs = Some cols → Forall (λ c, has_column rdf c = true) cols)
     ∧ (∀ cls r, nr ≠ Some (VObj cls r)) ∧ (1 ≤ m)%Z).
Proof.
  unfold compute_columns. rewrite bind_get_left.
  destruct (head (filter (λ c, has_column (left_dataframe w) c = false) lcs))
    as [col|] eqn:El.
  { left. eexists _, _.
    by rewrite (bind_raise _ _ _ _ _ (check_cols_missing _ _ _ _ _ El)). }
  apply no_missing in El.
  rewrite (bind_ok _ _ _ _ _ (check_cols_ok _ _ _ _ El)).
  assert ((∃ e recs,
             (match rcs with
              | None =>
                  logger DEBUG "right_cols set to None, copying to left_cols" [] ;;;
                  ret lcs
              | Some cols => check_cols "right" cols rdf ;;; ret cols
              end) w = (Raise e, add_log w recs))
          ∨ (∀ cols, rcs = Some cols → Forall (λ c, has_column rdf c = true) cols)
            ∧ ∃ recs,
                (match rcs with
                 | None =>
                     logger DEBUG "right_cols set to None, copying to left_cols" [] ;;;
                     ret lcs
                 | Some cols => check_cols "right" cols rdf ;;; ret cols
                 end) w = (Ok (default lcs rcs), add_log w recs))
    as [(e & recs & Hr)|(Hr & recs & Hrun)].
  { destruct rcs as [cols|].
    - destruct (head (filter (λ c, has_column rdf c = false) cols))
        as [col|] eqn:Er.
      + left. eexists _, _.
        by rewrite (bind_raise _ _ _ _ _ (check_cols_missing _ _ _ _ _ Er)).
      + apply no_missing in Er. right. split; [by intros ? [= <-]|].
        exists []. by rewrite (bind_ok _ _ _ _ _ (check_cols_ok _ _ _ _ Er)),
                     add_log_nil.
    - right. split; [done|]. eexists. by rewrite bind_logger. }
  { left. eexists _, _. by rewrite (bind_raise _ _ _ _ _ Hr). }
  rewrite (bind_ok _ _ _ _ _ Hrun).
  destruct nr as [[s|cls r]|].
  - destruct (Z.ltb_spec m 1).
    + left. eexists _, _. simpl. rewrite bind_ret.
      by rewrite bind_assoc, bind_logger, add_log_add_log.
    + right. by repeat split.
  - left. eexists _, _. simpl.
    by rewrite bind_assoc, bind_logger, add_log_add_log.
  - destruct (Z.ltb_spec m 1).
    + left. eexists _, _. simpl. rewrite bind_ret.
      by rewrite bind_assoc, bind_logger, add_log_add_log.
    + right. by repeat split.
Qed.

End Loop.

(** ** The entry point and the file system *)

Lemma lookup_cleaned_None fs rcs p : fs !! p = None → cleaned fs rcs !! p = None.
Proof.
  revert fs. induction rcs as [|rc rcs IH]; intros fs H; [done|].
  rewrite cleaned_cons. apply IH. unfold cleaned. simpl.
  destruct (decide (processed_dict_name rc = p)) as [->|?];
    [by rewrite lookup_delete_eq|rewrite lookup_delete_ne by done].
  destruct (decide (dict_name rc = p)) as [->|?];
    [by rewrite lookup_delete_eq|by rewrite lookup_delete_ne by done].
Qed.

Lemma lookup_cleaned_gone fs rcs rc :
  rc ∈ rcs →
  cleaned fs rcs !! dict_name rc = None
  ∧ cleaned fs rcs !! processed_dict_name rc = None.
Proof.
  revert fs. induction rcs as [|rc' rcs IH]; intros fs Hin;
    [by apply elem_of_nil in Hin|].
  rewrite cleaned_cons.
  destruct (decide (rc = rc')) as [<-|Hne].
  - split; apply lookup_cleaned_None; unfold cleaned; simpl.
    + rewrite lookup_delete_ne by apply processed_dict_name_ne.
      apply lookup_delete_eq.
    + apply lookup_delete_eq.
  - apply IH. apply elem_of_cons in Hin as [?|?]; [congruence|done].
Qed.

Lemma lookup_cleaned_other fs rcs p :
  (∀ rc, rc ∈ rcs → p ≠ dict_name rc ∧ p ≠ processed_dict_name rc) →
  cleaned fs rcs !! p = fs !! p.
Proof.
  revert fs. induction rcs as [|rc rcs IH]; intros fs H; [done|].
  rewrite cleaned_cons, IH by (intros rc' Hrc'; apply H; by right).
  destruct (H rc) as [Hd Hp]; [by left|].
  unfold cleaned. simpl. by rewrite !lookup_delete_ne.
Qed.

(** A list of labels is a list of [str], or has a first label that is
    not. *)
Lemma labels_split (labels : list value) :
  (∃ names, labels = VStr <$> names)
  ∨ (∃ names cls r rest, labels = (VStr <$> names) ++ VObj cls r :: rest).
Proof.
  induction labels as [|[s|cls r] labels IH].
  - left. by exists [].
  - destruct IH as [[names ->]|(names & cls & r & rest & ->)].
    + left. by exists (s :: names).
    + right. by exists (s :: names), cls, r, rest.
  - right. by exists [], cls, r, labels.
Qed.

Section Files.
Context `{Engine : SymSpellEngine}.

Lemma used_no_slash (n : nat) (rcs : list string) :
  Forall no_slash (take n rcs) →
  ∀ j rc, 0 ≤ j < 0 + n → rcs !! j = Some rc → no_slash rc.
Proof.
  intros Hns j rc Hj Hrc.
  apply (Forall_lookup_1 _ _ j rc Hns). rewrite lookup_take_lt by lia. done.
Qed.

Lemma default_labels (lcs : list string) (rcs : option (list string)) :
  default (VStr <$> lcs) (fmap (M:=list) VStr <$> rcs) = VStr <$> default lcs rcs.
Proof. by destruct rcs. Qed.

Lemma has_labels (lcs : list string) (rcs : option (list string)) rdf :
  (∀ cols, fmap (M:=list) VStr <$> rcs = Some cols →
     Forall (λ c, has_column rdf c = true) cols) →
  ∀ cols, rcs = Some cols →
    Forall (λ c, has_column rdf c = true) (VStr <$> cols).
Proof. intros H cols ->. by apply H. Qed.

(** X13. A call that returns leaves no staging file. For right columns
    whose names have no slash, the files after the call are the files before
    it without [<right_col>_dict.txt] and [preprocessed_<right_col>_dict.txt]
    for each right column used: these two are absent afterwards, also when a
    file of that name was there before, and every other file is as it was. *)
Theorem staging_files_removed (right_dataframe : DataFrame)
    (left_cols : list string) (right_cols : option (list string))
    (null_return : option value) (preprocesser_arg : option PreProcessor)
    (max_edit_distance : Z) (w w' : world) :
  Forall no_slash (take (length left_cols) (default left_cols right_cols)) →
  get_fuzzy_columns right_dataframe (VStr <$> left_cols)
    (fmap (M:=list) VStr <$> right_cols) null_return preprocesser_arg max_edit_distance w
  = (Ok (), w') →
  files w'
  = cleaned (files w) (take (length left_cols) (default left_cols right_cols))
  ∧ (∀ rc, rc ∈ take (length left_cols) (default left_cols right_cols) →
       files w' !! dict_name rc = None
       ∧ files w' !! processed_dict_name rc = None)
  ∧ (∀ p, (∀ rc, rc ∈ take (length left_cols) (default left_cols right_cols) →
             p ≠ dict_name rc ∧ p ≠ processed_dict_name rc) →
       files w' !! p = files w !! p).
Proof.
  intros Hns Hrun.
  assert (files w'
          = cleaned (files w)
              (take (length left_cols) (default left_cols right_cols))) as ->.
  { rewrite get_fuzzy_columns_phases in Hrun.
    apply bind_inv in Hrun as [(e & _ & ?)|(cols & w1 & Hcols & Hrun)]; [done|].
    pose proof (compute_columns_length _ _ _ _ _ _ _ _ _ Hcols) as Hlen.
    rewrite length_fmap in Hlen.
    rewrite write_loop_run in Hrun by (simpl; lia). injection Hrun as <-.
    simpl files.
    destruct (compute_columns_cases right_dataframe (VStr <$> left_cols)
                (fmap (M:=list) VStr <$> right_cols) null_return preprocesser_arg
                max_edit_distance w)
      as [(e & recs & He)|(Hl & Hr & Hnr & Hm)]; [by rewrite He in Hcols|].
    rewrite compute_columns_pass, default_labels in Hcols by done.
    rewrite <-(length_fmap VStr left_cols) in Hns.
    match type of Hcols with
    | fuzzy_loop _ _ _ _ _ _ _ _ ?w0 = _ =>
        pose proof (fuzzy_loop_files right_dataframe
                      (default left_cols right_cols) null_return
                      preprocesser_arg max_edit_distance (VStr <$> left_cols)
                      0 [] w0 (used_no_slash _ _ Hns)) as Hfiles
    end.
    rewrite Hcols in Hfiles. rewrite Hfiles, length_fmap. done. }
  split; [done|]. split.
  - intros rc Hrc. by apply lookup_cleaned_gone.
  - intros p Hp. by apply lookup_cleaned_other.
Qed.


Lemma files_blind_compute_columns rdf (lcs : list string) rcs nr pp m :
  Forall no_slash (take (length lcs) (default lcs rcs)) →
  files_blind (compute_columns rdf (VStr <$> lcs) (fmap (M:=list) VStr <$> rcs) nr pp m).
Proof.
  intros Hns. unfold compute_columns.
  apply files_blind_bind;
    [intros w1 w2 Hl; unfold get_left; simpl; by rewrite Hl
    |apply keeps_get_left|].
  intros left.
  apply files_blind_bind;
    [apply files_blind_logs_only, logs_only_check_cols|apply keeps_check_cols|].
  intros _.
  apply (files_blind_bind_post (λ a, a = VStr <$> default lcs rcs)).
  - apply files_blind_logs_only. destruct rcs; simpl; [|logs].
    apply logs_only_bind; [apply logs_only_check_cols|]. intros _. logs.
  - destruct rcs; simpl; keeps.
  - intros w0 a w0'. destruct rcs as [cols|]; simpl.
    + intros [(e & _ & ?)|(? & ? & _ & [= <- _])]%bind_inv; done.
    + rewrite bind_logger. by intros [= <- _].
  - intros ? ->.
    apply files_blind_bind;
      [apply files_blind_logs_only, logs_only_check_null_return
      |apply keeps_check_null_return|].
    intros _.
    apply files_blind_bind.
    + apply files_blind_logs_only. destruct (_ <? _)%Z; logs.
    + destruct (_ <? _)%Z; keeps.
    + intros _. apply files_blind_fuzzy_loop, used_no_slash.
      by rewrite length_fmap.
Qed.

(** X15. What a call gives does not depend on the files it finds. For right
    columns whose names have no slash, two calls on the same tables and
    arguments return or raise alike and leave the same left table, whatever
    files and log records each world starts with: every file the call reads
    it has written itself. *)
Theorem outcome_ignores_files (right_dataframe : DataFrame)
    (left_cols : list string) (right_cols : option (list string))
    (null_return : option value) (preprocesser_arg : option PreProcessor)
    (max_edit_distance : Z) (w1 w2 : world) :
  Forall no_slash (take (length left_cols) (default left_cols right_cols)) →
  left_dataframe w1 = left_dataframe w2 →
  (get_fuzzy_columns right_dataframe (VStr <$> left_cols)
     (fmap (M:=list) VStr <$> right_cols) null_return preprocesser_arg
     max_edit_distance w1).1
  = (get_fuzzy_columns right_dataframe (VStr <$> left_cols)
       (fmap (M:=list) VStr <$> right_cols) null_return preprocesser_arg
       max_edit_distance w2).1
  ∧ left_dataframe
      (get_fuzzy_columns right_dataframe (VStr <$> left_cols)
         (fmap (M:=list) VStr <$> right_cols) null_return preprocesser_arg
         max_edit_distance w1).2
    = left_dataframe
        (get_fuzzy_columns right_dataframe (VStr <$> left_cols)
           (fmap (M:=list) VStr <$> right_cols) null_return preprocesser_arg
           max_edit_distance w2).2.
Proof.
  intros Hns Hl. rewrite !get_fuzzy_columns_phases. unfold bind.
  pose proof (files_blind_compute_columns right_dataframe left_cols right_cols
                null_return preprocesser_arg max_edit_distance Hns w1 w2 Hl)
    as Hsame.
  pose proof (keeps_compute_columns right_dataframe (VStr <$> left_cols)
                (fmap (M:=list) VStr <$> right_cols) null_return preprocesser_arg
                max_edit_distance w1) as Hk1.
  pose proof (keeps_compute_columns right_dataframe (VStr <$> left_cols)
                (fmap (M:=list) VStr <$> right_cols) null_return preprocesser_arg
                max_edit_distance w2) as Hk2.
  destruct (compute_columns _ _ _ _ _ _ w1) as [[cols1|e1] w1'] eqn:E1,
           (compute_columns _ _ _ _ _ _ w2) as [[cols2|e2] w2'] eqn:E2;
    simpl in *; try done.
  - injection Hsame as <-.
    pose proof (compute_columns_length _ _ _ _ _ _ _ _ _ E1) as Hlen.
    rewrite length_fmap in Hlen.
    rewrite !write_loop_run by (simpl; lia). simpl.
    split; [done|]. congruence.
  - injection Hsame as <-. split; [done|]. congruence.
Qed.

End Files.

Lemma staging_files_removed_witness :
  ∃ w',
    get_fuzzy_columns (Engine := RefEngine.engine) two_line_right_df [VStr "L"]
      (Some [VStr "R"]) None None 2 occupied_world = (Ok (), w')
    ∧ files occupied_world !! "R_dict.txt" = Some "mine"
    ∧ files w' !! "R_dict.txt" = None.
Proof.
  destruct (get_fuzzy_columns (Engine := RefEngine.engine) two_line_right_df
              [VStr "L"] (Some [VStr "R"]) None None 2 occupied_world)
    as [[[]|e] w'] eqn:E; [|by vm_compute in E].
  exists w'. split; [done|]. split; [done|].
  destruct (staging_files_removed (Engine := RefEngine.engine)
              two_line_right_df ["L"] (Some ["R"]) None None 2
              occupied_world w') as (_ & Hgone & _).
  - repeat constructor.
  - exact E.
  - destruct (Hgone "R") as [Hd _]; [by left|]. exact Hd.
Defined.


Lemma outcome_ignores_files_witness :
  (get_fuzzy_columns (Engine := RefEngine.engine) two_line_right_df [VStr "L"]
     (Some [VStr "R"]) None None 2 (fresh kiten_left_df)).1
  = (get_fuzzy_columns (Engine := RefEngine.engine) two_line_right_df [VStr "L"]
       (Some [VStr "R"]) None None 2 occupied_world).1.
Proof.
  apply (outcome_ignores_files (Engine := RefEngine.engine) two_line_right_df
           ["L"] (Some ["R"]) None None 2 (fresh kiten_left_df) occupied_world).
  - repeat constructor.
  - reflexivity.
Defined.

(** ** The entry point and the left table *)

Lemma get_set_column df col cells :
  get_column (set_column df col cells) col = Some cells.
Proof.
  induction df as [|[c old] df IH]; simpl; [by rewrite decide_True|].
  destruct (decide (c = col)) as [->|?]; simpl;
    [by rewrite decide_True|by rewrite decide_False].
Qed.

Lemma get_set_column_ne df col col' cells :
  col ≠ col' → get_column (set_column df col cells) col' = get_column df col'.
Proof.
  intros Hne. induction df as [|[c old] df IH]; simpl.
  - by rewrite decide_False.
  - destruct (decide (c = col)) as [->|?]; simpl.
    + by rewrite !decide_False.
    + by destruct (decide (c = col')).
Qed.

Lemma fuzzy_name_inj a b : "fuzzy_" +:+ a = "fuzzy_" +:+ b → a = b.
Proof. intros H. by injection H. Qed.

Lemma write_columns_cons left lc lcs col cols :
  write_columns left (lc :: lcs) (col :: cols)
  = write_columns (set_column left (VStr ("fuzzy_" +:+ lc)) (VStr <$> col))
      lcs cols.
Proof. reflexivity. Qed.

Lemma write_columns_other lcs : ∀ left cols name,
  (∀ lc, lc ∈ lcs → name ≠ VStr ("fuzzy_" +:+ lc)) →
  get_column (write_columns left lcs cols) name = get_column left name.
Proof.
  induction lcs as [|a lcs IH]; intros left [|col cols] name H; try done.
  rewrite write_columns_cons, IH by (intros lc Hlc; apply H; by right).
  apply get_set_column_ne, not_eq_sym, H. by left.
Qed.

Lemma write_columns_at lcs : ∀ left cols i lc col,
  NoDup lcs → lcs !! i = Some lc → cols !! i = Some col →
  get_column (write_columns left lcs cols) (VStr ("fuzzy_" +:+ lc))
  = Some (VStr <$> col).
Proof.
  induction lcs as [|a lcs IH]; intros left cols i lc col Hnd Hlc Hcol; [done|].
  destruct cols as [|c0 cols]; [by destruct i|].
  apply NoDup_cons in Hnd as [Hni Hnd]. rewrite write_columns_cons.
  destruct i as [|i]; simplify_eq/=.
  - rewrite write_columns_other; [apply get_set_column|].
    intros lc' Hin Heq.
    assert ("fuzzy_" +:+ lc = "fuzzy_" +:+ lc') as Heq' by congruence.
    by apply fuzzy_name_inj in Heq' as ->.
  - by apply (IH _ _ i).
Qed.

Section Table.
Context `{Engine : SymSpellEngine}.

Lemma fuzzy_loop_prefix rdf rcs nr pp m lcs : ∀ i acc w cols w',
  fuzzy_loop rdf rcs nr pp m i lcs acc w = (Ok cols, w') →
  ∃ new, cols = acc ++ new.
Proof.
  induction lcs as [|a lcs IH]; intros i acc w cols w'; simpl.
  - intros [= <- _]. exists []. by rewrite app_nil_r.
  - intros [(e & _ & ?)|(col & w1 & _ & H)]%bind_inv; [done|].
    destruct (IH _ _ _ _ _ H) as [new ->].
    exists (col :: new). by rewrite <-app_assoc.
Qed.

(** If the first loop returns, each of its turns has returned, in a world
    with the left table of the start, and its column is in its place. *)
Lemma fuzzy_loop_nth rdf rcs nr pp m lcs : ∀ i acc w cols w',
  fuzzy_loop rdf rcs nr pp m i lcs acc w = (Ok cols, w') →
  ∀ j lc, lcs !! j = Some lc →
    ∃ wj wj' col,
      left_dataframe wj = left_dataframe w
      ∧ fuzzy_pair rdf rcs nr pp m (i + j) lc wj = (Ok col, wj')
      ∧ cols !! (length acc + j) = Some col.
Proof.
  induction lcs as [|a lcs IH]; intros i acc w cols w' Hrun j lc Hj; [done|].
  simpl in Hrun.
  apply bind_inv in Hrun as [(e & _ & ?)|(col & w1 & Hpair & Hrun)]; [done|].
  destruct j as [|j]; simplify_eq/=.
  - exists w, w1, col. rewrite !Nat.add_0_r. do 2 (split; [done|]).
    destruct (fuzzy_loop_prefix _ _ _ _ _ _ _ _ _ _ _ Hrun) as [new ->].
    rewrite <-app_assoc, lookup_app_r, Nat.sub_diag by lia. done.
  - destruct (IH _ _ _ _ _ Hrun j lc Hj) as (wj & wj' & c & Hl & Hp & Hc).
    exists wj, wj', c. split.
    { rewrite Hl. pose proof (keeps_fuzzy_pair rdf rcs nr pp m i a w) as Hk.
      by rewrite Hpair in Hk. }
    split; [by replace (i + S j) with (S i + j) by lia|].
    rewrite length_app in Hc. simpl in Hc.
    by replace (length acc + S j) with (length acc + 1 + j) by lia.
Qed.

(** A turn that returns gives what [get_fuzzy_column] gave on the left
    table. *)
Lemma fuzzy_pair_ok_inv rdf rcs nr pp m i lc w col w' :
  fuzzy_pair rdf rcs nr pp m i lc w = (Ok col, w') →
  ∃ (self : Fuzzy) wa wb,
    get_fuzzy_column self (left_dataframe w) lc nr wa = (Ok col, wb).
Proof.
  unfold fuzzy_pair. destruct (rcs !! i) as [[rc|cls r]|]; [|done..].
  simpl concat_str. rewrite bind_ret, bind_open_w.
  destruct (get_column rdf (VStr rc)) as [rows|]; [|done].
  intros H.
  apply bind_inv in H as [(e & _ & ?)|([] & w1 & Hst & H)]; [done|].
  apply bind_inv in H as [(e & _ & ?)|(self & w2 & Hinit & H)]; [done|].
  rewrite bind_get_left in H.
  apply bind_inv in H as [(e & _ & ?)|(c & w3 & Hcol & H)]; [done|].
  apply bind_inv in H as [(e & _ & ?)|([] & w4 & _ & H)]; [done|].
  apply bind_inv in H as [(e & _ & ?)|([] & w5 & _ & H)]; [done|].
  injection H as <- _.
  assert (left_dataframe w2 = left_dataframe w) as <-; [|by eauto].
  pose proof (keeps_Fuzzy_init (Some (rc +:+ "_dict.txt")) pp m 7 w1) as Hk2.
  rewrite Hinit in Hk2. simpl in Hk2. rewrite Hk2.
  match type of Hst with
  | for_each ?xs ?body ?w0 = _ =>
      pose proof (keeps_for_each xs body
                    (λ x, keeps_file_write _ _) w0) as Hk1
  end.
  rewrite Hst in Hk1. exact Hk1.
Qed.

(** X16. The fuzzy columns are written as the call found the left table. A
    call that returns had left labels that are all [str]; after it, with no
    name twice among them, each left column has its companion
    [fuzzy_<left_col>], of strings, with as many rows as the left column had;
    and every column whose label is not that of a companion is as it was. *)
Theorem fuzzy_columns_written (right_dataframe : DataFrame)
    (left_cols : list value) (right_cols : option (list value))
    (null_return : option value) (preprocesser_arg : option PreProcessor)
    (max_edit_distance : Z) (w w' : world) :
  get_fuzzy_columns right_dataframe left_cols right_cols null_return
    preprocesser_arg max_edit_distance w = (Ok (), w') →
  ∃ names,
    left_cols = VStr <$> names
    ∧ (NoDup names →
       ∀ lc, lc ∈ names →
         ∃ cells fuzzy_col,
           get_column (left_dataframe w) (VStr lc) = Some cells
           ∧ get_column (left_dataframe w') (VStr ("fuzzy_" +:+ lc))
             = Some (VStr <$> fuzzy_col)
           ∧ length fuzzy_col = length cells)
    ∧ (∀ name, (∀ lc, lc ∈ names → name ≠ VStr ("fuzzy_" +:+ lc)) →
         get_column (left_dataframe w') name
         = get_column (left_dataframe w) name).
Proof.
  intros Hrun. rewrite get_fuzzy_columns_phases in Hrun.
  apply bind_inv in Hrun as [(e & _ & ?)|(cols & w1 & Hcols & Hrun)]; [done|].
  pose proof (compute_columns_length _ _ _ _ _ _ _ _ _ Hcols) as Hlen.
  pose proof (keeps_compute_columns right_dataframe left_cols right_cols
                null_return preprocesser_arg max_edit_distance w) as Hkeep.
  rewrite Hcols in Hkeep. simpl in Hkeep.
  destruct (labels_split left_cols)
    as [[names ->]|(names & cls & r & rest & ->)].
  2:{ rewrite length_app, length_fmap in Hlen. simpl in Hlen.
      by rewrite write_loop_stops in Hrun by (simpl; lia). }
  exists names. split; [done|].
  rewrite length_fmap in Hlen.
  rewrite write_loop_run in Hrun by (simpl; lia). injection Hrun as <-.
  simpl left_dataframe. rewrite Hkeep. simpl drop.
  split; [|by apply write_columns_other].
  intros Hnd lc [i Hi]%list_elem_of_lookup.
  destruct (compute_columns_cases right_dataframe (VStr <$> names) right_cols
              null_return preprocesser_arg max_edit_distance w)
    as [(e & recs & He)|(Hl & Hr & Hnr & Hm)]; [by rewrite He in Hcols|].
  rewrite compute_columns_pass in Hcols by done.
  destruct (fuzzy_loop_nth _ _ _ _ _ _ _ _ _ _ _ Hcols i (VStr lc))
    as (wj & wj' & col & Hlj & Hpair & Hcol); [by rewrite list_lookup_fmap, Hi|].
  apply fuzzy_pair_ok_inv in Hpair as (self & wa & wb & Hget).
  apply get_fuzzy_column_ok_inv in Hget
    as (cells & wa' & wb' & _ & Hcells & _ & Happly).
  apply series_apply_ok in Happly as [Hrows _].
  rewrite Hlj in Hcells. simpl in Hcells, Hcol.
  exists cells, col. split; [done|]. split; [|done].
  by apply (write_columns_at _ _ _ i).
Qed.

(** X17. Pairs do not interfere. When a call on several pairs returns, with
    no name twice in [left_cols] and no slash in the names of the right
    columns, a call on any one of its pairs alone, on the same left table,
    returns as well and gives the same fuzzy column. *)
Theorem pairs_are_independent (right_dataframe : DataFrame)
    (left_cols right_cols : list string) (null_return : option value)
    (preprocesser_arg : option PreProcessor) (max_edit_distance : Z)
    (w w' : world) :
  NoDup left_cols →
  Forall no_slash (take (length left_cols) right_cols) →
  get_fuzzy_columns right_dataframe (VStr <$> left_cols)
    (Some (VStr <$> right_cols)) null_return preprocesser_arg
    max_edit_distance w = (Ok (), w') →
  ∀ i lc, left_cols !! i = Some lc →
    ∃ rc, right_cols !! i = Some rc
      ∧ ∀ w0, left_dataframe w0 = left_dataframe w →
          ∃ w0',
            get_fuzzy_columns right_dataframe [VStr lc] (Some [VStr rc])
              null_return preprocesser_arg max_edit_distance w0 = (Ok (), w0')
            ∧ get_column (left_dataframe w0') (VStr ("fuzzy_" +:+ lc))
              = get_column (left_dataframe w') (VStr ("fuzzy_" +:+ lc)).
Proof.
  intros Hnd Hns Hrun i lc Hi. rewrite get_fuzzy_columns_phases in Hrun.
  apply bind_inv in Hrun as [(e & _ & ?)|(cols & w1 & Hcols & Hrun)]; [done|].
  pose proof (compute_columns_length _ _ _ _ _ _ _ _ _ Hcols) as Hlen.
  rewrite length_fmap in Hlen.
  pose proof (keeps_compute_columns right_dataframe (VStr <$> left_cols)
                (Some (VStr <$> right_cols)) null_return preprocesser_arg
                max_edit_distance w) as Hkeep.
  rewrite Hcols in Hkeep. simpl in Hkeep.
  rewrite write_loop_run in Hrun by (simpl; lia). injection Hrun as <-.
  destruct (compute_columns_cases right_dataframe (VStr <$> left_cols)
              (Some (VStr <$> right_cols)) null_return preprocesser_arg
              max_edit_distance w)
    as [(e & recs & He)|(Hl & Hr & Hnr & Hm)]; [by rewrite He in Hcols|].
  rewrite compute_columns_pass in Hcols by done.
  destruct (fuzzy_loop_nth _ _ _ _ _ _ _ _ _ _ _ Hcols i (VStr lc))
    as (wj & wj' & col & Hlj & Hpair & Hcol); [by rewrite list_lookup_fmap, Hi|].
  simpl in Hpair, Hcol, Hlj.
  destruct (right_cols !! i) as [rc|] eqn:Hrc.
  2:{ rewrite fuzzy_pair_no_partner in Hpair; [done|].
      rewrite length_fmap. by apply lookup_ge_None. }
  rewrite (fuzzy_pair_lookup right_dataframe (VStr <$> right_cols) null_return
             preprocesser_arg max_edit_distance i (VStr lc) (VStr rc))
    in Hpair by (by rewrite list_lookup_fmap, Hrc).
  exists rc. split; [done|]. intros w0 Hw0.
  assert (no_slash rc) as Hrcns.
  { apply (Forall_lookup_1 _ _ i rc Hns).
    rewrite lookup_take_lt; [done|]. by apply lookup_lt_Some in Hi. }
  assert (∃ w0'', fuzzy_pair right_dataframe [VStr rc] null_return
                    preprocesser_arg max_edit_distance 0 (VStr lc)
                    (add_log w0 []) = (Ok col, w0''))
    as [w0'' Hsingle].
  { pose proof (files_blind_fuzzy_pair right_dataframe [rc] null_return
                  preprocesser_arg max_edit_distance 0 (VStr lc)) as Hblind.
    specialize (Hblind (λ rc' H, eq_ind rc no_slash Hrcns rc' (Some_inj _ _ H))
                  (add_log w0 []) wj).
    change (VStr <$> [rc]) with [VStr rc] in Hblind.
    rewrite Hpair in Hblind.
    destruct (fuzzy_pair _ _ _ _ _ _ _ (add_log w0 [])) as [r w0''].
    simpl in Hblind. rewrite Hblind by congruence. by eexists. }
  assert (compute_columns right_dataframe [VStr lc] (Some [VStr rc])
            null_return preprocesser_arg max_edit_distance w0
          = (Ok [col], w0'')) as Hc1.
  { rewrite compute_columns_pass; [|rewrite Hw0|intros ? [= <-]|done..].
    - simpl. by rewrite (bind_ok _ _ _ _ _ Hsingle).
    - constructor; [|constructor].
      apply (Forall_lookup_1 _ _ i (VStr lc) Hl).
      by rewrite list_lookup_fmap, Hi.
    - constructor; [|constructor].
      apply (Forall_lookup_1 _ _ i (VStr rc) (Hr _ eq_refl)).
      by rewrite list_lookup_fmap, Hrc. }
  rewrite get_fuzzy_columns_phases, (bind_ok _ _ _ _ _ Hc1).
  change [VStr lc] with (VStr <$> [lc]).
  rewrite write_loop_run by (simpl; lia).
  eexists. split; [reflexivity|]. simpl left_dataframe. simpl drop.
  rewrite write_columns_cons.
  change (write_columns ?x [] []) with x. rewrite get_set_column.
  symmetry. by apply (write_columns_at _ _ _ i).
Qed.

End Table.

Lemma fuzzy_columns_written_witness :
  ∃ w' fuzzy_col,
    get_fuzzy_columns (Engine := RefEngine.engine) two_line_right_df [VStr "L"]
      (Some [VStr "R"]) None None 2 (fresh kiten_left_df) = (Ok (), w')
    ∧ get_column (left_dataframe w') (VStr "fuzzy_L") = Some (VStr <$> fuzzy_col)
    ∧ length fuzzy_col = 1.
Proof.
  destruct (get_fuzzy_columns (Engine := RefEngine.engine) two_line_right_df
              [VStr "L"] (Some [VStr "R"]) None None 2 (fresh kiten_left_df))
    as [[[]|e] w'] eqn:E; [|by vm_compute in E].
  destruct (fuzzy_columns_written (Engine := RefEngine.engine)
              two_line_right_df [VStr "L"] (Some [VStr "R"]) None None 2
              (fresh kiten_left_df) w' E) as (names & Hnames & Hnew & _).
  destruct names as [|name [|? ?]]; [discriminate| |discriminate].
  injection Hnames as <-.
  destruct (Hnew (NoDup_singleton "L") "L")
    as (cells & fuzzy_col & Hcells & Hcol & Hlen); [by left|].
  exists w', fuzzy_col. split; [reflexivity|]. split; [exact Hcol|].
  injection Hcells as <-. exact Hlen.
Defined.

Lemma pairs_are_independent_witness :
  ∃ w' w0',
    get_fuzzy_columns (Engine := RefEngine.engine) test_right_df
      [VStr "sCol"; VStr "zCol"] (Some [VStr "RsCol"; VStr "RzCol"]) None None 2
      (fresh test_left_df) = (Ok (), w')
    ∧ get_fuzzy_columns (Engine := RefEngine.engine) test_right_df
        [VStr "zCol"] (Some [VStr "RzCol"]) None None 2 (fresh test_left_df)
      = (Ok (), w0')
    ∧ get_column (left_dataframe w0') (VStr "fuzzy_zCol")
      = get_column (left_dataframe w') (VStr "fuzzy_zCol").
Proof.
  destruct (get_fuzzy_columns (Engine := RefEngine.engine) test_right_df
              [VStr "sCol"; VStr "zCol"] (Some [VStr "RsCol"; VStr "RzCol"])
              None None 2 (fresh test_left_df))
    as [[[]|e] w'] eqn:E; [|by vm_compute in E].
  destruct (pairs_are_independent (Engine := RefEngine.engine) test_right_df
              ["sCol"; "zCol"] ["RsCol"; "RzCol"] None None 2
              (fresh test_left_df) w') with (i := 1) (lc := "zCol")
    as (rc & Hrc & Hsingle).
  - apply (bool_decide_unpack _). by vm_compute.
  - repeat constructor.
  - exact E.
  - reflexivity.
  - injection Hrc as <-.
    destruct (Hsingle (fresh test_left_df) eq_refl) as (w0' & H0 & Heq).
    exists w', w0'. split; [reflexivity|]. split; [exact H0|exact Heq].
Defined.

(** ** The fallback on a miss *)

Section MissFallback.
Context `{Engine : SymSpellEngine}.

(** A turn of the first loop that returns: the object it has built is the
    one [Fuzzy.__init__] makes of the staged corpus of the right column, and
    the column is what [get_fuzzy_column] of that object gave on the left
    table. *)
Lemma fuzzy_pair_ok_built rdf rcs nr pp m i lc w col w' :
  fuzzy_pair rdf rcs nr pp m i lc w = (Ok col, w') →
  ∃ rc rows (self : Fuzzy) w1 w2 wa wb,
    rcs !! i = Some (VStr rc) ∧ get_column rdf (VStr rc) = Some rows
    ∧ files w1 !! dict_name rc = Some (corpus_text rows)
    ∧ Fuzzy_init (Some (dict_name rc)) pp m 7 w1 = (Ok self, w2)
    ∧ get_fuzzy_column self (left_dataframe w) lc nr wa = (Ok col, wb).
Proof.
  unfold fuzzy_pair. destruct (rcs !! i) as [[rc|cls r]|]; [|done..].
  simpl concat_str. rewrite bind_ret, bind_open_w. fold (dict_name rc).
  destruct (get_column rdf (VStr rc)) as [rows|] eqn:Hrows; [|done].
  erewrite bind_ok
    by (apply (for_each_write_from (dict_name rc) rows); apply lookup_insert_eq).
  intros H.
  apply bind_inv in H as [(e & _ & ?)|(self & w2 & Hinit & H)]; [done|].
  rewrite bind_get_left in H.
  apply bind_inv in H as [(e & _ & ?)|(c & w3 & Hcol & H)]; [done|].
  apply bind_inv in H as [(e & _ & ?)|([] & w4 & _ & H)]; [done|].
  apply bind_inv in H as [(e & _ & ?)|([] & w5 & _ & H)]; [done|].
  injection H as <- _.
  match type of Hinit with
  | Fuzzy_init _ _ _ _ ?w1 = _ =>
      pose proof (keeps_Fuzzy_init (Some (dict_name rc)) pp m 7 w1) as Hk;
      exists rc, rows, self, w1, w2
  end.
  rewrite Hinit in Hk. simpl in Hk. rewrite Hk in Hcol.
  eexists _, _. do 2 (split; [done|]).
  split; [simpl; by rewrite lookup_insert_eq, app_empty_l|].
  split; [exact Hinit|exact Hcol].
Qed.

(** C2. A value of the left column with no match within the threshold: the
    query gives back the value as it came, not its canonical form, with the
    flag cleared; [apply_query] turns that into the sentinel when
    [null_return] is set and into the value itself otherwise. That is what
    the column returned by [get_fuzzy_column] holds in the row of that
    value, whatever the other rows; and on a column of such values the call
    does return: the sentinel in every row when one is set, the column as it
    was otherwise. It is also what the entry point writes: when the object
    is the one built for a pair, from the staged corpus of its right column,
    a call that returns has put the sentinel, or else the value, in the row
    of that value in the column [fuzzy_<left_col>] of the left table. *)
Theorem miss_returns_original (self : Fuzzy) index sym (q : string)
    (null_return : option string) (w : world) :
  index_dictionary self = Some index → sym_spell self = Some sym →
  misses self sym q →
  (query self (VStr q) w).1 = Ok (q, false)
  ∧ (apply_query self null_return (VStr q) w).1 = Ok (default q null_return)
  ∧ (∀ dataframe col_name cells i fuzzy_col w',
       get_column dataframe col_name = Some cells →
       cells !! i = Some (VStr q) →
       get_fuzzy_column self dataframe col_name (VStr <$> null_return) w
       = (Ok fuzzy_col, w') →
       fuzzy_col !! i = Some (default q null_return))
  ∧ (∀ dataframe col_name qs,
       get_column dataframe col_name = Some (VStr <$> qs) →
       Forall (misses self sym) qs →
       (get_fuzzy_column self dataframe col_name (VStr <$> null_return) w).1
       = Ok ((λ q', default q' null_return) <$> qs))
  ∧ (∀ right_dataframe left_cols right_cols preprocesser_arg
       max_edit_distance j left_col right_col rows cells i w0 w' wa wb,
       NoDup left_cols →
       left_cols !! j = Some left_col → right_cols !! j = Some right_col →
       get_column right_dataframe (VStr right_col) = Some rows →
       files wa !! dict_name right_col = Some (corpus_text rows) →
       Fuzzy_init (Some (dict_name right_col)) preprocesser_arg
         max_edit_distance 7 wa = (Ok self, wb) →
       get_column (left_dataframe w0) (VStr left_col) = Some cells →
       cells !! i = Some (VStr q) →
       get_fuzzy_columns right_dataframe (VStr <$> left_cols)
         (Some (VStr <$> right_cols)) (VStr <$> null_return) preprocesser_arg
         max_edit_distance w0 = (Ok (), w') →
       ∃ fuzzy_col,
         get_column (left_dataframe w') (VStr ("fuzzy_" +:+ left_col))
         = Some (VStr <$> fuzzy_col)
         ∧ fuzzy_col !! i = Some (default q null_return)).
Proof.
  intros Hi Hs Hm.
  assert (∀ dataframe col_name cells i fuzzy_col w0 w',
            get_column dataframe col_name = Some cells →
            cells !! i = Some (VStr q) →
            get_fuzzy_column self dataframe col_name (VStr <$> null_return) w0
            = (Ok fuzzy_col, w') →
            fuzzy_col !! i = Some (default q null_return)) as Hrow.
  { intros df col cells i fuzzy_col w0 w' Hcells Hcell Hrun.
    apply get_fuzzy_column_ok_inv in Hrun
      as (cells' & wa & wb & _ & Hcells' & _ & Hrun).
    rewrite Hcells in Hcells'. injection Hcells' as <-.
    destruct (series_apply_ok _ _ _ _ _ Hrun) as [_ Hall].
    destruct (Hall _ _ Hcell) as (y & wi & wi' & Hy & ->).
    assert (match VStr <$> null_return with
            | Some (VStr x) => Some x
            | _ => None
            end = null_return) as Hnr by (by destruct null_return).
    rewrite Hnr in Hy.
    pose proof (apply_query_miss self index sym q null_return wi Hi Hs Hm) as H.
    rewrite Hy in H. simpl in H. by simplify_eq. }
  split; [by eapply query_rejects|].
  split; [by eapply apply_query_miss|].
  split; [intros df col cells i fuzzy_col w'; apply Hrow|]. split.
  - intros df col qs Hcells Hall. unfold get_fuzzy_column.
    rewrite bind_logger, (get_column_has_column _ _ _ Hcells).
    simpl negb. cbv iota. rewrite bind_ret.
    assert (∀ w0, check_null_return (VStr <$> null_return) w0
                  = (Ok null_return, w0)) as Hnr by (by destruct null_return).
    rewrite (bind_ok _ _ _ _ _ (Hnr _)), Hcells.
    by apply (series_apply_misses self index sym).
  - intros rdf left_cols right_cols pp m j lc rc rows cells i w0 w' wa wb
      Hnd Hlc Hrc Hrows Hfile Hinit Hcells Hcell Hrun.
    rewrite get_fuzzy_columns_phases in Hrun.
    apply bind_inv in Hrun as [(e & _ & ?)|(cols & w1 & Hcols & Hrun)]; [done|].
    pose proof (compute_columns_length _ _ _ _ _ _ _ _ _ Hcols) as Hlen.
    rewrite length_fmap in Hlen.
    pose proof (keeps_compute_columns rdf (VStr <$> left_cols)
                  (Some (VStr <$> right_cols)) (VStr <$> null_return) pp m w0)
      as Hkeep.
    rewrite Hcols in Hkeep. simpl in Hkeep.
    rewrite write_loop_run in Hrun by (simpl; lia). injection Hrun as <-.
    simpl left_dataframe. rewrite Hkeep. simpl drop.
    destruct (compute_columns_cases rdf (VStr <$> left_cols)
                (Some (VStr <$> right_cols)) (VStr <$> null_return) pp m w0)
      as [(e & recs & He)|(Hl & Hr & Hnr & Hm')]; [by rewrite He in Hcols|].
    rewrite compute_columns_pass in Hcols by done.
    destruct (fuzzy_loop_nth _ _ _ _ _ _ _ _ _ _ _ Hcols j (VStr lc))
      as (wj & wj' & col & Hlj & Hpair & Hcol);
      [by rewrite list_lookup_fmap, Hlc|].
    simpl in Hpair, Hcol, Hlj.
    apply fuzzy_pair_ok_built in Hpair
      as (rc' & rows' & self' & w1' & w2' & wa' & wb' & Hrc' & Hrows' & Hfile'
          & Hinit' & Hget).
    rewrite list_lookup_fmap, Hrc in Hrc'. injection Hrc' as <-.
    rewrite Hrows in Hrows'. injection Hrows' as <-.
    assert (self' = self) as ->.
    { destruct (Fuzzy_init_run (dict_name rc) pp m 7 (corpus_text rows))
        as (index0 & recs_raise & recs_ok & _ & Hdet).
      rewrite (Hdet _ Hfile) in Hinit. rewrite (Hdet _ Hfile') in Hinit'.
      destruct (SymSpell_init m 7); [done|]. congruence. }
    exists col. split; [by apply (write_columns_at _ _ _ j)|].
    rewrite Hlj in Hget. by eapply Hrow.
Qed.

End MissFallback.

Lemma miss_returns_original_witness :
  (query demo_fuzzy (VStr "not in there") (fresh [])).1
  = Ok ("not in there", false)
  ∧ (get_fuzzy_column demo_fuzzy
       [(VStr "sCol", [VStr "not in there"; VStr "nor this one"])]
       (VStr "sCol") (Some (VStr "NULL")) (fresh [])).1
    = Ok ["NULL"; "NULL"].
Proof.
  assert (misses (Engine := RefEngine.engine) demo_fuzzy demo_sym "not in there")
    as Hm by exact I.
  assert (misses (Engine := RefEngine.engine) demo_fuzzy demo_sym "nor this one")
    as Hm' by exact I.
  destruct (miss_returns_original (Engine := RefEngine.engine)
              demo_fuzzy demo_index demo_sym "not in there" (Some "NULL")
              (fresh []) eq_refl eq_refl Hm) as (Hq & _ & _ & Hcol & _).
  split; [exact Hq|].
  apply (Hcol [(VStr "sCol", [VStr "not in there"; VStr "nor this one"])]
           (VStr "sCol") ["not in there"; "nor this one"] eq_refl).
  constructor; [exact Hm|]. constructor; [exact Hm'|constructor].
Defined.

(** The entry point on the tables of the tests, with a sentinel: the last
    value of [sCol] has no match among the right values within the
    threshold, and its row holds the sentinel. *)
Example miss_written_as_sentinel :
  get_column
    (left_dataframe
       (get_fuzzy_columns (Engine := RefEngine.engine) test_right_df
          [VStr "sCol"] (Some [VStr "RsCol"]) (Some (VStr "NULL")) None 2
          (fresh test_left_df)).2) (VStr "fuzzy_sCol")
  = Some (VStr <$> ["kitten"; "sitting"; "the best of times";
                    "the worst of times"; "NULL"]).
Proof. vm_compute. reflexivity. Qed.

Section Arguments.
Context `{Engine : SymSpellEngine}.


(** X19. The arguments are checked before any file is written. With the
    named columns in their tables, a [null_return] that is neither [None]
    nor a [str] makes the call raise the [ValueError] that names its type;
    otherwise a maximum distance below 1 makes it raise the [ValueError]
    that quotes it. Either way the files and the left table are as they
    were: the call has only logged. *)
Theorem argument_errors_come_first (right_dataframe : DataFrame)
    (left_cols : list value) (right_cols : option (list value))
    (null_return : option value) (preprocesser_arg : option PreProcessor)
    (max_edit_distance : Z) (w : world) :
  Forall (λ c, has_column (left_dataframe w) c = true) left_cols →
  (∀ cols, right_cols = Some cols →
     Forall (λ c, has_column right_dataframe c = true) cols) →
  (∀ cls r,
     null_return = Some (VObj cls r) →
     ∃ recs,
       get_fuzzy_columns right_dataframe left_cols right_cols null_return
         preprocesser_arg max_edit_distance w
       = (Raise (Exception ValueError
                   ["null_return is type " +:+ type_repr (VObj cls r)
                    +:+ " not " +:+ str_type]),
          add_log w recs))
  ∧ ((∀ cls r, null_return ≠ Some (VObj cls r)) →
     (max_edit_distance < 1)%Z →
     ∃ recs,
       get_fuzzy_columns right_dataframe left_cols right_cols null_return
         preprocesser_arg max_edit_distance w
       = (Raise (Exception ValueError
                   ["max_edit_distance must be > 1, given "
                    +:+ Z_repr max_edit_distance]),
          add_log w recs)).
Proof.
  intros Hl Hr.
  assert (∃ recs0,
            ∀ (k : list value → M unit),
              bind (match right_cols with
                    | None =>
                        logger DEBUG
                          "right_cols set to None, copying to left_cols" [] ;;;
                        ret left_cols
                    | Some cols =>
                        check_cols "right" cols right_dataframe ;;; ret cols
                    end) k w
              = k (default left_cols right_cols) (add_log w recs0))
    as [recs0 Hright].
  { destruct right_cols as [cols|].
    - exists []. intros k.
      rewrite bind_assoc,
        (bind_ok _ _ _ _ _ (check_cols_ok _ _ _ _ (Hr _ eq_refl))), bind_ret.
      by rewrite add_log_nil.
    - eexists. intros k. by rewrite bind_assoc, bind_logger, bind_ret. }
  split.
  - intros cls r ->. eexists. unfold get_fuzzy_columns.
    rewrite bind_get_left, (bind_ok _ _ _ _ _ (check_cols_ok _ _ _ _ Hl)).
    rewrite Hright. simpl check_null_return.
    by rewrite !bind_assoc, bind_logger, add_log_add_log.
  - intros Hnr Hm. eexists. unfold get_fuzzy_columns.
    rewrite bind_get_left, (bind_ok _ _ _ _ _ (check_cols_ok _ _ _ _ Hl)).
    rewrite Hright.
    assert (∃ s, ∀ w0, check_null_return null_return w0 = (Ok s, w0))
      as [s Hs].
    { destruct null_return as [[s|cls r]|]; [by eexists..| |by eexists].
      by destruct (Hnr cls r). }
    rewrite (bind_ok _ _ _ _ _ (Hs _)).
    destruct (Z.ltb_spec max_edit_distance 1); [|lia].
    by rewrite !bind_assoc, bind_logger, add_log_add_log.
Qed.

End Arguments.


Lemma argument_errors_come_first_witness :
  ∃ recs,
    get_fuzzy_columns (Engine := RefEngine.engine) two_line_right_df [VStr "L"]
      (Some [VStr "R"]) None None 0 (fresh kiten_left_df)
    = (Raise (Exception ValueError ["max_edit_distance must be > 1, given 0"]),
       add_log (fresh kiten_left_df) recs).
Proof.
  destruct (argument_errors_come_first (Engine := RefEngine.engine)
              two_line_right_df [VStr "L"] (Some [VStr "R"]) None None 0
              (fresh kiten_left_df)) as [_ Hm].
  - repeat constructor.
  - intros cols [= <-]. repeat constructor.
  - apply Hm; [intros cls r; discriminate|lia].
Defined.

(** ** Rebuilding the dictionary *)

Section Rebuild.
Context `{Engine : SymSpellEngine}.

(** X20. [create_index] called on its own. On an object that is not
    processed it refuses, with a [FileNotFoundError] whose arguments are the
    message and the path; on a processed object whose original corpus is no
    longer there, with the [FileNotFoundError] that names that file. When
    both files are there it returns the object with a new dictionary, which
    does not depend on the dictionary the object had: building again gives
    the same. A refusal only logs. *)
Theorem create_index_rebuilds (self : Fuzzy) (w : world) (c u content : string) :
  corpus self = Some c → is_Some (files w !! c) →
  (is_preprocessed self = false →
   ∃ recs,
     create_index self w
     = (Raise (Exception FileNotFoundError
                 ["Corpus not processed. Cannot create index dictionary"; c]),
        add_log w recs))
  ∧ (is_preprocessed self = true → unprocessed_corpus self = Some u →
     (files w !! u = None →
      ∃ recs,
        create_index self w
        = (Raise (Exception FileNotFoundError
                    ["Unprocessed Corpus file" +:+ u +:+ " not found"]),
           add_log w recs))
     ∧ (files w !! u = Some content →
        ∃ index recs,
          create_index self w
          = (Ok (set_index_dictionary self index), add_log w recs)
          ∧ ∀ old, ∃ recs',
              create_index (set_index_dictionary self old) w
              = (Ok (set_index_dictionary self index), add_log w recs'))).
Proof.
  intros Hc Hcf.
  split; [|intros Hflag Hu; split].
  - intros Hflag. unfold is_preprocessed in Hflag. unfold create_index.
    destruct (bool_decide (is_Some (index_dictionary self))); eexists;
      rewrite bind_logger;
      (erewrite bind_ok by (by apply (check_corpus_found _ _ c)));
      rewrite add_log_add_log;
      [rewrite bind_logger, add_log_add_log|rewrite bind_ret];
      rewrite Hflag, Hc; change (negb false) with true; cbv iota;
      by rewrite bind_logger, add_log_add_log.
  - intros Hmiss. unfold is_preprocessed in Hflag. unfold create_index.
    destruct (bool_decide (is_Some (index_dictionary self))); eexists;
      rewrite bind_logger;
      (erewrite bind_ok by (by apply (check_corpus_found _ _ c)));
      rewrite add_log_add_log;
      [rewrite bind_logger, add_log_add_log|rewrite bind_ret];
      rewrite Hflag, Hu; change (negb true) with false; cbv iota;
      rewrite bind_path_exists, files_add_log, Hmiss;
      rewrite bool_decide_eq_false_2 by (by intros [? ?]);
      change (negb false) with true; cbv iota;
      by rewrite bind_logger, add_log_add_log.
  - intros Hfound.
    destruct (create_index_exact self c u content Hflag Hc Hu)
      as (index & notices & Hlk & _ & Hrun).
    exists index. eexists. split; [by apply Hrun|].
    intros old.
    destruct (create_index_exact (set_index_dictionary self old) c u content
                Hflag Hc Hu) as (index' & notices' & Hlk' & _ & Hrun').
    assert (index' = index) as ->.
    { apply map_eq. intros k. by rewrite Hlk, Hlk'. }
    eexists. by apply Hrun'.
Qed.

End Rebuild.

Lemma create_index_rebuilds_witness :
  ∃ index recs,
    create_index twin_fuzzy twin_world
    = (Ok (set_index_dictionary twin_fuzzy index), add_log twin_world recs)
    ∧ ∀ old, ∃ recs',
        create_index (set_index_dictionary twin_fuzzy old) twin_world
        = (Ok (set_index_dictionary twin_fuzzy index),
           add_log twin_world recs').
Proof.
  destruct (create_index_rebuilds (Engine := RefEngine.engine) twin_fuzzy
              twin_world "preprocessed_twin.txt" "twin.txt" twin_corpus
              eq_refl (mk_is_Some _ _ eq_refl)) as [_ Hbuilt].
  destruct (Hbuilt eq_refl eq_refl) as [_ Hok].
  exact (Hok eq_refl).
Defined.
